(** * OpenPrism static-image scripts: a shallow embedding and its properties

    The three scripts under [static/] ([compress_png.py], [compress_gif.py]
    and [image_info.py]) are embedded as Rocq functions over

    - Python numbers: [int] as [Z], [float] as IEEE 754 binary64 through the
      standard library's [SpecFloat] (53 bits of precision, [emax = 1024]);
    - Python exceptions as a [result] type;
    - the script directory as a finite map from file names to contents;
    - Pillow and the [gifsicle] binary as interfaces (type classes), since
      their code is not part of the repository.  *)

From Stdlib Require Import ZArith String Ascii List Lia.
From Stdlib Require Import Floats.SpecFloat.
From Stdlib Require Import DecimalString.
From stdpp Require Import gmap strings list sorting.

Open Scope string_scope.
Open Scope Z_scope.

(** ** Python exceptions and results *)

Inductive exn :=
  | ZeroDivisionError
  | OverflowError
  | ValueError
  | EOFError
  | FileNotFoundError
  | UnidentifiedImageError
  | OSError (msg : string).

Inductive result (A : Type) :=
  | Ok (a : A)
  | Raise (e : exn).

Arguments Ok {A} a.
Arguments Raise {A} e.

(** Sequencing: an exception raised by the first computation propagates. *)
#[global] Instance result_ret : MRet result := fun _ a => Ok a.
#[global] Instance result_bind : MBind result := fun _ _ k r =>
  match r with
  | Ok a => k a
  | Raise e => Raise e
  end.

(** ** Python numbers *)

Module PyNum.

(** binary64 *)
Definition prec : Z := 53.
Definition emax : Z := 1024.

Definition fdiv := SFdiv prec emax.
Definition fmul := SFmul prec emax.
Definition fltb := SFltb.

(** An [int] as an unrounded floating-point datum: mantissa [|a|],
    exponent 0.  The division of two such data rounds the exact quotient
    once, which is what [int / int] does. *)
Definition raw_of_int (a : Z) : spec_float :=
  match a with
  | Z0 => S754_zero false
  | Zpos p => S754_finite false p 0
  | Zneg p => S754_finite true p 0
  end.

Definition is_infinite (f : spec_float) : bool :=
  match f with
  | S754_infinity _ => true
  | _ => false
  end.

(** [float(a)]: round to nearest even, [OverflowError] beyond the range *)
Definition float_of_int (a : Z) : result spec_float :=
  let f := binary_normalize prec emax a 0 false in
  if is_infinite f then Raise OverflowError else Ok f.

(** [int(f)]: truncation toward zero *)
Definition int_of_float (f : spec_float) : result Z :=
  match f with
  | S754_zero _ => Ok 0
  | S754_infinity _ => Raise OverflowError
  | S754_nan => Raise ValueError
  | S754_finite s m e =>
      let a := match e with
               | Zneg k => Z.shiftr (Zpos m) (Zpos k)
               | _ => Z.shiftl (Zpos m) e
               end in
      Ok (if s then - a else a)
  end.

(** [a / b] on two [int]s *)
Definition int_truediv (a b : Z) : result spec_float :=
  if b =? 0 then Raise ZeroDivisionError
  else
    let f := fdiv (raw_of_int a) (raw_of_int b) in
    if is_infinite f then Raise OverflowError else Ok f.

(** [x / b] on a [float] and an [int] *)
Definition float_truediv_int (x : spec_float) (b : Z) : result spec_float :=
  fb ← float_of_int b;
  if b =? 0 then Raise ZeroDivisionError else Ok (fdiv x fb).

(** [a * x] on an [int] and a [float] (either order) *)
Definition int_mul_float (a : Z) (x : spec_float) : result spec_float :=
  fa ← float_of_int a;
  Ok (fmul fa x).

(** A value that is an [int] or a [float], as [size_bytes] is in
    [human_size] *)
Inductive num :=
  | PInt (z : Z)
  | PFloat (f : spec_float).

(** [x < k] for an [int] constant [k] that a [float] holds exactly *)
Definition lt_int (x : num) (k : Z) : bool :=
  match x with
  | PInt z => z <? k
  | PFloat f => fltb f (binary_normalize prec emax k 0 false)
  end.

(** [x / k] *)
Definition truediv_int (x : num) (k : Z) : result spec_float :=
  match x with
  | PInt z => int_truediv z k
  | PFloat f => float_truediv_int f k
  end.

(** *** Formatting *)

(** [str(z)] *)
Definition str_of_int (z : Z) : string := NilZero.string_of_int (Z.to_int z).

(** Round half to even of [a / 2^k], for [a >= 0] *)
Definition round_half_even_shr (a : Z) (k : Z) : Z :=
  let q := Z.shiftr a k in
  let r := a - Z.shiftl q k in
  let half := Z.shiftl 1 (k - 1) in
  if k <=? 0 then a
  else if r <? half then q
  else if half <? r then q + 1
  else if Z.even q then q else q + 1.

(** The number of tenths nearest to [m * 2^e], ties to even: the digits
    that [format(x, ".1f")] prints, the conversion being exact *)
Definition tenths (m : positive) (e : Z) : Z :=
  match e with
  | Zneg k => round_half_even_shr (10 * Zpos m) (Zpos k)
  | _ => 10 * Z.shiftl (Zpos m) e
  end.

Definition fmt_tenths (s : bool) (t : Z) : string :=
  (if s then "-" else "") +:+ str_of_int (t / 10) +:+ "." +:+ str_of_int (t mod 10).

(** [f"{x:.1f}"] on a [float] *)
Definition format_1f (f : spec_float) : string :=
  match f with
  | S754_zero s => fmt_tenths s 0
  | S754_infinity s => if s then "-inf" else "inf"
  | S754_nan => "nan"
  | S754_finite s m e => fmt_tenths s (tenths m e)
  end.

(** [f"{x:.1f}"] on an [int] or a [float]: an [int] is converted first *)
Definition format_num_1f (x : num) : result string :=
  match x with
  | PInt z => f ← float_of_int z; Ok (format_1f f)
  | PFloat f => Ok (format_1f f)
  end.

End PyNum.

(** ** Python strings

    File names and printed text are byte strings; the functions below are
    the [str] methods the scripts call, on ASCII. *)

Module PyStr.

Definition lower_ascii (c : ascii) : ascii :=
  let n := nat_of_ascii c in
  if ((65 <=? n) && (n <=? 90))%nat then ascii_of_nat (n + 32) else c.

(** [s.lower()] *)
Fixpoint lower (s : string) : string :=
  match s with
  | EmptyString => EmptyString
  | String c s' => String (lower_ascii c) (lower s')
  end.

(** [s.endswith(suffix)] *)
Definition endswith (s suffix : string) : bool :=
  let n := String.length s in
  let k := String.length suffix in
  ((k <=? n)%nat && String.eqb (substring (n - k) k s) suffix)%bool.

(** [s.rfind(c)]: the last index of [c], or -1 *)
Fixpoint rfind_from (c : ascii) (s : string) (i : Z) (found : Z) : Z :=
  match s with
  | EmptyString => found
  | String x s' => rfind_from c s' (i + 1) (if Ascii.eqb x c then i else found)
  end.

Definition rfind (c : ascii) (s : string) : Z := rfind_from c s 0 (-1).

(** [s[i:j]] for [0 <= i] *)
Definition slice (s : string) (i j : Z) : string :=
  substring (Z.to_nat i) (Z.to_nat (j - i)) s.

Fixpoint all_dots (s : string) : bool :=
  match s with
  | EmptyString => true
  | String x s' => (Ascii.eqb x "." && all_dots s')%bool
  end.

(** [os.path.splitext(p)]: the extension starts at the last dot of the
    last path component, leading dots of that component not counting *)
Definition splitext (p : string) : string * string :=
  let sepIndex := rfind "/" p in
  let dotIndex := rfind "." p in
  if (sepIndex <? dotIndex) && negb (all_dots (slice p (sepIndex + 1) dotIndex))
  then (slice p 0 dotIndex, slice p dotIndex (Z.of_nat (String.length p)))
  else (p, "").

Definition is_space (c : ascii) : bool :=
  let n := nat_of_ascii c in
  (((9 <=? n) && (n <=? 13)) || ((28 <=? n) && (n <=? 32)))%nat.

Fixpoint lstrip (s : string) : string :=
  match s with
  | EmptyString => EmptyString
  | String c s' => if is_space c then lstrip s' else s
  end.

Fixpoint rstrip (s : string) : string :=
  match s with
  | EmptyString => EmptyString
  | String c s' =>
      match rstrip s' with
      | EmptyString => if is_space c then EmptyString else String c EmptyString
      | r => String c r
      end
  end.

(** [s.strip()] *)
Definition strip (s : string) : string := rstrip (lstrip s).

Fixpoint repeat_char (c : ascii) (n : nat) : string :=
  match n with
  | O => EmptyString
  | S n' => String c (repeat_char c n')
  end.

(** [f"{s:<w}"] and [f"{s:>w}"] *)
Definition ljust (s : string) (w : nat) : string :=
  s +:+ repeat_char " " (w - String.length s).

Definition rjust (s : string) (w : nat) : string :=
  repeat_char " " (w - String.length s) +:+ s.

(** The order of [sorted] on strings *)
Definition str_le (a b : string) : Prop := String.leb a b = true.

#[global] Instance str_le_dec a b : Decision (str_le a b).
Proof. unfold str_le. apply _. Defined.

Definition sorted (l : list string) : list string := merge_sort str_le l.

End PyStr.

(** ** The shared size formatter

    [human_size] is defined in each script with the same body and its own
    unit list; [units] are the units of the [for] loop and [last] the unit of
    the final [return]. *)

Module HumanSize.
Import PyNum.

Fixpoint human_size_from (units : list string) (last : string)
    (size_bytes : num) : result string :=
  match units with
  | [] =>
      s ← format_num_1f size_bytes;
      Ok (s +:+ " " +:+ last)
  | unit :: units' =>
      if lt_int size_bytes 1024 then
        s ← format_num_1f size_bytes;
        Ok (s +:+ " " +:+ unit)
      else
        x ← truediv_int size_bytes 1024;
        human_size_from units' last (PFloat x)
  end.

End HumanSize.

(** ** The script directory, standard output and the operating system *)

Abbreviation bytes := (list Byte.byte).

Record world := World {
  files : gmap string bytes;   (* STATIC_DIR: name -> content *)
  stdout : list string               (* the lines printed so far *)
}.

(** A computation that reads and changes the world, or raises *)
Definition io (A : Type) : Type := world -> result (A * world).

#[global] Instance io_ret : MRet io := fun _ a w => Ok (a, w).
#[global] Instance io_bind : MBind io := fun _ _ k m w =>
  match m w with
  | Ok (a, w') => k a w'
  | Raise e => Raise e
  end.

Definition lift {A} (r : result A) : io A := fun w =>
  match r with
  | Ok a => Ok (a, w)
  | Raise e => Raise e
  end.

Definition raise {A} (e : exn) : io A := fun _ => Raise e.

(** [try: body except Exception: handler]: the effects of the failed body
    are those of a read-only probe, so the handler runs in the world the
    body started from *)
Definition try_except {A} (body : io A) (handler : io A) : io A := fun w =>
  match body w with
  | Ok r => Ok r
  | Raise _ => handler w
  end.

Definition set_files (w : world) (fs : gmap string bytes) : world :=
  World fs (stdout w).

Module Os.

(** [os.path.getsize(path)] *)
Definition getsize (path : string) : io Z := fun w =>
  match files w !! path with
  | Some b => Ok (Z.of_nat (length b), w)
  | None => Raise FileNotFoundError
  end.

(** [os.path.exists(path)] *)
Definition exists_ (path : string) : io bool := fun w =>
  Ok (bool_decide (is_Some (files w !! path)), w).

(** [os.remove(path)] *)
Definition remove (path : string) : io unit := fun w =>
  match files w !! path with
  | Some _ => Ok (tt, set_files w (delete path (files w)))
  | None => Raise FileNotFoundError
  end.

(** [shutil.move(src, dst)] on two file paths of one directory *)
Definition move (src dst : string) : io unit := fun w =>
  match files w !! src with
  | Some b => Ok (tt, set_files w (<[dst := b]> (delete src (files w))))
  | None => Raise FileNotFoundError
  end.

(** Writing a whole file, as [Image.save] does on success *)
Definition write (path : string) (b : bytes) : io unit := fun w =>
  Ok (tt, set_files w (<[path := b]> (files w))).

(** [os.listdir(STATIC_DIR)] *)
Definition listdir : io (list string) := fun w =>
  Ok ((map_to_list (files w)).*1, w).

(** [print(line)] *)
Definition print (line : string) : io unit := fun w =>
  Ok (tt, World (files w) (stdout w ++ [line])%list).

End Os.

(** ** Pillow

    The image library is outside the repository: its codecs and its
    resampling are the fields of an interface, and the part of [Image] that
    the scripts read (size, mode, frames, [info]) is a record. *)

Record Image (R : Type) := mkImage {
  width : Z;
  height : Z;
  mode : string;
  frame0 : gmap string Z;             (* the [info] of the first frame *)
  more_frames : list (gmap string Z); (* the [info] of the frames after it *)
  tell : nat;                         (* the current frame, [img.tell()] *)
  raster : R                          (* the pixels *)
}.

Arguments mkImage {R}.
Arguments width {R}.
Arguments height {R}.
Arguments mode {R}.
Arguments frame0 {R}.
Arguments more_frames {R}.
Arguments tell {R}.
Arguments raster {R}.

(** The modes that Pillow's JPEG writer can store.  [save(path, "JPEG")] of
    an image in any other mode (["RGBA"], ["LA"], ["P"], ...) raises
    [OSError("cannot write mode M as JPEG")]. *)
Definition jpeg_writable (m : string) : bool :=
  String.eqb m "1" || String.eqb m "L" || String.eqb m "RGB"
  || String.eqb m "RGBX" || String.eqb m "CMYK" || String.eqb m "YCbCr".

Definition jpeg_mode_error (m : string) : exn :=
  OSError ("cannot write mode " +:+ m +:+ " as JPEG").

Class Pillow := {
  pixels : Type;
  (** what [Image.open] makes of a file's content; [None]: not an image *)
  decode : bytes -> option (Image pixels);
  (** the pixels of [resize((w, h), Image.LANCZOS)] *)
  lanczos : Image pixels -> Z -> Z -> pixels;
  (** the pixels of [convert(mode)] *)
  convert_pixels : Image pixels -> string -> pixels;
  (** [save(path, "PNG", optimize=True)] *)
  encode_png : Image pixels -> result bytes;
  (** [save(path, "JPEG", quality=q, optimize=True)] *)
  encode_jpeg : Image pixels -> Z -> result bytes
}.

Module PIL.
Section WithPillow.
Context `{Pillow}.

Definition n_frames (img : Image pixels) : nat := S (length (more_frames img)).

(** [img.info]: the metadata of the current frame *)
Definition info (img : Image pixels) : gmap string Z :=
  match tell img with
  | O => frame0 img
  | S k => default ∅ (more_frames img !! k)
  end.

(** The image [img] positioned at frame [t] *)
Definition at_frame (img : Image pixels) (t : nat) : Image pixels :=
  mkImage (width img) (height img) (mode img) (frame0 img) (more_frames img)
    t (raster img).

(** [Image.open(path)]: the image starts at its first frame *)
Definition open (path : string) : io (Image pixels) := fun w =>
  match files w !! path with
  | None => Raise FileNotFoundError
  | Some b =>
      match decode b with
      | None => Raise UnidentifiedImageError
      | Some img => Ok (at_frame img 0, w)
      end
  end.

(** [img.seek(frame)]: [EOFError] past the last frame, and the image
    stays where it was *)
Definition seek (img : Image pixels) (frame : nat) : result (Image pixels) :=
  if (frame <? n_frames img)%nat then Ok (at_frame img frame)
  else Raise EOFError.

(** [img.resize((w, h), Image.LANCZOS)]: a new single-frame image *)
Definition resize (img : Image pixels) (w h : Z) : result (Image pixels) :=
  if (w <=? 0) || (h <=? 0) then Raise ValueError
  else Ok (mkImage w h (mode img) (info img) [] 0 (lanczos img w h)).

(** [img.convert(m)] *)
Definition convert (img : Image pixels) (m : string) : Image pixels :=
  mkImage (width img) (height img) m (info img) [] 0 (convert_pixels img m).

(** [img.save(path, "PNG", optimize=True)] *)
Definition save_png (img : Image pixels) (path : string) : io unit :=
  b ← lift (encode_png img);
  Os.write path b.

(** [img.save(path, "JPEG", quality=quality, optimize=True)] *)
Definition save_jpeg (img : Image pixels) (path : string) (quality : Z) : io unit :=
  b ← lift (encode_jpeg img quality);
  Os.write path b.

End WithPillow.
End PIL.

(** ** The proportional height

    Both compressors compute the height of a downscaled image with the same
    two statements: [ratio = max_width / width] and
    [new_h = int(height * ratio)]. *)

Module Resize.
Import PyNum.

Definition scaled_height (max_width w h : Z) : result Z :=
  ratio ← int_truediv max_width w;
  x ← int_mul_float h ratio;
  int_of_float x.

End Resize.

(** ** Formatting shared by the two summary lines *)

Module Summary.
Import PyNum.

(** [(saved_total / total_old * 100) if total_old else 0] *)
Definition pct (total_old saved_total : Z) : result num :=
  if total_old =? 0 then Ok (PInt 0)
  else
    q ← int_truediv saved_total total_old;
    hundred ← float_of_int 100;
    Ok (PFloat (fmul q hundred)).

(** [f"{w}x{h}"], followed by [" -> {w'}x{h'}"] when the size changed *)
Definition dims_str (old_d new_d : Z * Z) : string :=
  let s := str_of_int old_d.1 +:+ "x" +:+ str_of_int old_d.2 in
  if bool_decide (old_d = new_d) then s
  else s +:+ " -> " +:+ str_of_int new_d.1 +:+ "x" +:+ str_of_int new_d.2.

End Summary.

(** ** [compress_png.py] *)

Module CompressPng.
Import PyNum PyStr.

Definition human_size (size_bytes : Z) : result string :=
  HumanSize.human_size_from ["B"; "KB"; "MB"] "GB" (PInt size_bytes).

Section WithPillow.
Context `{Pillow}.

(** Lines 31-34: resize if wider than [max_width] *)
Definition resize_if_wider (img : Image pixels) (max_width : Z)
    : result (Image pixels) :=
  if max_width <? width img then
    new_h ← Resize.scaled_height max_width (width img) (height img);
    PIL.resize img max_width new_h
  else Ok img.

(** Lines 40-41: what the JPEG branch hands to the encoder *)
Definition jpeg_input (img : Image pixels) : Image pixels :=
  if String.eqb (mode img) "RGBA" then PIL.convert img "RGB" else img.

(** Lines 36-42: re-encode in place, by extension *)
Definition save_by_ext (img : Image pixels) (filepath : string) (quality : Z)
    : io (Image pixels) :=
  let ext := lower (splitext filepath).2 in
  if String.eqb ext ".png" then
    _ ← PIL.save_png img filepath;
    mret img
  else if String.eqb ext ".jpg" || String.eqb ext ".jpeg" then
    let img := jpeg_input img in
    _ ← PIL.save_jpeg img filepath quality;
    mret img
  else mret img.

(** Returns [(old_size, new_size, orig_dims, new_dims)] *)
Definition compress_image (filepath : string) (max_width quality : Z)
    : io (Z * Z * (Z * Z) * (Z * Z)) :=
  old_size ← Os.getsize filepath;
  img ← PIL.open filepath;
  let orig_dims := (width img, height img) in
  img ← lift (resize_if_wider img max_width);
  img ← save_by_ext img filepath quality;
  new_size ← Os.getsize filepath;
  mret (old_size, new_size, orig_dims, (width img, height img)).

Definition is_target (f : string) : bool :=
  let ext := lower (splitext f).2 in
  String.eqb ext ".png" || String.eqb ext ".jpg" || String.eqb ext ".jpeg".

Definition row (f : string) (old_sz new_sz : Z) (old_d new_d : Z * Z)
    : result string :=
  let saved := old_sz - new_sz in
  a ← human_size old_sz;
  b ← human_size new_sz;
  c ← human_size saved;
  Ok (ljust f 35 +:+ " " +:+ rjust a 10 +:+ " " +:+ rjust b 10 +:+ " "
      +:+ rjust c 10 +:+ " " +:+ Summary.dims_str old_d new_d).

(** The [for f in files] loop, threading [(total_old, total_new)] *)
Fixpoint loop (fs : list string) (max_width quality : Z) (totals : Z * Z)
    : io (Z * Z) :=
  match fs with
  | [] => mret totals
  | f :: fs' =>
      '(old_sz, new_sz, old_d, new_d) ← compress_image f max_width quality;
      line ← lift (row f old_sz new_sz old_d new_d);
      _ ← Os.print line;
      loop fs' max_width quality (totals.1 + old_sz, totals.2 + new_sz)
  end.

Definition total_line (total_old total_new : Z) : result string :=
  let saved_total := total_old - total_new in
  pct ← Summary.pct total_old saved_total;
  a ← human_size total_old;
  b ← human_size total_new;
  c ← human_size saved_total;
  p ← format_num_1f pct;
  Ok (ljust "Total" 35 +:+ " " +:+ rjust a 10 +:+ " " +:+ rjust b 10 +:+ " "
      +:+ rjust c 10 +:+ " (" +:+ p +:+ "% saved)").

Definition main (max_width quality : Z) : io unit :=
  names ← Os.listdir;
  let fs := sorted (List.filter is_target names) in
  match fs with
  | [] => Os.print "No PNG/JPG files found."
  | _ =>
      _ ← Os.print ("Compressing with max_width=" +:+ str_of_int max_width
                     +:+ ", quality=" +:+ str_of_int quality);
      _ ← Os.print (ljust "File" 35 +:+ " " +:+ rjust "Before" 10 +:+ " "
                     +:+ rjust "After" 10 +:+ " " +:+ rjust "Saved" 10
                     +:+ " Dims");
      _ ← Os.print (repeat_char "-" 90);
      '(total_old, total_new) ← loop fs max_width quality (0, 0);
      _ ← Os.print (repeat_char "-" 90);
      line ← lift (total_line total_old total_new);
      Os.print line
  end.

End WithPillow.
End CompressPng.

(** ** [compress_gif.py] *)

(** The external optimizer.  Given its argument vector and the directory, a
    run gives an exit code, the text of its standard error and, when it
    wrote one, the content of its output file; the run itself fails (an
    exception of [subprocess.run]) when the binary cannot be started. *)
Class Gifsicle := {
  run_gifsicle : list string -> gmap string bytes -> result (Z * string * option bytes)
}.

Record CompletedProcess := mkCompleted {
  returncode : Z;
  stderr : string
}.

Module CompressGif.
Import PyNum PyStr.

Definition human_size (size_bytes : Z) : result string :=
  HumanSize.human_size_from ["B"; "KB"; "MB"] "GB" (PInt size_bytes).

(** The path that follows [-o] in an argument vector *)
Fixpoint output_path (cmd : list string) : option string :=
  match cmd with
  | [] => None
  | a :: cmd' =>
      if String.eqb a "-o" then
        match cmd' with
        | p :: _ => Some p
        | [] => None
        end
      else output_path cmd'
  end.

Section WithTools.
Context `{Pillow} `{Gifsicle}.

(** [subprocess.run(cmd, capture_output=True, text=True)]: the tool
    writes nothing but its output file *)
Definition subprocess_run (cmd : list string) : io CompletedProcess := fun w =>
  match run_gifsicle cmd (files w) with
  | Raise e => Raise e
  | Ok (rc, err, out) =>
      let fs' := match out, output_path cmd with
                 | Some b, Some p => <[p := b]> (files w)
                 | _, _ => files w
                 end in
      Ok (mkCompleted rc err, set_files w fs')
  end.

Definition get_gif_dims (filepath : string) : io (Z * Z) :=
  img ← PIL.open filepath;
  mret (width img, height img).

(** Lines 42-46: the resize instruction, if needed *)
Definition resize_args (old_dims : Z * Z) (max_width : Z) : result (list string) :=
  if max_width <? old_dims.1 then
    new_h ← Resize.scaled_height max_width old_dims.1 old_dims.2;
    Ok ["--resize=" +:+ str_of_int max_width +:+ "x" +:+ str_of_int new_h]
  else Ok [].

(** Lines 36-49: the argument vector, [extra] being the resize
    instruction or nothing *)
Definition command (filepath : string) (lossy colors : Z) (extra : list string)
    : list string :=
  let cmd := ["gifsicle"; "--optimize=3";
              "--lossy=" +:+ str_of_int lossy;
              "--colors=" +:+ str_of_int colors] in
  let cmd := (cmd ++ extra)%list in
  let tmp := filepath +:+ ".tmp" in
  (cmd ++ ["-o"; tmp; filepath])%list.

(** Returns [(old_size, new_size, old_dims, new_dims, err)] *)
Definition compress_gif (filepath : string) (max_width lossy colors : Z)
    : io (Z * Z * (Z * Z) * (Z * Z) * option string) :=
  old_size ← Os.getsize filepath;
  old_dims ← get_gif_dims filepath;
  extra ← lift (resize_args old_dims max_width);
  let tmp := filepath +:+ ".tmp" in
  result ← subprocess_run (command filepath lossy colors extra);
  if negb (returncode result =? 0) then
    present ← Os.exists_ tmp;
    _ ← (if (present : bool) then Os.remove tmp else mret tt);
    mret (old_size, old_size, old_dims, old_dims, Some (strip (stderr result)))
  else
    new_size ← Os.getsize tmp;
    (* Only replace if actually smaller *)
    new_size ← (if new_size <? old_size then
                  _ ← Os.move tmp filepath;
                  (mret new_size : io Z)
                else
                  _ ← Os.remove tmp;
                  mret old_size);
    new_dims ← get_gif_dims filepath;
    mret (old_size, new_size, old_dims, new_dims, None).

Definition is_target (f : string) : bool := endswith (lower f) ".gif".

(** [f" [ERR: {err}]" if err else ""] *)
Definition status (err : option string) : string :=
  match err with
  | Some (String c e) => " [ERR: " +:+ String c e +:+ "]"
  | _ => ""
  end.

Definition row (f : string) (old_sz new_sz : Z) (old_d new_d : Z * Z)
    (err : option string) : result string :=
  let saved := old_sz - new_sz in
  a ← human_size old_sz;
  b ← human_size new_sz;
  c ← human_size saved;
  Ok (ljust f 45 +:+ " " +:+ rjust a 10 +:+ " " +:+ rjust b 10 +:+ " "
      +:+ rjust c 10 +:+ " " +:+ Summary.dims_str old_d new_d +:+ status err).

(** The [for f in files] loop, threading [(total_old, total_new)] *)
Fixpoint loop (fs : list string) (max_width lossy colors : Z) (totals : Z * Z)
    : io (Z * Z) :=
  match fs with
  | [] => mret totals
  | f :: fs' =>
      '(old_sz, new_sz, old_d, new_d, err) ← compress_gif f max_width lossy colors;
      line ← lift (row f old_sz new_sz old_d new_d err);
      _ ← Os.print line;
      loop fs' max_width lossy colors (totals.1 + old_sz, totals.2 + new_sz)
  end.

Definition total_line (total_old total_new : Z) : result string :=
  let saved_total := total_old - total_new in
  pct ← Summary.pct total_old saved_total;
  a ← human_size total_old;
  b ← human_size total_new;
  c ← human_size saved_total;
  p ← format_num_1f pct;
  Ok (ljust "Total" 45 +:+ " " +:+ rjust a 10 +:+ " " +:+ rjust b 10 +:+ " "
      +:+ rjust c 10 +:+ " (" +:+ p +:+ "% saved)").

Definition main (max_width lossy colors : Z) : io unit :=
  names ← Os.listdir;
  let fs := sorted (List.filter is_target names) in
  match fs with
  | [] => Os.print "No GIF files found."
  | _ =>
      _ ← Os.print ("Compressing GIFs: max_width=" +:+ str_of_int max_width
                     +:+ ", lossy=" +:+ str_of_int lossy
                     +:+ ", colors=" +:+ str_of_int colors);
      _ ← Os.print (ljust "File" 45 +:+ " " +:+ rjust "Before" 10 +:+ " "
                     +:+ rjust "After" 10 +:+ " " +:+ rjust "Saved" 10
                     +:+ " Dims");
      _ ← Os.print (repeat_char "-" 100);
      '(total_old, total_new) ← loop fs max_width lossy colors (0, 0);
      _ ← Os.print (repeat_char "-" 100);
      line ← lift (total_line total_old total_new);
      Os.print line
  end.

End WithTools.
End CompressGif.

(** ** [image_info.py] *)

Module ImageInfo.
Import PyNum PyStr.

Definition human_size (size_bytes : Z) : result string :=
  HumanSize.human_size_from ["B"; "KB"; "MB"; "GB"] "TB" (PInt size_bytes).

Section WithPillow.
Context `{Pillow}.

(** The [while True] loop of [get_gif_info]; it leaves through
    [EOFError] only.  [fuel] bounds the number of iterations; [None] when
    it runs out. *)
Fixpoint count_frames (fuel : nat) (img : Image pixels) (frames : Z)
    : option (result (Image pixels * Z)) :=
  match fuel with
  | O => None
  | S fuel' =>
      let frames := frames + 1 in
      match PIL.seek img (tell img + 1) with
      | Ok img' => count_frames fuel' img' frames
      | Raise EOFError => Some (Ok (img, frames))
      | Raise e => Some (Raise e)
      end
  end.

(** Get GIF frame count and duration.  The loop is given one iteration
    per frame of the image, which is all it can use. *)
Definition get_gif_info (filepath : string) : io (Z * Z) :=
  img ← PIL.open filepath;
  match count_frames (PIL.n_frames img) img 0 with
  | None => raise (OSError "unreachable")
  | Some r =>
      '(img, frames) ← lift r;
      let duration := default 0 (PIL.info img !! "duration") in
      mret (frames, duration)
  end.

Definition is_target (f : string) : bool :=
  let ext := lower (splitext f).2 in
  String.eqb ext ".png" || String.eqb ext ".jpg" || String.eqb ext ".jpeg"
  || String.eqb ext ".gif" || String.eqb ext ".webp" || String.eqb ext ".svg"
  || String.eqb ext ".bmp".

(** Lines 53-57: the dimension probe *)
Definition probe_dims (path : string) : io string :=
  try_except
    (img ← PIL.open path;
     mret (str_of_int (width img) +:+ "x" +:+ str_of_int (height img)))
    (mret "N/A").

(** The [for f in files] loop, threading [total_size] *)
Fixpoint loop (fs : list string) (total_size : Z) : io Z :=
  match fs with
  | [] => mret total_size
  | f :: fs' =>
      size ← Os.getsize f;
      let total_size := total_size + size in
      dims ← probe_dims f;
      extra ← (if endswith (lower f) ".gif" then
                 '(frames, duration) ← get_gif_info f;
                 (mret ("frames=" +:+ str_of_int frames +:+ ", duration="
                        +:+ str_of_int duration +:+ "ms/frame") : io string)
               else mret "");
      hs ← lift (human_size size);
      _ ← Os.print (ljust f 45 +:+ " " +:+ rjust hs 10 +:+ " "
                     +:+ rjust dims 14 +:+ " " +:+ extra);
      loop fs' total_size
  end.

Definition main : io unit :=
  names ← Os.listdir;
  let fs := sorted (List.filter is_target names) in
  match fs with
  | [] => Os.print "No image files found."
  | _ =>
      _ ← Os.print (ljust "File" 45 +:+ " " +:+ rjust "Size" 10 +:+ " "
                     +:+ rjust "Dimensions" 14 +:+ " Extra");
      _ ← Os.print (repeat_char "-" 90);
      total_size ← loop fs 0;
      _ ← Os.print (repeat_char "-" 90);
      hs ← lift (human_size total_size);
      _ ← Os.print (ljust "Total" 45 +:+ " " +:+ rjust hs 10);
      (* "\nGitHub recommended: ..." prints an empty line first *)
      _ ← Os.print "";
      Os.print "GitHub recommended: single file < 25MB, repo < 1GB"
  end.

End WithPillow.
End ImageInfo.

(** ** What the specification says, in its own words

    Two definitions that follow the specification rather than the code, to
    compare the code with. *)

Module Spec.

(** "new height equals [round(H * bound / W)]": the integer nearest to the
    exact quotient, a tie going to the even neighbour as [round] does *)
Definition rounded_height (max_width w h : Z) : Z :=
  let q := (h * max_width) / w in
  let r := (h * max_width) mod w in
  if 2 * r <? w then q
  else if w <? 2 * r then q + 1
  else if Z.even q then q else q + 1.

(** "any mode with transparency, e.g. RGBA, LA, or palette with
    transparency" *)
Definition carries_alpha {R} (img : Image R) : bool :=
  String.eqb (mode img) "RGBA" || String.eqb (mode img) "LA"
  || (String.eqb (mode img) "P"
      && bool_decide (is_Some (frame0 img !! "transparency"))).

End Spec.

(** ** Concrete instances of the two interfaces

    A small image format and a scripted optimizer, on which the embedding
    can be run. *)

Module Toy.

Definition byte_of_Z (z : Z) : Byte.byte :=
  default Byte.x00 (Byte.of_N (Z.to_N (z mod 256))).

Definition Z_of_byte (b : Byte.byte) : Z := Z.of_N (Byte.to_N b).

Definition mode_of_code (c : Z) : string :=
  if c =? 1 then "RGBA" else if c =? 2 then "LA" else if c =? 3 then "P" else "RGB".

Definition code_of_mode (m : string) : Z :=
  if String.eqb m "RGBA" then 1
  else if String.eqb m "LA" then 2
  else if String.eqb m "P" then 3
  else 0.

(** A file is: width (two bytes), height (two bytes), mode, number of
    frames after the first, duration of a frame in units of 10 ms (0: none
    recorded), then anything. *)
Definition toy_decode (b : bytes) : option (Image unit) :=
  match b with
  | w1 :: w0 :: h1 :: h0 :: m :: n :: d :: _ =>
      let inf : gmap string Z :=
        if Z_of_byte d =? 0 then ∅ else {[ "duration" := 10 * Z_of_byte d ]} in
      Some (mkImage (256 * Z_of_byte w1 + Z_of_byte w0)
              (256 * Z_of_byte h1 + Z_of_byte h0)
              (mode_of_code (Z_of_byte m))
              inf (replicate (Z.to_nat (Z_of_byte n)) inf) 0 tt)
  | _ => None
  end.

Definition toy_header (img : Image unit) : bytes :=
  [ byte_of_Z (width img / 256); byte_of_Z (width img);
    byte_of_Z (height img / 256); byte_of_Z (height img);
    byte_of_Z (code_of_mode (mode img));
    byte_of_Z (Z.of_nat (length (more_frames img)));
    byte_of_Z (default 0 (frame0 img !! "duration") / 10) ].

(** The PNG encoder writes the header alone; the JPEG encoder follows it
    with [quality] bytes, and refuses the modes that JPEG cannot store, as
    Pillow's does. *)
Definition toy_pillow : Pillow := {|
  pixels := unit;
  decode := toy_decode;
  lanczos := fun _ _ _ => tt;
  convert_pixels := fun _ _ => tt;
  encode_png := fun img => Ok (toy_header img);
  encode_jpeg := fun img q =>
    if jpeg_writable (mode img)
    then Ok (toy_header img ++ replicate (Z.to_nat q) Byte.x00)%list
    else Raise (jpeg_mode_error (mode img))
|}.

(** An optimizer that always answers the same *)
Definition scripted (rc : Z) (err : string) (out : option bytes) : Gifsicle := {|
  run_gifsicle := fun _ _ => Ok (rc, err, out)
|}.

(** A file of the toy format with [pad] bytes after its header *)
Definition toy_file (w h mode_code more dur : Z) (pad : nat) : bytes :=
  ([ byte_of_Z (w / 256); byte_of_Z w; byte_of_Z (h / 256); byte_of_Z h;
     byte_of_Z mode_code; byte_of_Z more; byte_of_Z dur ]
   ++ replicate pad Byte.xff)%list.

Definition dir1 (name : string) (content : bytes) : world :=
  World {[ name := content ]} [].

(** A 1600x1000 animation of 50 frames, 307 bytes long *)
Definition big : bytes := toy_file 1600 1000 3 49 4 300.
(** What a good run of the optimizer makes of it: 800x500, 27 bytes *)
Definition small : bytes := toy_file 800 500 3 49 4 20.
(** An output that is larger than the original: 407 bytes *)
Definition bigger : bytes := toy_file 1600 1000 3 49 4 400.

End Toy.

(** ** Definitions used in the statements *)

Module StatementDefs.
Import PyNum PyStr.

Definition no_zero_division {A} (r : result A) : Prop := r <> Raise ZeroDivisionError.

(** 100.0 *)
Definition hundred : spec_float := S754_finite false 7036874417766400 (-46).

(** [z] is the float [f] with its fraction dropped: [|z| <= |f| < |z| + 1]
    with the sign of [f], both sides scaled to integers *)
Definition truncation_of (f : spec_float) (z : Z) : Prop :=
  match f with
  | S754_zero _ => z = 0
  | S754_finite s m e =>
      (if s then z <= 0 else 0 <= z) /\
      Z.abs z * 2 ^ Z.max 0 (- e) <= Zpos m * 2 ^ Z.max 0 e
      /\ Zpos m * 2 ^ Z.max 0 e < (Z.abs z + 1) * 2 ^ Z.max 0 (- e)
  | _ => False
  end.

(** The double of value [n / 1024^j], for [0 < n < 2^53]: a mantissa of 53
    bits and the exponent that goes with it *)
Definition mant (n : Z) : positive := Z.to_pos (n * 2 ^ (53 - Zdigits2 n)).
Definition scaled (n j : Z) : spec_float :=
  S754_finite false (mant n) (Zdigits2 n - 53 - 10 * j).

(** The mantissa of the double 1024.0 *)
Definition two52 : positive := 4503599627370496.

(** The number of divisions by 1024 that [human_size] makes from the
    [j]-th unit on, and the unit it stops at: the first whose value is below
    1024, or the last *)
Fixpoint pick (units : list string) (last : string) (n : Z) (j : Z) : Z * string :=
  match units with
  | [] => (j, last)
  | u :: units' => if n <? 1024 ^ (j + 1) then (j, u) else pick units' last n (j + 1)
  end.

Section WithPillow.
Context `{Pillow}.

(** The image that is encoded and the bytes that are written for a file
    with one of the three extensions *)
Definition encoded (filepath : string) (quality : Z) (img1 : Image pixels)
    (b : bytes) : Prop :=
  let ext := lower (splitext filepath).2 in
  (ext = ".png" /\ encode_png img1 = Ok b)
  \/ ((ext = ".jpg" \/ ext = ".jpeg") /\ encode_jpeg (CompressPng.jpeg_input img1) quality = Ok b).

(** The JPEG writer refuses an image whose mode it cannot store, as
    Pillow's does. *)
Definition jpeg_writer_refuses : Prop :=
  forall (img : Image pixels) (quality : Z),
    jpeg_writable (mode img) = false ->
    encode_jpeg img quality = Raise (jpeg_mode_error (mode img)).

End WithPillow.

End StatementDefs.

(** ** Definitions used in the statements about whole runs *)

Module RunDefs.
Import Toy.

(** The sizes of the files [fs] in the directory of [w], added up *)
Definition sizes_sum (w : world) (fs : list string) : Z :=
  foldr (fun f acc => Z.of_nat (length (default [] (files w !! f))) + acc) 0 fs.

(** Two animations, a text file and a stale temporary file *)
Definition gif_dir : world :=
  World (<[ "a.gif" := big ]> (<[ "b.GIF" := big ]>
          (<[ "notes.txt" := [Byte.x68; Byte.x69] ]> {[ "a.gif.tmp" := [Byte.x00] ]}))) [].

(** Two images and a text file *)
Definition png_dir : world :=
  World (<[ "a.png" := toy_file 2400 1000 0 0 0 30 ]>
          (<[ "b.JPG" := toy_file 640 480 1 0 0 3 ]>
            {[ "notes.txt" := [Byte.x68; Byte.x69] ]})) [].

(** An animation, an unreadable drawing and a text file, after a line of
    earlier output *)
Definition report_dir : world :=
  World (<[ "a.gif" := big ]>
          (<[ "b.svg" := [Byte.x3c; Byte.x73] ]>
            {[ "notes.txt" := [Byte.x68; Byte.x69] ]})) ["$ python image_info.py"].

End RunDefs.

(** * Properties *)

(** ** Reasoning about [io] computations *)

Section IoLemmas.
Context {A B : Type}.

Lemma io_bind_ok (m : io A) (k : A -> io B) w b w' :
  (m ≫= k) w = Ok (b, w') ->
  exists a w1, m w = Ok (a, w1) /\ k a w1 = Ok (b, w').
Proof.
  unfold mbind, io_bind. destruct (m w) as [[a w1]|e]; [|discriminate].
  intros Hk. exists a, w1. split; [reflexivity | exact Hk].
Qed.

Lemma io_bind_step (m : io A) (k : A -> io B) w a w1 :
  m w = Ok (a, w1) -> (m ≫= k) w = k a w1.
Proof. unfold mbind, io_bind. intros ->. reflexivity. Qed.

Lemma io_bind_raise (m : io A) (k : A -> io B) w e :
  m w = Raise e -> (m ≫= k) w = Raise e.
Proof. unfold mbind, io_bind. intros ->. reflexivity. Qed.
End IoLemmas.

Lemma lift_ok {A} (r : result A) w a w' :
  lift r w = Ok (a, w') -> r = Ok a /\ w' = w.
Proof. unfold lift. destruct r; [|discriminate]. intros [= -> ->]. auto. Qed.

Lemma getsize_ok path w n w' :
  Os.getsize path w = Ok (n, w') ->
  w' = w /\ exists b, files w !! path = Some b /\ n = Z.of_nat (length b).
Proof.
  unfold Os.getsize. destruct (files w !! path) as [b|]; [|discriminate].
  intros [= <- <-]. eauto.
Qed.

Lemma getsize_found path w b :
  files w !! path = Some b -> Os.getsize path w = Ok (Z.of_nat (length b), w).
Proof. unfold Os.getsize. intros ->. reflexivity. Qed.

Lemma append_length (s t : string) :
  String.length (s +:+ t) = (String.length s + String.length t)%nat.
Proof. induction s as [|c s IH]; simpl; [reflexivity | now rewrite IH]. Qed.

(** The temporary path is never the path of the file itself. *)
Lemma tmp_neq (filepath : string) : filepath +:+ ".tmp" <> filepath.
Proof.
  intros Heq. apply (f_equal String.length) in Heq.
  rewrite append_length in Heq. simpl in Heq. lia.
Qed.

Section OpenLemmas.
Context `{Pillow}.

Lemma open_ok path w img w' :
  PIL.open path w = Ok (img, w') ->
  w' = w /\ exists b d, files w !! path = Some b /\ decode b = Some d /\
    img = mkImage (width d) (height d) (mode d) (frame0 d) (more_frames d) 0 (raster d).
Proof.
  unfold PIL.open. destruct (files w !! path) as [b|]; [|discriminate].
  destruct (decode b) as [d|] eqn:Hdec; [|discriminate].
  intros [= <- <-]. split; [reflexivity|]. exists b, d. auto.
Qed.

Lemma open_decoded path w b d :
  files w !! path = Some b -> decode b = Some d ->
  PIL.open path w
  = Ok (mkImage (width d) (height d) (mode d) (frame0 d) (more_frames d) 0 (raster d), w).
Proof. unfold PIL.open. intros -> ->. reflexivity. Qed.

Lemma open_unreadable path w b :
  files w !! path = Some b -> decode b = None ->
  PIL.open path w = Raise UnidentifiedImageError.
Proof. unfold PIL.open. intros -> ->. reflexivity. Qed.
End OpenLemmas.

(** ** [compress_gif.py]: what a call of [compress_gif] does *)

Module GifFacts.
Import PyNum PyStr CompressGif.

Section WithTools.
Context `{Pillow} `{Gifsicle}.

Lemma resize_args_no_o old_dims max_width extra :
  resize_args old_dims max_width = Ok extra ->
  forall tl, output_path (extra ++ tl) = output_path tl.
Proof.
  unfold resize_args. destruct (max_width <? old_dims.1).
  - destruct (Resize.scaled_height _ _ _) as [h|e]; simpl; [|discriminate].
    intros [= <-] tl. reflexivity.
  - intros [= <-] tl. reflexivity.
Qed.

(** The tool is always told to write to the temporary path. *)
Lemma output_path_command filepath lossy colors old_dims max_width extra :
  resize_args old_dims max_width = Ok extra ->
  output_path (command filepath lossy colors extra) = Some (filepath +:+ ".tmp").
Proof.
  intros Hx. unfold command. rewrite <- app_assoc.
  cbn [app output_path String.eqb Ascii.eqb Bool.eqb].
  rewrite (resize_args_no_o _ _ _ Hx). reflexivity.
Qed.

Lemma get_gif_dims_ok filepath w d w' :
  get_gif_dims filepath w = Ok (d, w') ->
  w' = w /\ exists b img, files w !! filepath = Some b /\ decode b = Some img
                     /\ d = (width img, height img).
Proof.
  unfold get_gif_dims. intros Hd.
  apply io_bind_ok in Hd as (img & w1 & Hopen & Hret).
  apply open_ok in Hopen as (-> & b & d0 & Hb & Hdec & ->).
  injection Hret as <- <-. split; [reflexivity|]. exists b, d0. auto.
Qed.

Lemma get_gif_dims_decoded filepath w b img :
  files w !! filepath = Some b -> decode b = Some img ->
  get_gif_dims filepath w = Ok ((width img, height img), w).
Proof.
  intros Hb Hdec. unfold get_gif_dims.
  rewrite (io_bind_step _ _ _ _ _ (open_decoded _ _ _ _ Hb Hdec)). reflexivity.
Qed.

Lemma subprocess_run_ok cmd w r w1 tmp :
  subprocess_run cmd w = Ok (r, w1) ->
  output_path cmd = Some tmp ->
  stdout w1 = stdout w /\
  (forall p, p <> tmp -> files w1 !! p = files w !! p) /\
  exists out, run_gifsicle cmd (files w) = Ok (returncode r, stderr r, out) /\
    files w1 !! tmp = match out with Some b => Some b | None => files w !! tmp end.
Proof.
  unfold subprocess_run. intros Hrun Hout. rewrite Hout in Hrun.
  destruct (run_gifsicle cmd (files w)) as [[[rc err] out]|e]; [|discriminate].
  injection Hrun as <- <-. cbn.
  split; [reflexivity|]. split.
  - intros p Hp. destruct out; [|reflexivity]. now rewrite lookup_insert_ne.
  - exists out. split; [reflexivity|].
    destruct out; [|reflexivity]. now rewrite lookup_insert_eq.
Qed.

(** The world after the failure branch: the temporary file is gone and
    nothing else changed. *)
Lemma cleanup_after_failure tmp w1 w2 :
  (present ← Os.exists_ tmp;
   if (present : bool) then Os.remove tmp else mret tt) w1 = Ok (tt, w2) ->
  stdout w2 = stdout w1 /\ files w2 = delete tmp (files w1).
Proof.
  intros Hc. apply io_bind_ok in Hc as (present & w0 & Hex & Hrm).
  injection Hex as <- <-.
  case_bool_decide as Hp.
  - destruct Hp as [x Hx]. unfold Os.remove in Hrm. rewrite Hx in Hrm.
    injection Hrm as <-. auto.
  - injection Hrm as <-. split; [reflexivity|].
    symmetry. apply delete_id.
    destruct (files w1 !! tmp) eqn:E; [|reflexivity]. exfalso. apply Hp. eauto.
Qed.

(** What a returning call of [compress_gif] did *)
Lemma compress_gif_inv filepath max_width lossy colors w
    old_size new_size old_dims new_dims err w' :
  compress_gif filepath max_width lossy colors w
    = Ok ((old_size, new_size, old_dims, new_dims, err), w') ->
  let tmp := filepath +:+ ".tmp" in
  exists orig img extra r w1,
    files w !! filepath = Some orig /\ decode orig = Some img /\
    old_size = Z.of_nat (length orig) /\ old_dims = (width img, height img) /\
    resize_args old_dims max_width = Ok extra /\
    subprocess_run (command filepath lossy colors extra) w = Ok (r, w1) /\
    (forall p, p <> tmp -> files w1 !! p = files w !! p) /\
    stdout w' = stdout w /\
    ((returncode r <> 0 /\ new_size = old_size /\ new_dims = old_dims /\
      err = Some (strip (stderr r)) /\ files w' = delete tmp (files w1))
     \/
     (returncode r = 0 /\ err = None /\
      exists out, files w1 !! tmp = Some out /\
        ((Z.of_nat (length out) < old_size /\ new_size = Z.of_nat (length out) /\
          files w' = <[filepath := out]> (delete tmp (files w1)) /\
          exists img', decode out = Some img' /\ new_dims = (width img', height img'))
         \/
         (old_size <= Z.of_nat (length out) /\ new_size = old_size /\
          files w' = delete tmp (files w1) /\ new_dims = old_dims)))).
Proof.
  intros Hc tmp. unfold compress_gif in Hc.
  apply io_bind_ok in Hc as (os & w0 & Hsz & Hc).
  apply getsize_ok in Hsz as (-> & orig & Horig & ->).
  apply io_bind_ok in Hc as (od & w0 & Hd & Hc).
  apply get_gif_dims_ok in Hd as (-> & b & img & Hb & Hdec & ->).
  rewrite Horig in Hb. injection Hb as <-.
  apply io_bind_ok in Hc as (extra & w0 & Hx & Hc).
  apply lift_ok in Hx as (Hx & ->).
  apply io_bind_ok in Hc as (r & w1 & Hrun & Hc).
  fold tmp in Hc.
  pose proof (output_path_command filepath lossy colors _ _ _ Hx) as Hop.
  destruct (subprocess_run_ok _ _ _ _ _ Hrun Hop) as (Hstd & Hframe & out & Htool & Htmp).
  fold tmp in Hframe, Htmp.
  assert (Hne : filepath <> tmp) by (intros E; symmetry in E; exact (tmp_neq _ E)).
  destruct (returncode r =? 0) eqn:Hrc; cbn [negb] in Hc.
  - (* the tool succeeded *)
    apply Z.eqb_eq in Hrc.
    apply io_bind_ok in Hc as (ns & w2 & Hns & Hc).
    apply getsize_ok in Hns as (-> & outb & Houtb & ->).
    apply io_bind_ok in Hc as (ns' & w2 & Hmv & Hc).
    apply io_bind_ok in Hc as (nd & w3 & Hnd & Hc).
    apply get_gif_dims_ok in Hnd as (-> & b' & img' & Hb' & Hdec' & ->).
    injection Hc as <- <- <- <- <- <-.
    exists orig, img, extra, r, w1.
    do 7 (split; [assumption || reflexivity|]).
    destruct (Z.of_nat (length outb) <? Z.of_nat (length orig)) eqn:Hlt.
    + apply Z.ltb_lt in Hlt.
      apply io_bind_ok in Hmv as ([] & w3 & Hmove & Hret).
      injection Hret as <- <-.
      unfold Os.move in Hmove. rewrite Houtb in Hmove. injection Hmove as <-.
      cbn in *. split; [assumption|]. right. split; [assumption|]. split; [reflexivity|].
      exists outb. split; [assumption|]. left.
      split; [assumption|]. split; [reflexivity|]. split; [reflexivity|].
      rewrite lookup_insert_eq in Hb'. injection Hb' as <-. eauto.
    + apply Z.ltb_ge in Hlt.
      apply io_bind_ok in Hmv as ([] & w3 & Hrm & Hret).
      injection Hret as <- <-.
      unfold Os.remove in Hrm. rewrite Houtb in Hrm. injection Hrm as <-.
      cbn in *. split; [assumption|]. right. split; [assumption|]. split; [reflexivity|].
      exists outb. split; [assumption|]. right.
      split; [assumption|]. split; [reflexivity|]. split; [reflexivity|].
      rewrite lookup_delete_ne in Hb' by (intros E; exact (Hne (eq_sym E))).
      rewrite (Hframe _ Hne), Horig in Hb'. injection Hb' as <-.
      rewrite Hdec in Hdec'. now injection Hdec' as <-.
  - (* the tool failed *)
    apply Z.eqb_neq in Hrc.
    apply io_bind_ok in Hc as (present & w2 & Hex & Hc).
    apply io_bind_ok in Hc as ([] & w3 & Hrm & Hc).
    injection Hc as <- <- <- <- <- <-.
    exists orig, img, extra, r, w1.
    do 7 (split; [assumption || reflexivity|]).
    assert (Hcl : stdout w3 = stdout w1 /\ files w3 = delete tmp (files w1)).
    { apply cleanup_after_failure.
      rewrite (io_bind_step _ _ _ _ _ Hex). exact Hrm. }
    destruct Hcl as [Hs2 Hf2].
    split; [congruence|]. left. auto.
Qed.

Lemma cleanup_total tmp w1 :
  exists w2,
    (present ← Os.exists_ tmp;
     if (present : bool) then Os.remove tmp else mret tt) w1 = Ok (tt, w2)
    /\ stdout w2 = stdout w1 /\ files w2 = delete tmp (files w1).
Proof.
  assert (Hex : exists w2,
    (present ← Os.exists_ tmp;
     if (present : bool) then Os.remove tmp else mret tt) w1 = Ok (tt, w2)).
  { unfold mbind, io_bind, Os.exists_. case_bool_decide as Hp.
    - destruct Hp as [x Hx]. unfold Os.remove. rewrite Hx. eauto.
    - eauto. }
  destruct Hex as [w2 Hw2]. exists w2. split; [exact Hw2|].
  exact (cleanup_after_failure _ _ _ Hw2).
Qed.

End WithTools.
End GifFacts.

(** ** [compress_gif.py]: the size guard, the failure path, the temporary file *)

Module GifClaims.
Import PyNum PyStr CompressGif GifFacts.

Section WithTools.
Context `{Pillow} `{Gifsicle}.

(** C3.  Whenever [compress_gif] returns, the size it reports is the size
    of the file it leaves, and it is at most the original size.  Either the
    original bytes are kept and the reported size is the original size, or
    the file now holds the output of a run of the tool that exited with 0,
    and that output is strictly smaller than the original.  In particular
    an output that is larger than or as large as the original is never
    promoted. *)
Theorem compress_gif_never_grows filepath max_width lossy colors w
    old_size new_size old_dims new_dims err w' :
  compress_gif filepath max_width lossy colors w
    = Ok ((old_size, new_size, old_dims, new_dims, err), w') ->
  exists orig final,
    files w !! filepath = Some orig /\ old_size = Z.of_nat (length orig) /\
    files w' !! filepath = Some final /\ new_size = Z.of_nat (length final) /\
    new_size <= old_size /\
    ((final = orig /\ new_size = old_size)
     \/
     (new_size < old_size /\ err = None /\
      exists extra r w1,
        subprocess_run (command filepath lossy colors extra) w = Ok (r, w1) /\
        returncode r = 0 /\ files w1 !! (filepath +:+ ".tmp") = Some final)) /\
    (forall extra r w1 out,
        resize_args old_dims max_width = Ok extra ->
        subprocess_run (command filepath lossy colors extra) w = Ok (r, w1) ->
        files w1 !! (filepath +:+ ".tmp") = Some out ->
        old_size <= Z.of_nat (length out) ->
        final = orig /\ new_size = old_size).
Proof.
  intros Hc.
  destruct (compress_gif_inv _ _ _ _ _ _ _ _ _ _ _ Hc)
    as (orig & img & extra & r & w1 & Horig & Hdec & Hos & Hod & Hx & Hrun
        & Hframe & Hstd & Hcases).
  set (tmp := filepath +:+ ".tmp") in *.
  assert (Hne : filepath <> tmp) by (intros E; symmetry in E; exact (tmp_neq _ E)).
  assert (Hkept : files w' = delete tmp (files w1) -> files w' !! filepath = Some orig).
  { intros ->. rewrite lookup_delete_ne by (intros E; exact (Hne (eq_sym E))).
    now rewrite (Hframe _ Hne). }
  destruct Hcases as [(Hrc & Hns & Hnd & Herr & Hf)
                     |(Hrc & Herr & out & Hout & [(Hlt & Hns & Hf & Himg)|(Hge & Hns & Hf & Hnd)])].
  - exists orig, orig. repeat split; auto; try lia.
  - exists orig, out. subst new_size.
    split; [assumption|]. split; [assumption|].
    split; [rewrite Hf; apply lookup_insert_eq|]. split; [reflexivity|].
    split; [lia|]. split.
    + right. split; [assumption|]. split; [assumption|]. exists extra, r, w1. auto.
    + intros extra' r' w1' out' Hx' Hrun' Hout' Hge.
      rewrite Hx in Hx'. injection Hx' as <-.
      rewrite Hrun in Hrun'. injection Hrun' as <- <-.
      rewrite Hout in Hout'. injection Hout' as <-. lia.
  - exists orig, orig. repeat split; auto; try lia.
Qed.

(** C5.  Whenever [compress_gif] returns, no file is left at the temporary
    path [filepath + ".tmp"].  The temporary file was either moved over the
    original, which happens only when the tool exited with 0 and its output
    is strictly smaller, or deleted, which is what happens when the tool
    failed and when its output is not smaller. *)
Theorem tmp_never_persists filepath max_width lossy colors w
    old_size new_size old_dims new_dims err w' :
  compress_gif filepath max_width lossy colors w
    = Ok ((old_size, new_size, old_dims, new_dims, err), w') ->
  let tmp := filepath +:+ ".tmp" in
  files w' !! tmp = None /\
  exists extra r w1,
    subprocess_run (command filepath lossy colors extra) w = Ok (r, w1) /\
    ((returncode r = 0 /\
      exists out, files w1 !! tmp = Some out /\ Z.of_nat (length out) < old_size /\
        files w' = <[filepath := out]> (delete tmp (files w1)))
     \/
     ((returncode r <> 0 \/
       exists out, files w1 !! tmp = Some out /\ old_size <= Z.of_nat (length out)) /\
      files w' = delete tmp (files w1))).
Proof.
  intros Hc tmp.
  destruct (compress_gif_inv _ _ _ _ _ _ _ _ _ _ _ Hc)
    as (orig & img & extra & r & w1 & Horig & Hdec & Hos & Hod & Hx & Hrun
        & Hframe & Hstd & Hcases).
  fold tmp in Hframe, Hcases.
  assert (Hne : filepath <> tmp) by (intros E; symmetry in E; exact (tmp_neq _ E)).
  destruct Hcases as [(Hrc & Hns & Hnd & Herr & Hf)
                     |(Hrc & Herr & out & Hout & [(Hlt & Hns & Hf & Himg)|(Hge & Hns & Hf & Hnd)])].
  - split; [rewrite Hf; apply lookup_delete_eq|].
    exists extra, r, w1. split; [assumption|]. right. auto.
  - split; [rewrite Hf, lookup_insert_ne by assumption; apply lookup_delete_eq|].
    exists extra, r, w1. split; [assumption|]. left. split; [assumption|].
    exists out. auto.
  - split; [rewrite Hf; apply lookup_delete_eq|].
    exists extra, r, w1. split; [assumption|]. right. split; [|assumption].
    right. exists out. auto.
Qed.


End WithTools.
End GifClaims.

(** *** The three theorems on a concrete directory *)

Module GifWitness.
Import PyNum PyStr CompressGif GifClaims Toy.

Lemma compress_gif_never_grows_witness :
  @compress_gif toy_pillow (scripted 0 "" (Some small)) "a.gif" 800 80 128
    (dir1 "a.gif" big)
  = Ok ((307, 27, (1600, 1000), (800, 500), None), dir1 "a.gif" small)
  /\ exists orig final,
      files (dir1 "a.gif" big) !! "a.gif" = Some orig /\
      files (dir1 "a.gif" small) !! "a.gif" = Some final /\
      Z.of_nat (length final) <= Z.of_nat (length orig).
Proof.
  assert (Hrun : @compress_gif toy_pillow (scripted 0 "" (Some small)) "a.gif" 800 80 128
                   (dir1 "a.gif" big)
                 = Ok ((307, 27, (1600, 1000), (800, 500), None), dir1 "a.gif" small))
    by (vm_compute; reflexivity).
  split; [exact Hrun|].
  destruct (compress_gif_never_grows (H := toy_pillow)
              (H0 := scripted 0 "" (Some small)) _ _ _ _ _ _ _ _ _ _ _ Hrun)
    as (orig & final & Ho & Hos & Hf & Hns & Hle & _).
  exists orig, final. rewrite <- Hos, <- Hns. auto.
Defined.

Lemma tmp_never_persists_witness :
  @compress_gif toy_pillow (scripted 0 "" (Some bigger)) "a.gif" 800 80 128
    (dir1 "a.gif" big)
  = Ok ((307, 307, (1600, 1000), (1600, 1000), None), dir1 "a.gif" big)
  /\ files (dir1 "a.gif" big) !! "a.gif.tmp" = None.
Proof.
  assert (Hrun : @compress_gif toy_pillow (scripted 0 "" (Some bigger)) "a.gif" 800 80 128
                   (dir1 "a.gif" big)
                 = Ok ((307, 307, (1600, 1000), (1600, 1000), None), dir1 "a.gif" big))
    by (vm_compute; reflexivity).
  split; [exact Hrun|].
  exact (proj1 (tmp_never_persists (H := toy_pillow)
                  (H0 := scripted 0 "" (Some bigger)) _ _ _ _ _ _ _ _ _ _ _ Hrun)).
Defined.


End GifWitness.

(** ** [image_info.py]: frames, durations and unreadable files *)

Module InfoClaims.
Import PyNum PyStr ImageInfo.

Section WithPillow.
Context `{Pillow}.

Lemma seek_at_frame d t k :
  PIL.seek (PIL.at_frame d t) k
  = if (k <? PIL.n_frames d)%nat then Ok (PIL.at_frame d k) else Raise EOFError.
Proof. reflexivity. Qed.

(** From frame [t], the loop adds one to the count for each remaining
    frame and stops on the last frame; [fuel] iterations are enough when
    [fuel] is at least the number of remaining frames. *)
Lemma count_frames_from d (fuel t : nat) (frames : Z) :
  (t < PIL.n_frames d)%nat ->
  (PIL.n_frames d - t <= fuel)%nat ->
  count_frames fuel (PIL.at_frame d t) frames
  = Some (Ok (PIL.at_frame d (PIL.n_frames d - 1),
              frames + Z.of_nat (PIL.n_frames d - t))).
Proof.
  revert t frames. induction fuel as [|fuel IH]; intros t frames Ht Hfuel.
  - lia.
  - cbn [count_frames]. cbn [tell PIL.at_frame]. rewrite seek_at_frame.
    destruct (t + 1 <? PIL.n_frames d)%nat eqn:Hnext.
    + apply Nat.ltb_lt in Hnext.
      rewrite IH by lia. do 3 f_equal. lia.
    + apply Nat.ltb_ge in Hnext.
      replace t with (PIL.n_frames d - 1)%nat at 1 by lia.
      do 3 f_equal. lia.
Qed.

(** C9.  On a file that Pillow can read, [get_gif_info] returns the number
    of frames of the image, counted by seeking one frame further until
    [EOFError], and the ["duration"] entry of the metadata the image shows
    when the loop ends (that of its last frame), or 0 when there is no such
    entry.  It changes nothing in the directory. *)
Theorem get_gif_info_counts_frames filepath w b d :
  files w !! filepath = Some b ->
  decode b = Some d ->
  get_gif_info filepath w
  = Ok ((Z.of_nat (PIL.n_frames d),
         default 0 (PIL.info (PIL.at_frame d (PIL.n_frames d - 1)) !! "duration")), w).
Proof.
  intros Hb Hdec. unfold get_gif_info.
  rewrite (io_bind_step _ _ _ _ _ (open_decoded _ _ _ _ Hb Hdec)).
  cbn beta.
  change (mkImage (width d) (height d) (mode d) (frame0 d) (more_frames d) 0 (raster d))
    with (PIL.at_frame d 0).
  change (PIL.n_frames (PIL.at_frame d 0)) with (PIL.n_frames d).
  rewrite count_frames_from by (unfold PIL.n_frames; lia).
  cbn. rewrite Nat.sub_0_r. reflexivity.
Qed.

(** The dimension probe does not raise. *)
Lemma probe_dims_total path w :
  exists s, probe_dims path w = Ok (s, w).
Proof.
  unfold probe_dims, try_except.
  destruct ((PIL.open path ≫= _) w) as [[s w1]|e] eqn:Hp.
  - apply io_bind_ok in Hp as (img & w2 & Hopen & Hret).
    apply open_ok in Hopen as (-> & _). injection Hret as <- <-. eauto.
  - eauto.
Qed.

Lemma probe_dims_unreadable path w b :
  files w !! path = Some b -> decode b = None ->
  probe_dims path w = Ok ("N/A", w).
Proof.
  intros Hb Hdec. unfold probe_dims, try_except.
  rewrite (io_bind_raise _ _ _ _ (open_unreadable _ _ _ Hb Hdec)). reflexivity.
Qed.

(** The guarded path: an unreadable file whose name does not end in
    [.gif] gets a row with ["N/A"], its size is added to the total and the
    loop goes on. *)
Lemma unreadable_other_reported f fs' total w b hs :
  files w !! f = Some b -> decode b = None ->
  endswith (lower f) ".gif" = false ->
  human_size (Z.of_nat (length b)) = Ok hs ->
  loop (f :: fs') total w
  = loop fs' (total + Z.of_nat (length b))
      (World (files w)
         (stdout w ++ [ljust f 45 +:+ " " +:+ rjust hs 10 +:+ " "
                       +:+ rjust "N/A" 14 +:+ " " +:+ ""])%list).
Proof.
  intros Hb Hdec Hgif Hhs. cbn [loop].
  rewrite (io_bind_step _ _ _ _ _ (getsize_found _ _ _ Hb)).
  rewrite (io_bind_step _ _ _ _ _ (probe_dims_unreadable _ _ _ Hb Hdec)).
  rewrite Hgif.
  unfold mbind at 1, io_bind at 1, mret at 1, io_ret at 1.
  rewrite (io_bind_step (lift (human_size (Z.of_nat (length b)))) _ w hs w)
    by (unfold lift; now rewrite Hhs).
  reflexivity.
Qed.

(** C2, the unguarded path.  On an unreadable file whose name ends in
    [.gif], the dimension probe gives ["N/A"] but [get_gif_info] opens the
    file again outside any [try]: the loop raises, no row is printed for the
    file and no total is printed. *)
Theorem unreadable_gif_aborts_report f fs' total w b :
  files w !! f = Some b -> decode b = None ->
  endswith (lower f) ".gif" = true ->
  probe_dims f w = Ok ("N/A", w) /\
  get_gif_info f w = Raise UnidentifiedImageError /\
  loop (f :: fs') total w = Raise UnidentifiedImageError.
Proof.
  intros Hb Hdec Hgif.
  assert (Hinfo : get_gif_info f w = Raise UnidentifiedImageError).
  { unfold get_gif_info.
    now rewrite (io_bind_raise _ _ _ _ (open_unreadable _ _ _ Hb Hdec)). }
  split; [exact (probe_dims_unreadable _ _ _ Hb Hdec)|]. split; [exact Hinfo|].
  cbn [loop].
  rewrite (io_bind_step _ _ _ _ _ (getsize_found _ _ _ Hb)).
  rewrite (io_bind_step _ _ _ _ _ (probe_dims_unreadable _ _ _ Hb Hdec)).
  rewrite Hgif.
  apply io_bind_raise. apply io_bind_raise. exact Hinfo.
Qed.

End WithPillow.
End InfoClaims.

Module InfoWitness.
Import PyNum PyStr ImageInfo InfoClaims Toy.

Lemma get_gif_info_counts_frames_witness :
  let b := toy_file 1600 1000 3 49 4 300 in
  let d := mkImage 1600 1000 "P" {[ "duration" := 40 ]}
             (replicate 49 {[ "duration" := 40 ]}) 0 tt in
  files (dir1 "a.gif" b) !! "a.gif" = Some b /\
  toy_decode b = Some d /\
  @get_gif_info toy_pillow "a.gif" (dir1 "a.gif" b) = Ok ((50, 40), dir1 "a.gif" b).
Proof.
  intros b d.
  assert (H1 : files (dir1 "a.gif" b) !! "a.gif" = Some b) by (vm_compute; reflexivity).
  assert (H2 : toy_decode b = Some d) by (vm_compute; reflexivity).
  split; [exact H1|]. split; [exact H2|].
  exact (get_gif_info_counts_frames (H := toy_pillow) "a.gif" _ b d H1 H2).
Defined.

(** The failing directory: one file, [a.gif], that is not an image *)
Lemma unreadable_gif_aborts_report_witness :
  let w := dir1 "a.gif" [] in
  files w !! "a.gif" = Some [] /\
  toy_decode [] = None /\
  endswith (lower "a.gif") ".gif" = true /\
  @loop toy_pillow ["a.gif"] 0 w = Raise UnidentifiedImageError /\
  @main toy_pillow w = Raise UnidentifiedImageError.
Proof.
  intros w.
  assert (H1 : files w !! "a.gif" = Some []) by (vm_compute; reflexivity).
  split; [exact H1|]. split; [reflexivity|]. split; [reflexivity|].
  split.
  - exact (proj2 (proj2 (unreadable_gif_aborts_report (H := toy_pillow)
                           "a.gif" [] 0 w [] H1 eq_refl eq_refl))).
  - vm_compute. reflexivity.
Defined.

(** The same content under a name that does not end in [.gif] is reported
    and the run completes. *)
Example unreadable_svg_reported :
  exists out,
    @main toy_pillow (dir1 "a.svg" [Byte.x3c; Byte.x73]) = Ok (tt, World {[ "a.svg" := [Byte.x3c; Byte.x73] ]} out)
    /\ out !! 2%nat = Some (ljust "a.svg" 45 +:+ " " +:+ rjust "2.0 B" 10 +:+ " "
                            +:+ rjust "N/A" 14 +:+ " ")
    /\ out !! 4%nat = Some (ljust "Total" 45 +:+ " " +:+ rjust "2.0 B" 10).
Proof. eexists. vm_compute. repeat split. Qed.

End InfoWitness.

(** ** [compress_png.py]: overwriting, the JPEG branch *)

Module PngClaims.
Import PyNum PyStr CompressPng StatementDefs.

Section WithPillow.
Context `{Pillow}.

Lemma lift_step {A} (r : result A) (a : A) w :
  r = Ok a -> lift r w = Ok (a, w).
Proof. intros ->. reflexivity. Qed.

Lemma resize_keeps_mode img w h img' :
  PIL.resize img w h = Ok img' -> mode img' = mode img.
Proof.
  unfold PIL.resize. destruct ((w <=? 0) || (h <=? 0)); [discriminate|].
  intros [= <-]. reflexivity.
Qed.

Lemma resize_if_wider_keeps_mode img max_width img' :
  resize_if_wider img max_width = Ok img' -> mode img' = mode img.
Proof.
  unfold resize_if_wider. destruct (max_width <? width img).
  - destruct (Resize.scaled_height _ _ _) as [h|e]; [|discriminate].
    apply resize_keeps_mode.
  - intros [= <-]. reflexivity.
Qed.

Lemma save_png_writes img path b w :
  encode_png img = Ok b ->
  PIL.save_png img path w = Ok (tt, set_files w (<[path := b]> (files w))).
Proof.
  intros Hb. unfold PIL.save_png.
  rewrite (io_bind_step _ _ _ _ _ (lift_step _ _ w Hb)). reflexivity.
Qed.

Lemma save_jpeg_writes img path quality b w :
  encode_jpeg img quality = Ok b ->
  PIL.save_jpeg img path quality w = Ok (tt, set_files w (<[path := b]> (files w))).
Proof.
  intros Hb. unfold PIL.save_jpeg.
  rewrite (io_bind_step _ _ _ _ _ (lift_step _ _ w Hb)). reflexivity.
Qed.

Lemma jpeg_input_dims img :
  (width (jpeg_input img), height (jpeg_input img)) = (width img, height img).
Proof. unfold jpeg_input. destruct (String.eqb _ _); reflexivity. Qed.

Lemma save_by_ext_writes filepath quality img1 b w :
  encoded filepath quality img1 b ->
  exists img2,
    save_by_ext img1 filepath quality w
    = Ok (img2, set_files w (<[filepath := b]> (files w)))
    /\ (width img2, height img2) = (width img1, height img1).
Proof.
  unfold encoded, save_by_ext.
  intros [[-> Hb] | [[-> | ->] Hb]]; cbn [String.eqb Ascii.eqb Bool.eqb orb].
  - exists img1. rewrite (io_bind_step _ _ _ _ _ (save_png_writes _ _ _ w Hb)). auto.
  - exists (jpeg_input img1).
    rewrite (io_bind_step _ _ _ _ _ (save_jpeg_writes _ _ _ _ w Hb)).
    split; [reflexivity | apply jpeg_input_dims].
  - exists (jpeg_input img1).
    rewrite (io_bind_step _ _ _ _ _ (save_jpeg_writes _ _ _ _ w Hb)).
    split; [reflexivity | apply jpeg_input_dims].
Qed.

(** A call of [compress_image] on a readable file with one of the three
    extensions *)
Lemma compress_image_run filepath max_width quality w orig d img1 b :
  files w !! filepath = Some orig ->
  decode orig = Some d ->
  resize_if_wider (PIL.at_frame d 0) max_width = Ok img1 ->
  encoded filepath quality img1 b ->
  compress_image filepath max_width quality w
  = Ok ((Z.of_nat (length orig), Z.of_nat (length b),
         (width d, height d), (width img1, height img1)),
        set_files w (<[filepath := b]> (files w))).
Proof.
  intros Horig Hdec Hres Henc. unfold compress_image.
  rewrite (io_bind_step _ _ _ _ _ (getsize_found _ _ _ Horig)).
  rewrite (io_bind_step _ _ _ _ _ (open_decoded _ _ _ _ Horig Hdec)).
  cbn beta zeta.
  rewrite (io_bind_step _ _ _ _ _ (lift_step _ _ w Hres)).
  destruct (save_by_ext_writes filepath quality img1 b w Henc) as (img2 & Hsave & Hdims).
  rewrite (io_bind_step _ _ _ _ _ Hsave).
  rewrite (io_bind_step (Os.getsize filepath) _ _ (Z.of_nat (length b))
             (set_files w (<[filepath := b]> (files w))))
    by (apply getsize_found; cbn; apply lookup_insert_eq).
  cbn. injection Hdims as -> ->. reflexivity.
Qed.

End WithPillow.

(** C8.  On a readable PNG, JPG or JPEG file, [compress_image] writes what
    the encoder produced over the source file and reports its length as the
    new size, whatever the original size was: no comparison is made.  The
    new size can exceed the old one: it does for the given 10-byte file. *)
Theorem compress_image_overwrites :
  (forall (P : Pillow) filepath max_width quality w orig d img1 b,
      files w !! filepath = Some orig ->
      decode orig = Some d ->
      resize_if_wider (PIL.at_frame d 0) max_width = Ok img1 ->
      encoded filepath quality img1 b ->
      exists w',
        compress_image filepath max_width quality w
        = Ok ((Z.of_nat (length orig), Z.of_nat (length b),
               (width d, height d), (width img1, height img1)), w')
        /\ files w' !! filepath = Some b
        /\ (forall p, p <> filepath -> files w' !! p = files w !! p))
  /\
  (exists old_size new_size old_d new_d w',
      @compress_image Toy.toy_pillow "a.jpg" 1200 85
        (Toy.dir1 "a.jpg" (Toy.toy_file 640 480 0 0 0 3))
      = Ok ((old_size, new_size, old_d, new_d), w')
      /\ old_size < new_size).
Proof.
  split.
  - intros P filepath max_width quality w orig d img1 b Horig Hdec Hres Henc.
    eexists. split; [exact (compress_image_run _ _ _ _ _ _ _ _ Horig Hdec Hres Henc)|].
    cbn. split; [apply lookup_insert_eq|].
    intros p Hp. now apply lookup_insert_ne.
  - do 5 eexists. split; [vm_compute; reflexivity|]. reflexivity.
Qed.

Section JpegBranch.
Context `{Pillow}.

(** The guarded mode.  On a readable [.jpg] or [.jpeg] file whose image
    has mode ["RGBA"], the image handed to the JPEG encoder is the
    conversion to ["RGB"] of the (possibly downscaled) image, and the file is
    overwritten with its encoding at the given quality. *)
Theorem jpeg_converts_rgba filepath max_width quality w orig d img1 b :
  files w !! filepath = Some orig ->
  decode orig = Some d ->
  lower (splitext filepath).2 = ".jpg" \/ lower (splitext filepath).2 = ".jpeg" ->
  mode d = "RGBA" ->
  resize_if_wider (PIL.at_frame d 0) max_width = Ok img1 ->
  encode_jpeg (PIL.convert img1 "RGB") quality = Ok b ->
  jpeg_input img1 = PIL.convert img1 "RGB" /\
  mode (jpeg_input img1) = "RGB" /\
  compress_image filepath max_width quality w
  = Ok ((Z.of_nat (length orig), Z.of_nat (length b),
         (width d, height d), (width img1, height img1)),
        set_files w (<[filepath := b]> (files w))).
Proof.
  intros Horig Hdec Hext Hmode Hres Henc.
  assert (Hin : jpeg_input img1 = PIL.convert img1 "RGB").
  { unfold jpeg_input. rewrite (resize_if_wider_keeps_mode _ _ _ Hres).
    cbn [mode PIL.at_frame]. rewrite Hmode. reflexivity. }
  split; [exact Hin|]. split; [rewrite Hin; reflexivity|].
  apply (compress_image_run _ _ _ _ _ _ _ _ Horig Hdec Hres).
  right. split; [exact Hext|]. rewrite Hin. exact Henc.
Qed.

(** C6, the unguarded modes.  The test before the JPEG encoder is
    [img.mode == "RGBA"].  An image that carries alpha in another mode, grey
    with alpha (["LA"]) or a palette with transparency (["P"]), is handed to
    the encoder as it is; the JPEG writer refuses it, the exception leaves
    [compress_image] and, nothing guarding the call, [main]: the file is not
    re-encoded, no row is printed for it and no total is printed. *)
Theorem unconverted_alpha_aborts_jpeg filepath max_width quality w orig d img1
    fs' totals :
  files w !! filepath = Some orig ->
  decode orig = Some d ->
  lower (splitext filepath).2 = ".jpg" \/ lower (splitext filepath).2 = ".jpeg" ->
  Spec.carries_alpha d = true ->
  mode d <> "RGBA" ->
  resize_if_wider (PIL.at_frame d 0) max_width = Ok img1 ->
  jpeg_writer_refuses ->
  (mode d = "LA" \/ mode d = "P") /\
  jpeg_input img1 = img1 /\
  mode (jpeg_input img1) = mode d /\
  compress_image filepath max_width quality w = Raise (jpeg_mode_error (mode d)) /\
  loop (filepath :: fs') max_width quality totals w = Raise (jpeg_mode_error (mode d)).
Proof.
  intros Horig Hdec Hext Halpha Hnot Hres Hrefuses.
  assert (Hmode : mode d = "LA" \/ mode d = "P").
  { unfold Spec.carries_alpha in Halpha.
    destruct (String.eqb_spec (mode d) "RGBA") as [|_]; [contradiction|].
    destruct (String.eqb_spec (mode d) "LA") as [|_]; [now left|].
    destruct (String.eqb_spec (mode d) "P") as [|_]; [now right|].
    discriminate. }
  assert (Hkeep : mode img1 = mode d)
    by exact (resize_if_wider_keeps_mode _ _ _ Hres).
  assert (Hin : jpeg_input img1 = img1).
  { unfold jpeg_input. rewrite Hkeep.
    destruct (String.eqb_spec (mode d) "RGBA") as [|_]; [contradiction | reflexivity]. }
  assert (Hunwritable : jpeg_writable (mode img1) = false)
    by (rewrite Hkeep; destruct Hmode as [-> | ->]; reflexivity).
  assert (Hsave : save_by_ext img1 filepath quality w = Raise (jpeg_mode_error (mode d))).
  { unfold save_by_ext.
    assert (Hjpeg : String.eqb (lower (splitext filepath).2) ".png" = false /\
                    String.eqb (lower (splitext filepath).2) ".jpg"
                    || String.eqb (lower (splitext filepath).2) ".jpeg" = true)
      by (destruct Hext as [-> | ->]; split; reflexivity).
    destruct Hjpeg as [-> ->]. rewrite Hin.
    apply io_bind_raise. unfold PIL.save_jpeg. apply io_bind_raise.
    unfold lift. rewrite (Hrefuses img1 quality Hunwritable), Hkeep. reflexivity. }
  assert (Hcall : compress_image filepath max_width quality w
                  = Raise (jpeg_mode_error (mode d))).
  { unfold compress_image.
    rewrite (io_bind_step _ _ _ _ _ (getsize_found _ _ _ Horig)).
    rewrite (io_bind_step _ _ _ _ _ (open_decoded _ _ _ _ Horig Hdec)).
    cbn beta zeta.
    rewrite (io_bind_step _ _ _ _ _ (lift_step _ _ w Hres)).
    now apply io_bind_raise. }
  split; [exact Hmode|]. split; [exact Hin|]. split; [now rewrite Hin|].
  split; [exact Hcall|]. cbn [loop]. now apply io_bind_raise.
Qed.

End JpegBranch.
End PngClaims.

Module PngWitness.
Import PyNum PyStr CompressPng StatementDefs PngClaims Toy.

Lemma compress_image_overwrites_witness :
  let orig := toy_file 640 480 0 0 0 3 in
  let d := mkImage 640 480 "RGB" ∅ [] 0 tt in
  let w := dir1 "a.jpg" orig in
  let b := toy_file 640 480 0 0 0 85 in
  files w !! "a.jpg" = Some orig /\
  toy_decode orig = Some d /\
  @resize_if_wider toy_pillow d 1200 = Ok d /\
  @encoded toy_pillow "a.jpg" 85 d (toy_header d ++ replicate 85 Byte.x00)%list /\
  exists w',
    @compress_image toy_pillow "a.jpg" 1200 85 w = Ok ((10, 92, (640, 480), (640, 480)), w').
Proof.
  intros orig d w b.
  assert (H1 : files w !! "a.jpg" = Some orig) by (vm_compute; reflexivity).
  assert (H2 : toy_decode orig = Some d) by (vm_compute; reflexivity).
  assert (H3 : @resize_if_wider toy_pillow d 1200 = Ok d) by reflexivity.
  assert (H4 : @encoded toy_pillow "a.jpg" 85 d (toy_header d ++ replicate 85 Byte.x00)%list).
  { right. split; [left; reflexivity | reflexivity]. }
  do 4 (split; [assumption|]).
  destruct (proj1 compress_image_overwrites toy_pillow "a.jpg" 1200 85 w orig d d _
              H1 H2 H3 H4) as (w' & Hrun & _).
  exists w'. exact Hrun.
Defined.

Lemma jpeg_converts_rgba_witness :
  let orig := toy_file 640 480 1 0 0 3 in
  let d := mkImage 640 480 "RGBA" ∅ [] 0 tt in
  let w := dir1 "a.JPEG" orig in
  files w !! "a.JPEG" = Some orig /\
  toy_decode orig = Some d /\
  lower (splitext "a.JPEG").2 = ".jpeg" /\
  mode d = "RGBA" /\
  @resize_if_wider toy_pillow d 1200 = Ok d /\
  mode (@jpeg_input toy_pillow d) = "RGB".
Proof.
  intros orig d w.
  assert (H1 : files w !! "a.JPEG" = Some orig) by (vm_compute; reflexivity).
  assert (H2 : toy_decode orig = Some d) by (vm_compute; reflexivity).
  assert (H3 : lower (splitext "a.JPEG").2 = ".jpeg") by reflexivity.
  assert (H4 : mode d = "RGBA") by reflexivity.
  assert (H5 : @resize_if_wider toy_pillow d 1200 = Ok d) by reflexivity.
  do 5 (split; [assumption|]).
  exact (proj1 (proj2 (jpeg_converts_rgba (H := toy_pillow) "a.JPEG" 1200 85 w orig d d _
                         H1 H2 (or_intror H3) H4 H5 eq_refl))).
Defined.

(** The failing directory: one file, [a.jpg], that holds a grey image with
    an alpha channel *)
Lemma unconverted_alpha_aborts_jpeg_witness :
  let orig := toy_file 640 480 2 0 0 3 in
  let la := mkImage 640 480 "LA" ∅ [] 0 tt in
  let w := dir1 "a.jpg" orig in
  files w !! "a.jpg" = Some orig /\
  toy_decode orig = Some la /\
  lower (splitext "a.jpg").2 = ".jpg" /\
  Spec.carries_alpha la = true /\
  mode la <> "RGBA" /\
  @resize_if_wider toy_pillow la 1200 = Ok la /\
  @jpeg_writer_refuses toy_pillow /\
  @jpeg_input toy_pillow la = la /\
  @compress_image toy_pillow "a.jpg" 1200 85 w
  = Raise (OSError "cannot write mode LA as JPEG") /\
  @main toy_pillow 1200 85 w = Raise (OSError "cannot write mode LA as JPEG").
Proof.
  intros orig la w.
  assert (H1 : files w !! "a.jpg" = Some orig) by (vm_compute; reflexivity).
  assert (H2 : toy_decode orig = Some la) by (vm_compute; reflexivity).
  assert (H3 : lower (splitext "a.jpg").2 = ".jpg") by reflexivity.
  assert (H4 : Spec.carries_alpha la = true) by reflexivity.
  assert (H5 : mode la <> "RGBA") by discriminate.
  assert (H6 : @resize_if_wider toy_pillow la 1200 = Ok la) by reflexivity.
  assert (H7 : @jpeg_writer_refuses toy_pillow).
  { intros img quality Hm. cbn in Hm |- *. now rewrite Hm. }
  do 7 (split; [assumption|]).
  destruct (unconverted_alpha_aborts_jpeg (H := toy_pillow) "a.jpg" 1200 85 w orig la la
              [] (0, 0) H1 H2 (or_introl H3) H4 H5 H6 H7)
    as (_ & Hin & _ & Hcall & _).
  split; [exact Hin|]. split; [exact Hcall|].
  vm_compute. reflexivity.
Defined.

(** The same image in mode ["RGBA"] is converted and the run completes;
    unconverted, it would be refused as well. *)
Example rgba_jpeg_is_reencoded :
  (exists w',
     @compress_image toy_pillow "a.jpg" 1200 85 (dir1 "a.jpg" (toy_file 640 480 1 0 0 3))
     = Ok ((10, 92, (640, 480), (640, 480)), w')) /\
  @encode_jpeg toy_pillow (mkImage 640 480 "RGBA" ∅ [] 0 tt) 85
  = Raise (OSError "cannot write mode RGBA as JPEG").
Proof. split; [vm_compute; eexists; reflexivity | reflexivity]. Qed.

End PngWitness.

(** ** The summary line of the two compressors *)

Module SummaryClaims.
Import PyNum PyStr StatementDefs.

Lemma bind_no_zero_division {A B} (r : result A) (k : A -> result B) :
  no_zero_division r -> (forall a, no_zero_division (k a)) ->
  no_zero_division (r ≫= k).
Proof.
  unfold no_zero_division. intros Hr Hk.
  destruct r as [a|e]; cbn; [apply Hk|].
  intros [= ->]. now apply Hr.
Qed.

Lemma float_of_int_no_zero_division a : no_zero_division (float_of_int a).
Proof. unfold float_of_int. destruct (is_infinite _); discriminate. Qed.

Lemma int_truediv_no_zero_division a b :
  b <> 0 -> no_zero_division (int_truediv a b).
Proof.
  intros Hb. unfold int_truediv.
  destruct (b =? 0) eqn:E; [apply Z.eqb_eq in E; contradiction|].
  destruct (is_infinite _); discriminate.
Qed.

Lemma format_num_1f_no_zero_division x : no_zero_division (format_num_1f x).
Proof.
  destruct x as [z|f]; cbn; [|discriminate].
  apply bind_no_zero_division; [apply float_of_int_no_zero_division | discriminate].
Qed.

Lemma truediv_1024_no_zero_division x : no_zero_division (truediv_int x 1024).
Proof.
  destruct x as [z|f]; unfold truediv_int.
  - apply int_truediv_no_zero_division. lia.
  - cbn. discriminate.
Qed.

(** The divisions of [human_size] are by the constant 1024. *)
Lemma human_size_from_no_zero_division units last x :
  no_zero_division (HumanSize.human_size_from units last x).
Proof.
  revert x. induction units as [|u units IH]; intros x; cbn [HumanSize.human_size_from].
  - apply bind_no_zero_division; [apply format_num_1f_no_zero_division | discriminate].
  - destruct (lt_int x 1024).
    + apply bind_no_zero_division; [apply format_num_1f_no_zero_division | discriminate].
    + apply bind_no_zero_division; [apply truediv_1024_no_zero_division|].
      intros f. apply IH.
Qed.

Lemma pct_no_zero_division total_old saved_total :
  no_zero_division (Summary.pct total_old saved_total).
Proof.
  unfold Summary.pct. destruct (total_old =? 0) eqn:E; [discriminate|].
  apply Z.eqb_neq in E.
  apply bind_no_zero_division; [now apply int_truediv_no_zero_division|].
  intros q. apply bind_no_zero_division; [apply float_of_int_no_zero_division|].
  discriminate.
Qed.

(** C10.  The percentage of the summary line is the integer 0 when
    [total_old] is zero, and [(total_old - total_new) / total_old * 100]
    otherwise; the division is only reached with a non-zero divisor, so
    neither the percentage nor the summary line of either compressor raises
    [ZeroDivisionError].  With both totals at zero the line reads
    ["(0.0% saved)"]. *)
Theorem summary_never_divides_by_zero total_old total_new :
  let saved_total := total_old - total_new in
  Summary.pct total_old saved_total
  = (if total_old =? 0 then Ok (PInt 0)
     else q ← int_truediv saved_total total_old; Ok (PFloat (fmul q hundred)))
  /\ no_zero_division (Summary.pct total_old saved_total)
  /\ no_zero_division (CompressPng.total_line total_old total_new)
  /\ no_zero_division (CompressGif.total_line total_old total_new)
  /\ Summary.pct 0 (0 - total_new) = Ok (PInt 0)
  /\ CompressPng.total_line 0 0
     = Ok (ljust "Total" 35 +:+ " " +:+ rjust "0.0 B" 10 +:+ " " +:+ rjust "0.0 B" 10
           +:+ " " +:+ rjust "0.0 B" 10 +:+ " (0.0% saved)")
  /\ CompressGif.total_line 0 0
     = Ok (ljust "Total" 45 +:+ " " +:+ rjust "0.0 B" 10 +:+ " " +:+ rjust "0.0 B" 10
           +:+ " " +:+ rjust "0.0 B" 10 +:+ " (0.0% saved)").
Proof.
  intros saved_total.
  split.
  { unfold Summary.pct. destruct (total_old =? 0); [reflexivity|].
    destruct (int_truediv saved_total total_old); reflexivity. }
  split; [apply pct_no_zero_division|].
  assert (Hline : forall n : nat,
    no_zero_division
      (pct ← Summary.pct total_old (total_old - total_new);
       a ← CompressPng.human_size total_old;
       b ← CompressPng.human_size total_new;
       c ← CompressPng.human_size (total_old - total_new);
       p ← format_num_1f pct;
       Ok (ljust "Total" n +:+ " " +:+ rjust a 10 +:+ " " +:+ rjust b 10 +:+ " "
           +:+ rjust c 10 +:+ " (" +:+ p +:+ "% saved)"))).
  { intros n.
    apply bind_no_zero_division; [apply pct_no_zero_division|]. intros pct.
    do 3 (apply bind_no_zero_division;
          [apply human_size_from_no_zero_division|]; intros ?).
    apply bind_no_zero_division; [apply format_num_1f_no_zero_division|].
    discriminate. }
  split; [exact (Hline 35%nat)|]. split; [exact (Hline 45%nat)|].
  split; [reflexivity|]. split; vm_compute; reflexivity.
Qed.

End SummaryClaims.

(** ** The proportional height: truncated, not rounded *)

Module ResizeClaims.
Import PyNum PyStr StatementDefs.

Lemma int_of_float_truncates f z :
  int_of_float f = Ok z -> truncation_of f z.
Proof.
  destruct f as [s|s| |s m e]; cbn [int_of_float truncation_of]; try discriminate.
  - now intros [= <-].
  - intros [= <-].
    assert (Hsign : forall a, 0 <= a ->
              (if s then (if s then - a else a) <= 0 else 0 <= (if s then - a else a))
              /\ Z.abs (if s then - a else a) = a).
    { intros a Ha. destruct s; lia. }
    destruct e as [|k|k].
    + cbn [Z.max Z.opp Z.compare]. rewrite Z.shiftl_0_r.
      destruct (Hsign (Zpos m)) as [Hs ->]; [lia|].
      split; [exact Hs|]. change (2 ^ Z.max 0 (- 0)) with 1.
      change (2 ^ Z.max 0 0) with 1. lia.
    + rewrite Z.shiftl_mul_pow2 by lia.
      assert (Hp : 0 < 2 ^ Zpos k) by (apply Z.pow_pos_nonneg; lia).
      destruct (Hsign (Zpos m * 2 ^ Zpos k)) as [Hs ->]; [nia|].
      split; [exact Hs|].
      replace (Z.max 0 (- Zpos k)) with 0 by lia.
      replace (Z.max 0 (Zpos k)) with (Zpos k) by lia.
      change (2 ^ 0) with 1. lia.
    + rewrite Z.shiftr_div_pow2 by lia.
      assert (Hp : 0 < 2 ^ Zpos k) by (apply Z.pow_pos_nonneg; lia).
      pose proof (Z.div_pos (Zpos m) (2 ^ Zpos k) ltac:(lia) Hp) as Hq.
      destruct (Hsign (Zpos m / 2 ^ Zpos k) Hq) as [Hs ->].
      split; [exact Hs|].
      replace (Z.max 0 (- Zneg k)) with (Zpos k) by lia.
      replace (Z.max 0 (Zneg k)) with 0 by lia.
      change (2 ^ 0) with 1.
      pose proof (Z.mul_div_le (Zpos m) (2 ^ Zpos k) Hp).
      pose proof (Z.mul_succ_div_gt (Zpos m) (2 ^ Zpos k) Hp).
      lia.
Qed.

Lemma scaled_height_steps max_width w h new_h :
  Resize.scaled_height max_width w h = Ok new_h ->
  exists ratio x,
    int_truediv max_width w = Ok ratio /\
    int_mul_float h ratio = Ok x /\
    int_of_float x = Ok new_h.
Proof.
  unfold Resize.scaled_height.
  destruct (int_truediv max_width w) as [ratio|e] eqn:Hr; cbn; [|discriminate].
  destruct (int_mul_float h ratio) as [x|e] eqn:Hx; cbn; [|discriminate].
  intros Hi. exists ratio, x. auto.
Qed.

(** C1, as the code has it.  An image whose width is at most the bound
    is not resized by either compressor.  For a wider image, both compute
    [ratio = max_width / width] and [new_h = int(height * ratio)]: the
    double product with its fraction dropped, toward zero.  The PNG/JPG
    compressor resizes to [(max_width, new_h)]; the GIF compressor passes
    [--resize={max_width}x{new_h}]. *)
Theorem new_height_is_truncated `{Pillow} (img : Image pixels) (max_width : Z) :
  (width img <= max_width ->
   CompressPng.resize_if_wider img max_width = Ok img /\
   CompressGif.resize_args (width img, height img) max_width = Ok [])
  /\
  (max_width < width img ->
   forall new_h,
     Resize.scaled_height max_width (width img) (height img) = Ok new_h ->
     (exists ratio x,
         int_truediv max_width (width img) = Ok ratio /\
         int_mul_float (height img) ratio = Ok x /\
         int_of_float x = Ok new_h /\
         truncation_of x new_h) /\
     CompressPng.resize_if_wider img max_width = PIL.resize img max_width new_h /\
     CompressGif.resize_args (width img, height img) max_width
     = Ok ["--resize=" +:+ str_of_int max_width +:+ "x" +:+ str_of_int new_h]).
Proof.
  split.
  - intros Hle. unfold CompressPng.resize_if_wider, CompressGif.resize_args.
    cbn [fst snd].
    destruct (max_width <? width img) eqn:E; [apply Z.ltb_lt in E; lia|]. auto.
  - intros Hlt new_h Hh.
    apply Z.ltb_lt in Hlt. split.
    + destruct (scaled_height_steps _ _ _ _ Hh) as (ratio & x & Hr & Hx & Hi).
      exists ratio, x. do 3 (split; [assumption|]).
      now apply int_of_float_truncates.
    + unfold CompressPng.resize_if_wider, CompressGif.resize_args. cbn [fst snd].
      rewrite Hlt, Hh. auto.
Qed.

End ResizeClaims.

Module ResizeWitness.
Import PyNum PyStr StatementDefs ResizeClaims Toy.

Lemma new_height_is_truncated_witness :
  let img := mkImage 1500 1000 "RGB" ∅ [] 0 tt in
  1000 < width img /\
  Resize.scaled_height 1000 (width img) (height img) = Ok 666 /\
  @CompressPng.resize_if_wider toy_pillow img 1000 = @PIL.resize toy_pillow img 1000 666 /\
  CompressGif.resize_args (1500, 1000) 1000 = Ok ["--resize=1000x666"].
Proof.
  intros img.
  assert (H1 : 1000 < width img) by (cbn; lia).
  assert (H2 : Resize.scaled_height 1000 (width img) (height img) = Ok 666)
    by (vm_compute; reflexivity).
  split; [exact H1|]. split; [exact H2|].
  exact (proj2 (proj2 (@new_height_is_truncated toy_pillow img 1000) H1 666 H2)).
Defined.

(** C1 as stated fails on a 1500x1000 image with the bound 1000: the exact
    height 666.67 rounds to 667, and both compressors use 666. *)
Lemma height_is_not_rounded :
  let img := mkImage 1500 1000 "RGB" ∅ [] 0 tt in
  Spec.rounded_height 1000 1500 1000 = 667 /\
  Resize.scaled_height 1000 1500 1000 = Ok 666 /\
  (exists img', @CompressPng.resize_if_wider toy_pillow img 1000 = Ok img'
                /\ width img' = 1000 /\ height img' = 666
                /\ height img' <> Spec.rounded_height 1000 (width img) (height img)) /\
  CompressGif.resize_args (1500, 1000) 1000 = Ok ["--resize=1000x666"].
Proof.
  intros img. split; [reflexivity|]. split; [vm_compute; reflexivity|]. split.
  - eexists. split; [vm_compute; reflexivity|]. cbn. repeat split. discriminate.
  - vm_compute. reflexivity.
Qed.

(** The example of the specification: 2000x1000 at the bound 1000 gives
    1000x500, the quotient being exact. *)
Example scaled_height_2000_1000 : Resize.scaled_height 1000 2000 1000 = Ok 500.
Proof. vm_compute. reflexivity. Qed.

(** The doubles matter: [49 * (1 / 49)] is just below 1, and truncates to 0. *)
Example scaled_height_49 : Resize.scaled_height 1 49 49 = Ok 0.
Proof. vm_compute. reflexivity. Qed.

End ResizeWitness.

(** ** Doubles: the conversions and divisions of [human_size] are exact

    Below 2^53 an [int] is a double, and a division by 1024 only changes the
    exponent.  The facts are proved on [SpecFloat]'s rounding functions. *)

Module FloatFacts.
Import PyNum StatementDefs.

Lemma digits2_pos_size p : digits2_pos p = Pos.size p.
Proof. induction p as [p IH|p IH|]; cbn; now rewrite ?IH. Qed.

Lemma digits_lower p : 2 ^ (Zpos (digits2_pos p) - 1) <= Zpos p.
Proof.
  rewrite digits2_pos_size.
  pose proof (Pos.size_le p) as Hle.
  assert (H2 : (2 ^ Pos.size p <= p~0)%positive) by exact Hle.
  apply Pos2Z.pos_le_pos in H2. rewrite Pos2Z.inj_pow in H2.
  replace (Zpos (Pos.size p)) with (Z.succ (Zpos (Pos.size p) - 1)) in H2 by lia.
  rewrite Z.pow_succ_r in H2 by lia. lia.
Qed.

Lemma digits_upper p : Zpos p < 2 ^ Zpos (digits2_pos p).
Proof.
  rewrite digits2_pos_size.
  pose proof (Pos.size_gt p) as Hgt.
  apply Pos2Z.pos_lt_pos in Hgt. now rewrite Pos2Z.inj_pow in Hgt.
Qed.

Lemma digits_unique p d :
  2 ^ (d - 1) <= Zpos p < 2 ^ d -> Zpos (digits2_pos p) = d.
Proof.
  intros [Hlo Hhi].
  pose proof (digits_lower p) as Hl. pose proof (digits_upper p) as Hu.
  set (k := Zpos (digits2_pos p)) in *.
  assert (Hk : 0 < k) by (unfold k; lia).
  assert (Hd : 0 < d).
  { destruct (Z.lt_ge_cases 0 d) as [|Hn]; [assumption|].
    assert (2 ^ d <= 2 ^ 0) by (apply Z.pow_le_mono_r; lia).
    change (2 ^ 0) with 1 in *. lia. }
  destruct (Z.lt_trichotomy k d) as [Hlt | [Heq | Hgt]]; [|assumption|].
  - assert (2 ^ k <= 2 ^ (d - 1)) by (apply Z.pow_le_mono_r; lia). lia.
  - assert (2 ^ d <= 2 ^ (k - 1)) by (apply Z.pow_le_mono_r; lia). lia.
Qed.

Lemma bra_exact s m e :
  Zpos (digits2_pos m) = 53 -> -1074 <= e <= 971 ->
  binary_round_aux prec emax s (Zpos m) e loc_Exact = S754_finite s m e.
Proof.
  intros Hd He. unfold binary_round_aux, shr_fexp.
  cbn [Zdigits2 shr_record_of_loc]. rewrite Hd.
  replace (fexp prec emax (53 + e) - e) with 0 by (unfold fexp, emin, prec, emax; lia).
  cbn [shr shr_m loc_of_shr_record round_nearest_even Zdigits2 shr_record_of_loc].
  rewrite Hd.
  replace (fexp prec emax (53 + e) - e) with 0 by (unfold fexp, emin, prec, emax; lia).
  cbn [shr shr_m].
  replace (e <=? emax - prec) with true by (symmetry; apply Z.leb_le; unfold emax, prec; lia).
  reflexivity.
Qed.

Lemma bra_exact_even s m e :
  Zpos (digits2_pos m) = 53 -> -1074 <= e + 1 <= 971 ->
  binary_round_aux prec emax s (Zpos m~0) e loc_Exact = S754_finite s m (e + 1).
Proof.
  intros Hd He. unfold binary_round_aux, shr_fexp.
  cbn [Zdigits2 shr_record_of_loc digits2_pos]. rewrite Pos2Z.inj_succ, Hd.
  replace (fexp prec emax (Z.succ 53 + e) - e) with 1 by (unfold fexp, emin, prec, emax; lia).
  cbn [shr SpecFloat.iter_pos shr_1 orb shr_m loc_of_shr_record round_nearest_even Zdigits2 shr_record_of_loc].
  rewrite Hd.
  replace (fexp prec emax (53 + (e + 1)) - (e + 1)) with 0 by (unfold fexp, emin, prec, emax; lia).
  cbn [shr shr_m].
  replace (e + 1 <=? emax - prec) with true by (symmetry; apply Z.leb_le; unfold emax, prec; lia).
  reflexivity.
Qed.

Lemma iter_xO_mul p k : Zpos (Pos.iter xO p k) = Zpos p * 2 ^ Zpos k.
Proof.
  rewrite <- Z.shiftl_mul_pow2 by lia. cbn [Z.shiftl].
  apply (Pos.iter_swap_gen _ _ Zpos xO (Z.mul 2)). reflexivity.
Qed.

Lemma div_eucl_div_mod a b : Z.div_eucl a b = (a / b, a mod b).
Proof. unfold Z.div, Z.modulo. now destruct (Z.div_eucl a b). Qed.

Section Conversion.
Variable n : Z.
Hypothesis Hn : 0 < n < 2 ^ 53.

Lemma digits_range : 1 <= Zdigits2 n <= 53.
Proof.
  destruct n as [|p|p]; try lia. cbn [Zdigits2]. split; [lia|].
  pose proof (digits_lower p) as Hl.
  destruct (Z.le_gt_cases (Zpos (digits2_pos p)) 53) as [|Hgt]; [assumption|].
  assert (2 ^ 53 <= 2 ^ (Zpos (digits2_pos p) - 1)) by (apply Z.pow_le_mono_r; lia).
  lia.
Qed.

Lemma mant_eq : Zpos (mant n) = n * 2 ^ (53 - Zdigits2 n).
Proof.
  unfold mant. pose proof digits_range.
  assert (0 < 2 ^ (53 - Zdigits2 n)) by (apply Z.pow_pos_nonneg; lia).
  rewrite Z2Pos.id; [reflexivity | nia].
Qed.

Lemma mant_digits : Zpos (digits2_pos (mant n)) = 53.
Proof.
  apply digits_unique. rewrite mant_eq. pose proof digits_range as Hr.
  destruct n as [|p|p]; try lia. cbn [Zdigits2] in *.
  pose proof (digits_lower p) as Hl. pose proof (digits_upper p) as Hu.
  set (d := Zpos (digits2_pos p)) in *.
  assert (Hp : 0 < 2 ^ (53 - d)) by (apply Z.pow_pos_nonneg; lia).
  replace (2 ^ (53 - 1)) with (2 ^ (d - 1) * 2 ^ (53 - d))
    by (rewrite <- Z.pow_add_r by lia; f_equal; lia).
  replace (2 ^ 53) with (2 ^ d * 2 ^ (53 - d))
    by (rewrite <- Z.pow_add_r by lia; f_equal; lia).
  split; nia.
Qed.

Lemma float_of_int_scaled : float_of_int n = Ok (scaled n 0).
Proof.
  pose proof digits_range as Hr. pose proof mant_digits as Hmd.
  pose proof mant_eq as Hme. unfold scaled.
  destruct n as [|p|p] eqn:En; try lia. cbn [Zdigits2] in *.
  set (d := Zpos (digits2_pos p)) in *.
  unfold float_of_int, binary_normalize, binary_round, shl_align.
  fold d.
  replace (fexp prec emax (d + 0)) with (d - 53)
    by (unfold fexp, emin, prec, emax; lia).
  destruct (d - 53 - 0) as [|k|k] eqn:Hk; [| lia |].
  - assert (Hm : mant (Zpos p) = p).
    { apply Pos2Z.inj. rewrite Hme. replace (53 - d) with 0 by lia. cbn. lia. }
    rewrite Hm in *. rewrite bra_exact by (fold d; lia).
    cbn. do 2 f_equal. lia.
  - assert (Hm : mant (Zpos p) = Pos.iter xO p k).
    { apply Pos2Z.inj. rewrite Hme, iter_xO_mul. do 2 f_equal. lia. }
    rewrite <- Hm. rewrite bra_exact by (try exact Hmd; lia).
    cbn. do 2 f_equal. lia.
Qed.

End Conversion.

Lemma bra_exact_double s M e :
  Zpos (digits2_pos M) = 53 -> -1074 <= e + 1 <= 971 ->
  binary_round_aux prec emax s (2 * Zpos M) e loc_Exact = S754_finite s M (e + 1).
Proof. intros. change (2 * Zpos M) with (Zpos M~0). now apply bra_exact_even. Qed.

Lemma compare_cont_not_lt p q :
  (q <= p)%positive -> Pos.compare_cont Eq p q <> Lt.
Proof.
  intros Hle Hc. change ((p ?= q)%positive = Lt) in Hc.
  apply Pos.compare_lt_iff in Hc. apply Pos.lt_nle in Hc. contradiction.
Qed.

(** On positive doubles whose first mantissa is not below the second, the
    order is that of the exponents. *)
Lemma fltb_canonical m1 e1 m2 e2 :
  (m2 <= m1)%positive ->
  SFltb (S754_finite false m1 e1) (S754_finite false m2 e2) = (e1 <? e2).
Proof.
  intros Hle. unfold SFltb, SFcompare.
  destruct (Z.compare_spec e1 e2) as [Heq | Hlt | Hgt].
  - replace (e1 <? e2) with false by (symmetry; apply Z.ltb_ge; lia).
    pose proof (compare_cont_not_lt _ _ Hle) as Hc.
    destruct (Pos.compare_cont Eq m1 m2); [reflexivity | contradiction | reflexivity].
  - symmetry. now apply Z.ltb_lt.
  - symmetry. apply Z.ltb_ge. lia.
Qed.

Section Division.
Variable n : Z.
Hypothesis Hn : 0 < n < 2 ^ 53.

Lemma int_truediv_scaled : int_truediv n 1024 = Ok (scaled n 1).
Proof.
  pose proof (digits_range n Hn) as Hr. pose proof (mant_digits n Hn) as Hmd.
  pose proof (mant_eq n Hn) as Hme. unfold scaled.
  destruct n as [|p|p] eqn:En; try lia. cbn [Zdigits2] in *.
  set (d := Zpos (digits2_pos p)) in *.
  unfold int_truediv.
  change (1024 =? 0) with false. cbn iota.
  unfold fdiv, raw_of_int, SFdiv, SFdiv_core_binary.
  change (Zdigits2 1024) with 11. cbn [Zdigits2]. fold d.
  replace (Z.min (fexp prec emax (d + 0 - (11 + 0))) (0 - 0)) with (d - 64)
    by (unfold fexp, emin, prec, emax; lia).
  destruct (0 - 0 - (d - 64)) as [|k|k] eqn:Hk; try lia.
  rewrite Z.shiftl_mul_pow2 by lia.
  rewrite div_eucl_div_mod.
  assert (Hsplit : Zpos p * 2 ^ Zpos k = (2 * Zpos (mant (Zpos p))) * 1024).
  { rewrite Hme. replace (Zpos k) with ((53 - d) + 11) by lia.
    rewrite Z.pow_add_r by lia. change (2 ^ 11) with 2048. ring. }
  rewrite Hsplit, Z.div_mul, Z.mod_mul by lia.
  change (new_location 1024 0) with loc_Exact.
  rewrite bra_exact_double by (try exact Hmd; lia).
  cbn. do 2 f_equal. lia.
Qed.

Lemma float_truediv_scaled j :
  0 <= j <= 100 -> float_truediv_int (scaled n j) 1024 = Ok (scaled n (j + 1)).
Proof.
  intros Hj.
  pose proof (digits_range n Hn) as Hr. pose proof (mant_digits n Hn) as Hmd.
  unfold scaled, float_truediv_int.
  change (float_of_int 1024) with (Ok (S754_finite false 4503599627370496 (-42))).
  cbn [mbind result_bind]. change (1024 =? 0) with false. cbn iota.
  set (d := Zdigits2 n) in *. set (M := mant n) in *.
  unfold fdiv, SFdiv, SFdiv_core_binary.
  cbn [Zdigits2]. rewrite Hmd.
  change (Zpos (digits2_pos 4503599627370496)) with 53.
  replace (Z.min (fexp prec emax (53 + (d - 53 - 10 * j) - (53 + -42)))
             (d - 53 - 10 * j - -42)) with (d - 53 - 10 * j - 11)
    by (unfold fexp, emin, prec, emax; lia).
  replace (d - 53 - 10 * j - -42 - (d - 53 - 10 * j - 11)) with 53 by lia.
  cbn iota. rewrite Z.shiftl_mul_pow2 by lia.
  rewrite div_eucl_div_mod.
  replace (Zpos M * 2 ^ 53) with ((2 * Zpos M) * 4503599627370496)
    by (change (2 ^ 53) with (2 * 4503599627370496); ring).
  rewrite Z.div_mul, Z.mod_mul by lia.
  change (new_location 4503599627370496 0) with loc_Exact.
  rewrite bra_exact_double by (try exact Hmd; lia).
  do 2 f_equal. lia.
Qed.

Lemma lt_1024_scaled j :
  lt_int (PFloat (scaled n j)) 1024 = (Zdigits2 n - 53 - 10 * j <? -42).
Proof.
  pose proof (mant_digits n Hn) as Hmd.
  pose proof (digits_lower (mant n)) as Hl. rewrite Hmd in Hl.
  unfold lt_int, scaled, fltb.
  change (binary_normalize prec emax 1024 0 false)
    with (S754_finite false two52 (-42)).
  apply fltb_canonical. unfold two52. lia.
Qed.

End Division.

Lemma round_half_even_shr_nearest a k :
  0 <= a -> 0 < k ->
  2 * Z.abs (a - round_half_even_shr a k * 2 ^ k) <= 2 ^ k.
Proof.
  intros Ha Hk. unfold round_half_even_shr.
  rewrite Z.shiftr_div_pow2, !Z.shiftl_mul_pow2, Z.mul_1_l by lia.
  assert (Hp : 0 < 2 ^ k) by (apply Z.pow_pos_nonneg; lia).
  assert (Hh : 2 ^ k = 2 * 2 ^ (k - 1)).
  { rewrite <- Z.pow_succ_r by lia. f_equal. lia. }
  pose proof (Z.div_mod a (2 ^ k) ltac:(lia)) as Hdm.
  pose proof (Z.mod_pos_bound a (2 ^ k) Hp) as Hb.
  set (q := a / 2 ^ k) in *. set (h := 2 ^ (k - 1)) in *.
  set (r := a mod 2 ^ k) in *. set (P := 2 ^ k) in *.
  replace (a - q * P) with r by lia.
  destruct (k <=? 0) eqn:E; [apply Z.leb_le in E; lia|].
  destruct (r <? h) eqn:E1; [apply Z.ltb_lt in E1; lia|]. apply Z.ltb_ge in E1.
  destruct (h <? r) eqn:E2; [apply Z.ltb_lt in E2; lia|]. apply Z.ltb_ge in E2.
  destruct (Z.even q); lia.
Qed.

(** The tenths printed for a positive double are the nearest to its value. *)
Lemma tenths_nearest m e :
  2 * Z.abs (10 * Zpos m * 2 ^ Z.max 0 e - tenths m e * 2 ^ Z.max 0 (- e))
  <= 2 ^ Z.max 0 (- e).
Proof.
  unfold tenths. destruct e as [|k|k]; cbn iota.
  - rewrite Z.shiftl_0_r. change (Z.max 0 (- 0)) with 0. change (Z.max 0 0) with 0.
    change (2 ^ 0) with 1. lia.
  - rewrite Z.shiftl_mul_pow2 by lia.
    replace (Z.max 0 (- Zpos k)) with 0 by lia.
    replace (Z.max 0 (Zpos k)) with (Zpos k) by lia.
    change (2 ^ 0) with 1. lia.
  - replace (Z.max 0 (- Zneg k)) with (Zpos k) by lia.
    replace (Z.max 0 (Zneg k)) with 0 by lia.
    change (2 ^ 0) with 1. rewrite Z.mul_1_r.
    apply round_half_even_shr_nearest; lia.
Qed.

Section Formatting.
Variable n : Z.
Hypothesis Hn : 0 < n < 2 ^ 53.

Lemma exponent_test j :
  0 <= j -> (Zdigits2 n - 53 - 10 * j <? -42) = (n <? 1024 ^ (j + 1)).
Proof.
  intros Hj.
  replace (1024 ^ (j + 1)) with (2 ^ (10 * (j + 1)))
    by (rewrite Z.pow_mul_r by lia; reflexivity).
  destruct n as [|p|p]; try lia. cbn [Zdigits2].
  pose proof (digits_lower p) as Hl. pose proof (digits_upper p) as Hu.
  set (d := Zpos (digits2_pos p)) in *.
  destruct (Z.ltb_spec (d - 53 - 10 * j) (-42)) as [Hlt | Hge];
    destruct (Z.ltb_spec (Zpos p) (2 ^ (10 * (j + 1)))) as [Hlt' | Hge'];
    try reflexivity.
  - assert (2 ^ d <= 2 ^ (10 * (j + 1))) by (apply Z.pow_le_mono_r; lia). lia.
  - assert (2 ^ (10 * (j + 1)) <= 2 ^ (d - 1)) by (apply Z.pow_le_mono_r; lia). lia.
Qed.

(** The tenths printed for [n / 1024^j] are the nearest to it. *)
Lemma tenths_scaled j :
  0 <= j ->
  2 * Z.abs (10 * n - tenths (mant n) (Zdigits2 n - 53 - 10 * j) * 1024 ^ j) <= 1024 ^ j.
Proof.
  intros Hj.
  pose proof (digits_range n Hn) as Hr. pose proof (mant_eq n Hn) as Hme.
  pose proof (tenths_nearest (mant n) (Zdigits2 n - 53 - 10 * j)) as Ht.
  set (d := Zdigits2 n) in *. set (t := tenths (mant n) (d - 53 - 10 * j)) in *.
  rewrite Hme in Ht.
  assert (HB : 1024 ^ j = 2 ^ (10 * j)) by (rewrite Z.pow_mul_r by lia; reflexivity).
  assert (HA : 0 < 2 ^ (53 - d)) by (apply Z.pow_pos_nonneg; lia).
  assert (HBp : 0 < 1024 ^ j) by (apply Z.pow_pos_nonneg; lia).
  destruct (Z.le_gt_cases 0 (d - 53 - 10 * j)) as [Hpos | Hneg].
  - assert (d = 53) by lia. assert (j = 0) by lia. subst j.
    replace (d - 53 - 10 * 0) with 0 in * by lia.
    replace (53 - d) with 0 in Ht by lia.
    change (Z.max 0 (- 0)) with 0 in Ht. change (Z.max 0 0) with 0 in Ht.
    change (2 ^ 0) with 1 in Ht. change (1024 ^ 0) with 1. lia.
  - replace (Z.max 0 (d - 53 - 10 * j)) with 0 in Ht by lia.
    replace (Z.max 0 (- (d - 53 - 10 * j))) with ((53 - d) + 10 * j) in Ht by lia.
    rewrite Z.pow_add_r, <- HB in Ht by lia. change (2 ^ 0) with 1 in Ht.
    set (A := 2 ^ (53 - d)) in *. set (B := 1024 ^ j) in *.
    replace (10 * (n * A) * 1 - t * (A * B)) with (A * (10 * n - t * B)) in Ht by ring.
    rewrite Z.abs_mul, (Z.abs_eq A) in Ht by lia.
    nia.
Qed.

Lemma human_size_from_float units last j :
  0 <= j -> j + Z.of_nat (length units) <= 100 ->
  HumanSize.human_size_from units last (PFloat (scaled n j))
  = Ok (format_1f (scaled n (pick units last n j).1) +:+ " " +:+ (pick units last n j).2).
Proof.
  revert j. induction units as [|u units IH]; intros j Hj Hlen.
  - reflexivity.
  - cbn [HumanSize.human_size_from pick]. rewrite (lt_1024_scaled n Hn), exponent_test by lia.
    destruct (n <? 1024 ^ (j + 1)); [reflexivity|].
    unfold truediv_int. rewrite (float_truediv_scaled n Hn) by lia.
    cbn [mbind result_bind]. apply IH; [lia|]. cbn [length] in Hlen. lia.
Qed.

Lemma human_size_from_int units last :
  Z.of_nat (length units) <= 100 ->
  HumanSize.human_size_from units last (PInt n)
  = Ok (format_1f (scaled n (pick units last n 0).1) +:+ " " +:+ (pick units last n 0).2).
Proof.
  intros Hlen. destruct units as [|u units].
  - cbn [HumanSize.human_size_from pick format_num_1f fst snd].
    rewrite (float_of_int_scaled n Hn). reflexivity.
  - cbn [HumanSize.human_size_from pick lt_int]. change (1024 ^ (0 + 1)) with 1024.
    destruct (n <? 1024).
    + cbn [format_num_1f fst snd]. rewrite (float_of_int_scaled n Hn). reflexivity.
    + unfold truediv_int. rewrite (int_truediv_scaled n Hn).
      cbn [mbind result_bind]. apply human_size_from_float; [lia|].
      cbn [length] in Hlen. lia.
Qed.

End Formatting.

Lemma pick_spec units last n j :
  0 <= j ->
  let k := (pick units last n j).1 in
  j <= k <= j + Z.of_nat (length units) /\
  (units ++ [last])%list !! Z.to_nat (k - j) = Some (pick units last n j).2 /\
  (k = j \/ 1024 ^ k <= n) /\
  (n < 1024 ^ (k + 1) \/ k = j + Z.of_nat (length units)).
Proof.
  revert j. induction units as [|u units IH]; intros j Hj; cbn [pick].
  - cbn. replace (j - j) with 0 by lia. repeat split; try lia; auto.
  - destruct (Z.ltb_spec n (1024 ^ (j + 1))) as [Hlt | Hge].
    + cbn [fst snd]. replace (j - j) with 0 by lia. cbn [length].
      repeat split; try lia; auto.
    + specialize (IH (j + 1) ltac:(lia)). cbn zeta in IH.
      destruct IH as (Hk & Hu & Hlo & Hhi).
      set (k := (pick units last n (j + 1)).1) in *. cbn zeta. cbn [length].
      split; [lia|]. split.
      { replace (Z.to_nat (k - j)) with (S (Z.to_nat (k - (j + 1)))) by lia. exact Hu. }
      split; [right; destruct Hlo as [-> | ?]; lia|].
      destruct Hhi as [? | ->]; [left; assumption | right; lia].
Qed.

(** The figure printed by [f"{x:.1f}"] for tenths [t >= 0] has one decimal. *)
Lemma human_size_of_positive units last n :
  0 < n < 2 ^ 53 -> Z.of_nat (length units) <= 100 ->
  let k := (pick units last n 0).1 in
  exists t,
    HumanSize.human_size_from units last (PInt n)
    = Ok (fmt_tenths false t +:+ " " +:+ (pick units last n 0).2) /\
    0 <= t /\
    2 * Z.abs (10 * n - t * 1024 ^ k) <= 1024 ^ k /\
    (n < 1024 ^ (k + 1) -> t <= 10240).
Proof.
  intros Hn Hlen k.
  pose proof (pick_spec units last n 0 ltac:(lia)) as (Hk & _). fold k in Hk.
  exists (tenths (mant n) (Zdigits2 n - 53 - 10 * k)).
  pose proof (tenths_scaled n Hn k ltac:(lia)) as Ht.
  set (t := tenths (mant n) (Zdigits2 n - 53 - 10 * k)) in *.
  assert (HB : 0 < 1024 ^ k) by (apply Z.pow_pos_nonneg; lia).
  split; [rewrite (human_size_from_int n Hn) by assumption; reflexivity|].
  split; [|split; [exact Ht|]].
  - destruct (Z.le_gt_cases 0 t) as [|Hneg]; [assumption|]. nia.
  - intros Hlt. rewrite Z.pow_add_r in Hlt by lia. change (1024 ^ 1) with 1024 in Hlt.
    destruct (Z.le_gt_cases t 10240) as [|Hbig]; [assumption|]. nia.
Qed.


(** *** Beyond 2^53: one rounding, then exact divisions *)

Lemma float_truediv_canonical M e :
  Zpos (digits2_pos M) = 53 -> -1063 <= e <= 981 ->
  float_truediv_int (S754_finite false M e) 1024 = Ok (S754_finite false M (e - 10)).
Proof.
  intros Hmd He.
  unfold float_truediv_int.
  change (float_of_int 1024) with (Ok (S754_finite false two52 (-42))).
  cbn [mbind result_bind]. change (1024 =? 0) with false. cbn iota.
  unfold fdiv, SFdiv, SFdiv_core_binary.
  cbn [Zdigits2]. rewrite Hmd.
  change (Zpos (digits2_pos two52)) with 53.
  replace (Z.min (fexp prec emax (53 + e - (53 + -42))) (e - -42)) with (e - 11)
    by (unfold fexp, emin, prec, emax; lia).
  replace (e - -42 - (e - 11)) with 53 by lia.
  cbn iota. rewrite Z.shiftl_mul_pow2 by lia.
  rewrite div_eucl_div_mod.
  replace (Zpos M * 2 ^ 53) with ((2 * Zpos M) * Zpos two52)
    by (change (2 ^ 53) with (2 * Zpos two52); ring).
  rewrite Z.div_mul, Z.mod_mul by lia.
  change (new_location (Zpos two52) 0) with loc_Exact.
  rewrite bra_exact_double by (try exact Hmd; lia).
  do 2 f_equal. lia.
Qed.

Lemma lt_1024_canonical M e :
  Zpos (digits2_pos M) = 53 ->
  lt_int (PFloat (S754_finite false M e)) 1024 = (e <? -42).
Proof.
  intros Hmd.
  pose proof (digits_lower M) as Hl. rewrite Hmd in Hl.
  unfold lt_int, fltb.
  change (binary_normalize prec emax 1024 0 false)
    with (S754_finite false two52 (-42)).
  apply fltb_canonical. unfold two52. lia.
Qed.

(** [iter_pos] is iteration *)
Lemma iter_pos_nat {A} (f : A -> A) p x :
  SpecFloat.iter_pos f p x = Nat.iter (Pos.to_nat p) f x.
Proof.
  revert x. induction p as [p IH|p IH|]; intros x; cbn [SpecFloat.iter_pos].
  - rewrite !IH, Pos2Nat.inj_xI.
    replace (S (2 * Pos.to_nat p))%nat with (S (Pos.to_nat p + Pos.to_nat p))%nat by lia.
    now rewrite Nat.iter_succ_r, Nat.iter_add.
  - rewrite !IH, Pos2Nat.inj_xO.
    replace (2 * Pos.to_nat p)%nat with (Pos.to_nat p + Pos.to_nat p)%nat by lia.
    now rewrite Nat.iter_add.
  - reflexivity.
Qed.

Lemma shr_1_m mrs : 0 <= shr_m mrs -> shr_m (shr_1 mrs) = shr_m mrs / 2.
Proof.
  destruct mrs as [m r s]. cbn [shr_m]. intros Hm.
  destruct m as [|[p|p|]|p]; cbn [shr_1 shr_m]; try lia.
  - reflexivity.
  - rewrite Pos2Z.inj_xI. apply Z.div_unique with (r := 1); lia.
  - rewrite Pos2Z.inj_xO. apply Z.div_unique with (r := 0); lia.
  - reflexivity.
Qed.

Lemma shr_iter_m k mrs :
  0 <= shr_m mrs ->
  shr_m (Nat.iter k shr_1 mrs) = shr_m mrs / 2 ^ Z.of_nat k.
Proof.
  intros Hm. induction k as [|k IH].
  - cbn. now rewrite Z.div_1_r.
  - rewrite Nat.iter_succ, shr_1_m.
    + rewrite IH, Nat2Z.inj_succ, Z.pow_succ_r by lia.
      rewrite Z.div_div by (try apply Z.pow_pos_nonneg; lia).
      f_equal. lia.
    + rewrite IH. apply Z.div_pos; [assumption | apply Z.pow_pos_nonneg; lia].
Qed.

Lemma round_nearest_even_range h l :
  round_nearest_even h l = h \/ round_nearest_even h l = h + 1.
Proof.
  destruct l as [|[| |]]; cbn [round_nearest_even]; auto.
  destruct (Z.even h); auto.
Qed.

Lemma shr_m_of_loc m l : shr_m (shr_record_of_loc m l) = m.
Proof. destruct l as [|[| |]]; reflexivity. Qed.

Lemma digits_unique_Z a d :
  0 < a -> 2 ^ (d - 1) <= a < 2 ^ d -> Zdigits2 a = d.
Proof.
  intros Ha Hb. destruct a as [|p|p]; try lia. cbn [Zdigits2].
  now apply digits_unique.
Qed.

(** Rounding a mantissa of more than 53 bits: the low bits are dropped,
    the result is the truncated mantissa or its successor, renormalised
    when the successor is [2^53]; beyond the largest exponent it is an
    infinity. *)
Lemma bra_big s q e l :
  let dq := Zpos (digits2_pos q) in
  let c := dq - 53 in
  let h := Zpos q / 2 ^ c in
  54 <= dq -> -1074 <= e + c ->
  exists m1,
    (m1 = h \/ m1 = h + 1) /\
    2 ^ 52 <= h < 2 ^ 53 /\
    binary_round_aux prec emax s (Zpos q) e l
    = if m1 <? 2 ^ 53 then
        if e + c <=? 971 then S754_finite s (Z.to_pos m1) (e + c) else S754_infinity s
      else
        if e + c + 1 <=? 971 then S754_finite s two52 (e + c + 1) else S754_infinity s.
Proof.
  intros dq c h Hdq He.
  pose proof (digits_lower q) as Hl. pose proof (digits_upper q) as Hu. fold dq in Hl, Hu.
  assert (Hc : 0 < c) by (unfold c; lia).
  assert (Hpc : 0 < 2 ^ c) by (apply Z.pow_pos_nonneg; lia).
  assert (Hh : 2 ^ 52 <= h < 2 ^ 53).
  { unfold h. split.
    - apply Z.div_le_lower_bound; [assumption|].
      rewrite <- Z.pow_add_r by lia. replace (c + 52) with (dq - 1) by (unfold c; lia).
      assumption.
    - apply Z.div_lt_upper_bound; [assumption|].
      rewrite <- Z.pow_add_r by lia. replace (c + 53) with dq by (unfold c; lia).
      assumption. }
  unfold binary_round_aux, shr_fexp. cbn [Zdigits2]. fold dq.
  replace (fexp prec emax (dq + e) - e) with c
    by (unfold fexp, emin, prec, emax, c; lia).
  destruct c as [|cp|cp] eqn:Ec; try lia.
  cbn [shr]. rewrite iter_pos_nat.
  set (mrs := Nat.iter (Pos.to_nat cp) shr_1 (shr_record_of_loc (Zpos q) l)).
  assert (Hm : shr_m mrs = h).
  { unfold mrs. rewrite shr_iter_m by (rewrite shr_m_of_loc; lia).
    rewrite shr_m_of_loc, positive_nat_Z. reflexivity. }
  rewrite Hm.
  set (m1 := round_nearest_even h (loc_of_shr_record mrs)).
  exists m1. split; [apply round_nearest_even_range|]. split; [exact Hh|].
  pose proof (round_nearest_even_range h (loc_of_shr_record mrs)) as Hr. fold m1 in Hr.
  destruct (Z.ltb_spec m1 (2 ^ 53)) as [Hlt | Hge].
  - assert (Hd1 : Zdigits2 m1 = 53) by (apply digits_unique_Z; lia).
    rewrite Hd1.
    replace (fexp prec emax (53 + (e + Zpos cp)) - (e + Zpos cp)) with 0
      by (unfold fexp, emin, prec, emax; lia).
    cbn [shr shr_record_of_loc shr_m].
    destruct m1 as [|m1p|m1p]; try lia.
    cbn [Z.to_pos]. reflexivity.
  - assert (Hm1 : m1 = 2 ^ 53) by lia.
    rewrite Hm1. change (Zdigits2 (2 ^ 53)) with 54.
    replace (fexp prec emax (54 + (e + Zpos cp)) - (e + Zpos cp)) with 1
      by (unfold fexp, emin, prec, emax; lia).
    reflexivity.
Qed.

(** [n / 1024] for an [int] of 54 bits or more: a double of 53 bits that is
    within one unit in the last place of the quotient, or [OverflowError].
    [sigma] scales the statement to integers. *)
Lemma int_truediv_big n :
  2 ^ 53 <= n ->
  let d := Zdigits2 n in
  let sigma := Z.max 0 (64 - d) in
  (int_truediv n 1024 = Raise OverflowError /\ 2 ^ 1033 <= n)
  \/
  exists M e,
    int_truediv n 1024 = Ok (S754_finite false M e) /\
    Zpos (digits2_pos M) = 53 /\
    d - 63 <= e <= d - 62 /\ e <= 971 /\
    Z.abs (Zpos M * 2 ^ (e + sigma) * 1024 - n * 2 ^ sigma) <= 1024 * 2 ^ (d - 63 + sigma).
Proof.
  intros Hn d sigma.
  destruct n as [|p|p] eqn:En; try lia.
  pose proof (digits_lower p) as Hl. pose proof (digits_upper p) as Hu.
  cbn [Zdigits2] in d. fold d in Hl, Hu.
  assert (Hd : 54 <= d).
  { destruct (Z.le_gt_cases 54 d) as [|Hlt]; [assumption|].
    assert (2 ^ d <= 2 ^ 53) by (apply Z.pow_le_mono_r; lia). lia. }
  assert (Hs : 0 <= sigma) by (unfold sigma; lia).
  assert (Hps : 0 < 2 ^ sigma) by (apply Z.pow_pos_nonneg; lia).
  set (m' := Zpos p * 2 ^ sigma).
  set (D := d + sigma).
  assert (HD : 64 <= D) by (unfold D, sigma; lia).
  assert (Hm' : 2 ^ (D - 1) <= m' < 2 ^ D).
  { unfold m', D. replace (d + sigma - 1) with ((d - 1) + sigma) by lia.
    rewrite !Z.pow_add_r by lia. split; nia. }
  set (q := m' / 1024).
  assert (Hq : 2 ^ (D - 11) <= q < 2 ^ (D - 10)).
  { unfold q. split.
    - apply Z.div_le_lower_bound; [lia|].
      change 1024 with (2 ^ 10). rewrite <- Z.pow_add_r by lia.
      replace (10 + (D - 11)) with (D - 1) by lia. lia.
    - apply Z.div_lt_upper_bound; [lia|].
      change 1024 with (2 ^ 10). rewrite <- Z.pow_add_r by lia.
      replace (10 + (D - 10)) with D by lia. lia. }
  assert (Hqpos : 0 < q).
  { assert (0 < 2 ^ (D - 11)) by (apply Z.pow_pos_nonneg; lia). lia. }
  pose proof (Z.div_mod m' 1024 ltac:(lia)) as Hdm.
  pose proof (Z.mod_pos_bound m' 1024 ltac:(lia)) as Hmod. fold q in Hdm.
  (* the computation *)
  unfold int_truediv. change (1024 =? 0) with false. cbn iota.
  unfold fdiv, raw_of_int, SFdiv, SFdiv_core_binary.
  change (Zdigits2 1024) with 11. cbn [Zdigits2]. fold d.
  replace (Z.min (fexp prec emax (d + 0 - (11 + 0))) (0 - 0)) with (- sigma)
    by (unfold fexp, emin, prec, emax, sigma; lia).
  replace (0 - 0 - - sigma) with sigma by lia.
  assert (Hshift : match sigma with
                   | 0 => Zpos p
                   | Zpos _ => Z.shiftl (Zpos p) sigma
                   | Zneg _ => 0
                   end = m').
  { unfold m'. destruct sigma as [|sp|sp] eqn:Es; try lia.
    now rewrite Z.shiftl_mul_pow2 by lia. }
  rewrite Hshift, div_eucl_div_mod. fold q.
  destruct q as [|qp|qp] eqn:Eq; try lia.
  cbn [xorb].
  assert (Hdq : Zpos (digits2_pos qp) = D - 10).
  { apply digits_unique. replace (D - 10 - 1) with (D - 11) by lia. exact Hq. }
  destruct (bra_big false qp (- sigma) (new_location 1024 (m' mod 1024)))
    as (m1 & Hm1 & Hh & Hres).
  { rewrite Hdq. lia. }
  { rewrite Hdq. unfold D, sigma. lia. }
  rewrite Hdq in Hres, Hm1, Hh.
  replace (D - 10 - 53) with (D - 63) in * by lia.
  replace (- sigma + (D - 63)) with (d - 63) in Hres by (unfold D; lia).
  rewrite Hres. clear Hres.
  set (c := D - 63) in *.
  assert (Hc : 0 < c) by (unfold c; lia).
  assert (Hpc : 0 < 2 ^ c) by (apply Z.pow_pos_nonneg; lia).
  set (h := Zpos qp / 2 ^ c) in *.
  pose proof (Z.div_mod (Zpos qp) (2 ^ c) ltac:(lia)) as Hdm2. fold h in Hdm2.
  pose proof (Z.mod_pos_bound (Zpos qp) (2 ^ c) Hpc) as Hmod2.
  assert (Hbound : Z.abs (m1 * 2 ^ c * 1024 - m') <= 1024 * 2 ^ c).
  { destruct Hm1 as [-> | ->]; nia. }
  assert (Hbig : 971 < d - 63 -> 2 ^ 1033 <= Zpos p).
  { intros Hgt. assert (2 ^ 1033 <= 2 ^ (d - 1)) by (apply Z.pow_le_mono_r; lia). lia. }
  assert (Hcs : c = d - 63 + sigma) by (unfold c, D; lia).
  destruct (Z.ltb_spec m1 (2 ^ 53)) as [Hlt | Hge].
  - destruct (Z.leb_spec (d - 63) 971) as [Hle | Hgt].
    + right. exists (Z.to_pos m1), (d - 63). cbn [is_infinite].
      split; [reflexivity|].
      assert (Hid : Zpos (Z.to_pos m1) = m1) by (apply Z2Pos.id; lia).
      split; [apply digits_unique; rewrite Hid; lia|].
      split; [lia|]. split; [lia|].
      rewrite Hid, <- Hcs. exact Hbound.
    + left. cbn [is_infinite]. split; [reflexivity | apply Hbig; lia].
  - assert (Hm1' : m1 = 2 ^ 53) by lia.
    destruct (Z.leb_spec (d - 63 + 1) 971) as [Hle | Hgt].
    + right. exists two52, (d - 63 + 1). cbn [is_infinite].
      split; [reflexivity|]. split; [reflexivity|].
      split; [lia|]. split; [lia|].
      replace (d - 63 + 1 + sigma) with (c + 1) by lia.
      rewrite Z.pow_add_r by lia.
      replace (Zpos two52 * (2 ^ c * 2 ^ 1)) with (m1 * 2 ^ c)
        by (rewrite Hm1'; change (2 ^ 53) with (Zpos two52 * 2); change (2 ^ 1) with 2; ring).
      rewrite <- Hcs. exact Hbound.
    + left. cbn [is_infinite]. split; [reflexivity|].
      assert (2 ^ 1033 <= 2 ^ (d - 1)) by (apply Z.pow_le_mono_r; lia). lia.
Qed.

Lemma round_half_even_shr_nonneg a k : 0 <= a -> 0 <= round_half_even_shr a k.
Proof.
  intros Ha. unfold round_half_even_shr.
  assert (Hq : 0 <= Z.shiftr a k) by (apply Z.shiftr_nonneg; assumption).
  destruct (k <=? 0); [assumption|].
  destruct (_ <? _); [assumption|].
  destruct (_ <? _); [lia|].
  destruct (Z.even _); lia.
Qed.

Lemma tenths_nonneg m e : 0 <= tenths m e.
Proof.
  unfold tenths. destruct e as [|k|k].
  - rewrite Z.shiftl_0_r. lia.
  - assert (0 <= Z.shiftl (Zpos m) (Zpos k)) by (apply Z.shiftl_nonneg; lia). lia.
  - apply round_half_even_shr_nonneg. lia.
Qed.

(** On a double of 2^43 or more, every test [size_bytes < 1024] of a loop
    of at most four units fails: the loop divides through all of them. *)
Lemma human_size_from_canonical units last M e :
  Zpos (digits2_pos M) = 53 ->
  10 * Z.of_nat (length units) - 52 <= e <= 981 ->
  HumanSize.human_size_from units last (PFloat (S754_finite false M e))
  = Ok (format_1f (S754_finite false M (e - 10 * Z.of_nat (length units)))
        +:+ " " +:+ last).
Proof.
  intros Hmd. revert e. induction units as [|u units IH]; intros e He.
  - cbn [HumanSize.human_size_from format_num_1f mbind result_bind length].
    replace (e - 10 * Z.of_nat 0) with e by lia. reflexivity.
  - cbn [length] in He. cbn [HumanSize.human_size_from].
    rewrite lt_1024_canonical by assumption.
    replace (e <? -42) with false by (symmetry; apply Z.ltb_ge; lia).
    unfold truediv_int. rewrite float_truediv_canonical by (try assumption; lia).
    cbn [mbind result_bind]. rewrite IH by lia.
    do 3 f_equal. cbn [length]. f_equal. lia.
Qed.

Lemma pick_big units last n j :
  0 <= j -> 1024 ^ (j + Z.of_nat (length units)) <= n ->
  pick units last n j = (j + Z.of_nat (length units), last).
Proof.
  revert j. induction units as [|u units IH]; intros j Hj Hn; cbn [pick length] in *.
  - f_equal. lia.
  - assert (1024 ^ (j + 1) <= 1024 ^ (j + Z.of_nat (S (length units))))
      by (apply Z.pow_le_mono_r; lia).
    replace (n <? 1024 ^ (j + 1)) with false by (symmetry; apply Z.ltb_ge; lia).
    rewrite IH; [f_equal; lia | lia |].
    replace (j + 1 + Z.of_nat (length units)) with (j + Z.of_nat (S (length units))) by lia.
    assumption.
Qed.

Lemma human_size_from_big u units last n :
  2 ^ 53 <= n < 2 ^ 1033 -> Z.of_nat (length units) <= 4 ->
  let k := 1 + Z.of_nat (length units) in
  exists t,
    HumanSize.human_size_from (u :: units) last (PInt n)
    = Ok (fmt_tenths false t +:+ " " +:+ last) /\
    0 <= t /\
    (n < 2 ^ 63 -> 2 <= k -> Z.abs (10 * n - t * 1024 ^ k) < 1024 ^ k).
Proof.
  intros Hn Hlen k.
  cbn [HumanSize.human_size_from lt_int].
  replace (n <? 1024) with false by (symmetry; apply Z.ltb_ge; lia).
  unfold truediv_int.
  destruct (int_truediv_big n ltac:(lia)) as [[_ Hbig] | (M & e & Hdiv & Hmd & He & Hemax & Hval)];
    [lia|].
  rewrite Hdiv. cbn [mbind result_bind].
  set (d := Zdigits2 n) in *.
  assert (Hd : 54 <= d).
  { destruct n as [|p|p]; try lia. cbn [Zdigits2] in d.
    pose proof (digits_upper p) as Hu. fold d in Hu.
    destruct (Z.le_gt_cases 54 d) as [|Hlt]; [assumption|].
    assert (2 ^ d <= 2 ^ 53) by (apply Z.pow_le_mono_r; lia). lia. }
  rewrite human_size_from_canonical by (try assumption; lia).
  set (E := e - 10 * Z.of_nat (length units)).
  exists (tenths M E). split; [reflexivity|]. split; [apply tenths_nonneg|].
  intros H63 Hk.
  assert (Hd63 : d <= 63).
  { destruct n as [|p|p]; try lia. cbn [Zdigits2] in d.
    pose proof (digits_lower p) as Hl. fold d in Hl.
    destruct (Z.le_gt_cases d 63) as [|Hgt]; [assumption|].
    assert (2 ^ 63 <= 2 ^ (d - 1)) by (apply Z.pow_le_mono_r; lia). lia. }
  set (sigma := Z.max 0 (64 - d)) in *.
  assert (Hsig : sigma = 64 - d) by (unfold sigma; lia).
  replace (d - 63 + sigma) with 1 in Hval by lia. change (2 ^ 1) with 2 in Hval.
  pose proof (tenths_nearest M E) as Ht.
  set (t := tenths M E) in *.
  assert (HE : E < 0) by (unfold E; lia).
  replace (Z.max 0 E) with 0 in Ht by lia.
  replace (Z.max 0 (- E)) with (- E) in Ht by lia.
  change (2 ^ 0) with 1 in Ht. rewrite Z.mul_1_r in Ht.
  set (Q := 2 ^ (- E)) in *. set (P := 2 ^ (e + sigma)) in *.
  set (S := 2 ^ sigma) in *. set (B := 1024 ^ k).
  assert (HS : 0 < S) by (apply Z.pow_pos_nonneg; lia).
  assert (HP : 0 < P) by (apply Z.pow_pos_nonneg; lia).
  assert (HQ : 0 < Q) by (apply Z.pow_pos_nonneg; lia).
  assert (HPQ : 1024 * (P * Q) = B * S).
  { unfold P, Q, B, S, E, k.
    replace 1024 with (2 ^ 10) by reflexivity.
    rewrite <- (Z.pow_mul_r 2 10) by lia.
    rewrite <- !Z.pow_add_r by lia. f_equal. lia. }
  assert (HBS : 2048 <= P * Q).
  { assert (2 ^ 11 <= 2 ^ (e + sigma + - E)) by (apply Z.pow_le_mono_r; unfold E; lia).
    unfold P, Q. rewrite <- Z.pow_add_r by lia. change (2 ^ 11) with 2048 in *. lia. }
  assert (Hgoal : Z.abs (10 * (n * S) - t * (B * S)) < B * S).
  { rewrite <- HPQ.
    replace (10 * (n * S) - t * (1024 * (P * Q)))
      with (10 * (n * S - Zpos M * P * 1024) + 1024 * P * (10 * Zpos M - t * Q)) by ring.
    assert (H1 : Z.abs (10 * (n * S - Zpos M * P * 1024)) <= 20480) by lia.
    assert (H2 : 2 * Z.abs (1024 * P * (10 * Zpos M - t * Q)) <= 1024 * P * Q).
    { rewrite Z.abs_mul, (Z.abs_eq (1024 * P)) by lia. nia. }
    lia. }
  replace (10 * (n * S) - t * (B * S)) with ((10 * n - t * B) * S) in Hgoal by ring.
  rewrite Z.abs_mul, (Z.abs_eq S) in Hgoal by lia. nia.
Qed.

(** *** A quotient of two [int]s and its product with a third

    The resize computes [h * (b / w)]: a division and a multiplication, each
    rounded once. *)

(** [bra_big] with no bit to drop as well *)
Lemma bra_wide s q e l :
  let dq := Zpos (digits2_pos q) in
  let c := dq - 53 in
  let h := Zpos q / 2 ^ c in
  53 <= dq -> -1074 <= e + c ->
  exists m1,
    (m1 = h \/ m1 = h + 1) /\
    2 ^ 52 <= h < 2 ^ 53 /\
    binary_round_aux prec emax s (Zpos q) e l
    = if m1 <? 2 ^ 53 then
        if e + c <=? 971 then S754_finite s (Z.to_pos m1) (e + c) else S754_infinity s
      else
        if e + c + 1 <=? 971 then S754_finite s two52 (e + c + 1) else S754_infinity s.
Proof.
  intros dq c h Hdq He.
  destruct (Z.le_gt_cases 54 dq) as [Hbig | Hsmall].
  { exact (bra_big s q e l Hbig He). }
  assert (Hd53 : dq = 53) by lia.
  pose proof (digits_lower q) as Hl. pose proof (digits_upper q) as Hu.
  fold dq in Hl, Hu. rewrite Hd53 in Hl, Hu.
  assert (Hc0 : c = 0) by (unfold c; lia).
  assert (Hhq : h = Zpos q) by (unfold h; rewrite Hc0; apply Z.div_1_r).
  assert (Hh : 2 ^ 52 <= h < 2 ^ 53) by (rewrite Hhq; change (53 - 1) with 52 in Hl; lia).
  unfold binary_round_aux, shr_fexp. cbn [Zdigits2]. fold dq. rewrite Hd53.
  replace (fexp prec emax (53 + e) - e) with 0
    by (unfold fexp, emin, prec, emax; lia).
  cbn [shr]. rewrite shr_m_of_loc.
  set (m1 := round_nearest_even (Zpos q) (loc_of_shr_record (shr_record_of_loc (Zpos q) l))).
  exists m1.
  pose proof (round_nearest_even_range (Zpos q)
                (loc_of_shr_record (shr_record_of_loc (Zpos q) l))) as Hr.
  fold m1 in Hr. rewrite <- Hhq in Hr.
  split; [exact Hr|]. split; [exact Hh|].
  rewrite Hc0, !Z.add_0_r.
  destruct (Z.ltb_spec m1 (2 ^ 53)) as [Hlt | Hge].
  - assert (Hd1 : Zdigits2 m1 = 53) by (apply digits_unique_Z; lia).
    rewrite Hd1.
    replace (fexp prec emax (53 + e) - e) with 0
      by (unfold fexp, emin, prec, emax; lia).
    cbn [shr shr_record_of_loc shr_m].
    destruct m1 as [|m1p|m1p]; try lia.
    cbn [Z.to_pos]. reflexivity.
  - assert (Hm1 : m1 = 2 ^ 53) by lia.
    rewrite Hm1. change (Zdigits2 (2 ^ 53)) with 54.
    replace (fexp prec emax (54 + e) - e) with 1
      by (unfold fexp, emin, prec, emax; lia).
    reflexivity.
Qed.

Lemma digits_mono_lt pa pb :
  Zpos pa < Zpos pb -> Zpos (digits2_pos pa) <= Zpos (digits2_pos pb).
Proof.
  intros Hlt.
  pose proof (digits_lower pa) as Hl. pose proof (digits_upper pb) as Hu.
  set (da := Zpos (digits2_pos pa)) in *. set (db := Zpos (digits2_pos pb)) in *.
  destruct (Z.le_gt_cases da db) as [|Hgt]; [assumption|].
  assert (2 ^ db <= 2 ^ (da - 1)) by (apply Z.pow_le_mono_r; unfold db; lia). lia.
Qed.

(** [a / b] for [0 < a < b]: a double of 53 bits within one unit in the
    last place of the quotient. *)
Lemma int_truediv_ratio a b :
  0 < a -> a < b -> b < 2 ^ 64 ->
  exists M E,
    int_truediv a b = Ok (S754_finite false M E) /\
    Zpos (digits2_pos M) = 53 /\
    -200 <= E < 0 /\
    Z.abs (Zpos M * b - a * 2 ^ (- E)) <= b.
Proof.
  intros Ha Hab Hb.
  destruct a as [|pa|pa]; try lia. destruct b as [|pb|pb]; try lia.
  pose proof (digits_lower pa) as Hla. pose proof (digits_upper pa) as Hua.
  pose proof (digits_lower pb) as Hlb. pose proof (digits_upper pb) as Hub.
  pose proof (digits_mono_lt pa pb Hab) as Hdab.
  set (da := Zpos (digits2_pos pa)) in *. set (db := Zpos (digits2_pos pb)) in *.
  assert (Hda : 1 <= da) by (unfold da; lia).
  assert (Hdb : db <= 64).
  { destruct (Z.le_gt_cases db 64) as [|Hgt]; [assumption|].
    assert (2 ^ 64 <= 2 ^ (db - 1)) by (apply Z.pow_le_mono_r; lia). lia. }
  set (s := 53 + db - da).
  assert (Hs : 53 <= s) by (unfold s; lia).
  set (m' := Zpos pa * 2 ^ s).
  assert (Hm' : 2 ^ (52 + db) <= m' < 2 ^ (53 + db)).
  { unfold m'. replace (52 + db) with ((da - 1) + s) by (unfold s; lia).
    replace (53 + db) with (da + s) by (unfold s; lia).
    rewrite !Z.pow_add_r by lia.
    assert (0 < 2 ^ s) by (apply Z.pow_pos_nonneg; lia). split; nia. }
  set (q := m' / Zpos pb).
  pose proof (Z.div_mod m' (Zpos pb) ltac:(lia)) as Hdm. fold q in Hdm.
  pose proof (Z.mod_pos_bound m' (Zpos pb) ltac:(lia)) as Hmod.
  assert (Hq : 2 ^ 52 <= q < 2 ^ 54).
  { rewrite (Z.pow_add_r 2 52 db), (Z.pow_add_r 2 53 db) in Hm' by lia.
    assert (Hlb' : 2 * 2 ^ (db - 1) = 2 ^ db).
    { rewrite <- Z.pow_succ_r by lia. f_equal. lia. }
    change (2 ^ 54) with (2 ^ 53 * 2).
    split.
    - apply Z.div_le_lower_bound; [lia|]. nia.
    - apply Z.div_lt_upper_bound; [lia|]. nia. }
  (* the computation *)
  unfold int_truediv. cbn [Z.eqb]. 
  unfold fdiv, raw_of_int, SFdiv, SFdiv_core_binary.
  cbn [Zdigits2]. fold da db.
  replace (Z.min (fexp prec emax (da + 0 - (db + 0))) (0 - 0)) with (- s)
    by (unfold fexp, emin, prec, emax, s; lia).
  replace (0 - 0 - - s) with s by lia.
  destruct s as [|sp|sp] eqn:Es; try lia.
  rewrite Z.shiftl_mul_pow2 by lia. fold m'.
  rewrite div_eucl_div_mod. fold q.
  destruct q as [|qp|qp] eqn:Eq; try lia.
  cbn [xorb].
  pose proof (digits_lower qp) as Hlq. pose proof (digits_upper qp) as Huq.
  set (dq := Zpos (digits2_pos qp)) in *.
  assert (Hdq : 53 <= dq <= 54).
  { split.
    - destruct (Z.le_gt_cases 53 dq) as [|Hlt]; [assumption|].
      assert (2 ^ dq <= 2 ^ 52) by (apply Z.pow_le_mono_r; unfold dq; lia). lia.
    - destruct (Z.le_gt_cases dq 54) as [|Hgt]; [assumption|].
      assert (2 ^ 54 <= 2 ^ (dq - 1)) by (apply Z.pow_le_mono_r; lia). lia. }
  destruct (bra_wide false qp (- Zpos sp)
              (new_location (Zpos pb) (m' mod Zpos pb)))
    as (m1 & Hm1 & Hh & Hres).
  { fold dq. lia. }
  { fold dq. lia. }
  fold dq in Hres, Hm1, Hh. rewrite Hres. clear Hres.
  set (c := dq - 53) in *.
  assert (Hc : 0 <= c <= 1) by (unfold c; lia).
  assert (Hpc : 0 < 2 ^ c) by (apply Z.pow_pos_nonneg; lia).
  set (h := Zpos qp / 2 ^ c) in *.
  pose proof (Z.div_mod (Zpos qp) (2 ^ c) ltac:(lia)) as Hdm2. fold h in Hdm2.
  pose proof (Z.mod_pos_bound (Zpos qp) (2 ^ c) Hpc) as Hmod2.
  set (a' := Zpos pa * 2 ^ (Zpos sp - c)).
  assert (Ha' : m' = a' * 2 ^ c).
  { unfold m', a'. rewrite <- Z.mul_assoc, <- Z.pow_add_r by lia. do 2 f_equal. lia. }
  assert (Hhb : h * Zpos pb <= a' < (h + 1) * Zpos pb).
  { split.
    - apply (Z.mul_le_mono_pos_r _ _ (2 ^ c) Hpc). nia.
    - apply (Z.mul_lt_mono_pos_r (2 ^ c) _ _ Hpc). nia. }
  destruct (Z.ltb_spec m1 (2 ^ 53)) as [Hlt | Hge].
  - replace (- Zpos sp + c <=? 971) with true by (symmetry; apply Z.leb_le; lia).
    exists (Z.to_pos m1), (- Zpos sp + c). cbn [is_infinite].
    assert (Hid : Zpos (Z.to_pos m1) = m1) by (apply Z2Pos.id; lia).
    split; [reflexivity|].
    split; [apply digits_unique; rewrite Hid; lia|].
    split; [unfold s in Es; lia|].
    rewrite Hid. replace (- (- Zpos sp + c)) with (Zpos sp - c) by lia. fold a'.
    destruct Hm1 as [-> | ->]; lia.
  - replace (- Zpos sp + c + 1 <=? 971) with true by (symmetry; apply Z.leb_le; lia).
    exists two52, (- Zpos sp + c + 1). cbn [is_infinite].
    split; [reflexivity|]. split; [reflexivity|].
    split; [unfold s in Es; lia|].
    assert (Hm1' : m1 = 2 ^ 53) by lia.
    assert (Hh' : h = 2 ^ 53 - 1) by lia.
    replace (- (- Zpos sp + c + 1)) with (Zpos sp - c - 1) by lia.
    assert (Ha'' : a' = 2 * (Zpos pa * 2 ^ (Zpos sp - c - 1))).
    { unfold a'.
      assert (Hp : 2 ^ (Zpos sp - c) = 2 * 2 ^ (Zpos sp - c - 1)).
      { rewrite <- Z.pow_succ_r by lia. f_equal. lia. }
      rewrite Hp. ring. }
    set (a'' := Zpos pa * 2 ^ (Zpos sp - c - 1)) in *.
    change (Zpos two52) with (2 ^ 52).
    change (2 ^ 53) with (2 * 2 ^ 52) in *. lia.
Qed.

(** [h * ratio] for an [int] below 2^53 and a double of 53 bits: the double
    nearest to the product of the two mantissas, within 2^53 of it on the
    scale of that product. *)
Lemma int_mul_float_ratio h M E :
  0 < h < 2 ^ 53 -> Zpos (digits2_pos M) = 53 -> -200 <= E < 0 ->
  exists Pm Ep c,
    int_mul_float h (S754_finite false M E) = Ok (S754_finite false Pm Ep) /\
    0 <= c /\ Ep = Zdigits2 h - 53 + E + c /\
    Z.abs (Zpos Pm * 2 ^ c - Zpos (mant h) * Zpos M) <= 2 ^ 53.
Proof.
  intros Hh HM HE.
  pose proof (digits_range h Hh) as Hr. pose proof (mant_digits h Hh) as Hmd.
  pose proof (digits_lower (mant h)) as Hl1. pose proof (digits_upper (mant h)) as Hu1.
  pose proof (digits_lower M) as Hl2. pose proof (digits_upper M) as Hu2.
  rewrite Hmd in Hl1, Hu1. rewrite HM in Hl2, Hu2.
  change (2 ^ (53 - 1)) with (2 ^ 52) in *.
  unfold int_mul_float. rewrite (float_of_int_scaled h Hh).
  cbn [mbind result_bind]. unfold scaled, fmul, SFmul. cbn [xorb].
  set (d := Zdigits2 h) in *. set (Mh := mant h) in *.
  replace (d - 53 - 10 * 0) with (d - 53) by lia.
  set (q := (Mh * M)%positive).
  assert (Hq : 2 ^ 104 <= Zpos q < 2 ^ 106).
  { unfold q. rewrite Pos2Z.inj_mul.
    change (2 ^ 104) with (2 ^ 52 * 2 ^ 52). change (2 ^ 106) with (2 ^ 53 * 2 ^ 53).
    split; nia. }
  pose proof (digits_lower q) as Hlq. pose proof (digits_upper q) as Huq.
  set (dq := Zpos (digits2_pos q)) in *.
  assert (Hdq : 105 <= dq <= 106).
  { split.
    - destruct (Z.le_gt_cases 105 dq) as [|Hlt]; [assumption|].
      assert (2 ^ dq <= 2 ^ 104) by (apply Z.pow_le_mono_r; unfold dq; lia). lia.
    - destruct (Z.le_gt_cases dq 106) as [|Hgt]; [assumption|].
      assert (2 ^ 106 <= 2 ^ (dq - 1)) by (apply Z.pow_le_mono_r; lia). lia. }
  destruct (bra_wide false q (d - 53 + E) loc_Exact) as (m1 & Hm1 & Hhb & Hres).
  { fold dq. lia. }
  { fold dq. lia. }
  fold dq in Hres, Hm1, Hhb. rewrite Hres. clear Hres.
  set (c := dq - 53) in *.
  assert (Hc : 52 <= c <= 53) by (unfold c; lia).
  assert (Hpc : 0 < 2 ^ c) by (apply Z.pow_pos_nonneg; lia).
  assert (Hpc53 : 2 ^ c <= 2 ^ 53) by (apply Z.pow_le_mono_r; lia).
  set (hq := Zpos q / 2 ^ c) in *.
  pose proof (Z.div_mod (Zpos q) (2 ^ c) ltac:(lia)) as Hdm. fold hq in Hdm.
  pose proof (Z.mod_pos_bound (Zpos q) (2 ^ c) Hpc) as Hmod.
  assert (Hqq : Zpos Mh * Zpos M = Zpos q) by (unfold q; now rewrite Pos2Z.inj_mul).
  rewrite Hqq.
  destruct (Z.ltb_spec m1 (2 ^ 53)) as [Hlt | Hge].
  - replace (d - 53 + E + c <=? 971) with true by (symmetry; apply Z.leb_le; lia).
    exists (Z.to_pos m1), (d - 53 + E + c), c. cbn [is_infinite].
    assert (Hid : Zpos (Z.to_pos m1) = m1) by (apply Z2Pos.id; lia).
    split; [reflexivity|]. split; [lia|]. split; [reflexivity|].
    rewrite Hid. destruct Hm1 as [-> | ->]; nia.
  - replace (d - 53 + E + c + 1 <=? 971) with true by (symmetry; apply Z.leb_le; lia).
    exists two52, (d - 53 + E + c + 1), (c + 1). cbn [is_infinite].
    split; [reflexivity|]. split; [lia|]. split; [lia|].
    assert (Hhq : hq = 2 ^ 53 - 1) by lia.
    rewrite (Z.pow_add_r 2 c 1) by lia. change (2 ^ 1) with 2.
    change (Zpos two52) with (2 ^ 52).
    change (2 ^ 53) with (2 * 2 ^ 52) in *. nia.
Qed.

(** The arithmetic of the truncation: an integer [N] on the scale [D] that
    is within [R < D] of [X * D / W] has its floor at [X / W], or one below
    when [W] divides [X]. *)
Lemma floor_of_close N D W X R z :
  0 < W -> 0 < D -> 0 <= R < D ->
  Z.abs (N * W - X * D) <= R ->
  z * D <= N < (z + 1) * D ->
  z = X / W \/ (z = X / W - 1 /\ X mod W = 0).
Proof.
  intros HW HD HR Habs Hz.
  pose proof (Z.div_mod X W ltac:(lia)) as Hdm.
  pose proof (Z.mod_pos_bound X W HW) as Hmod.
  set (k := X / W) in *. set (r := X mod W) in *.
  assert (Hup : N < (k + 1) * D).
  { apply (Z.mul_lt_mono_pos_r W _ _ HW).
    assert (N * W < X * D + D) by lia.
    assert ((r + 1) * D <= W * D) by (apply Z.mul_le_mono_nonneg_r; lia).
    nia. }
  assert (Hzk : z < k + 1).
  { apply (Z.mul_lt_mono_pos_r D _ _ HD). lia. }
  destruct (Z.eq_dec r 0) as [Hr0 | Hr0].
  - assert (Hlo : (k - 1) * D < N).
    { apply (Z.mul_lt_mono_pos_r W _ _ HW).
      assert (X * D - D < N * W) by lia.
      assert (D <= W * D) by nia. nia. }
    assert (k - 1 < z + 1).
    { apply (Z.mul_lt_mono_pos_r D _ _ HD). lia. }
    assert (z = k \/ z = k - 1) as [->| ->] by lia; [now left | right; auto].
  - assert (Hlo : k * D < N).
    { apply (Z.mul_lt_mono_pos_r W _ _ HW).
      assert (X * D - D < N * W) by lia.
      assert (1 * D <= r * D) by (apply Z.mul_le_mono_nonneg_r; lia).
      nia. }
    assert (k < z + 1).
    { apply (Z.mul_lt_mono_pos_r D _ _ HD). lia. }
    left. lia.
Qed.

End FloatFacts.

(** ** [human_size]: the unit and the printed figure *)

Module SizeClaims.
Import PyNum PyStr StatementDefs FloatFacts.

Lemma human_size_from_nearest units last n :
  0 <= n < 2 ^ 53 -> Z.of_nat (length units) <= 100 ->
  let k := (pick units last n 0).1 in
  exists t,
    HumanSize.human_size_from units last (PInt n)
    = Ok (fmt_tenths false t +:+ " " +:+ (pick units last n 0).2) /\
    0 <= t /\
    2 * Z.abs (10 * n - t * 1024 ^ k) <= 1024 ^ k /\
    (n < 1024 ^ (k + 1) -> t <= 10240).
Proof.
  intros Hn Hlen. destruct (Z.eq_dec n 0) as [-> | Hnz].
  - exists 0. destruct units as [|u units]; cbn; repeat split; lia.
  - apply human_size_of_positive; [lia | assumption].
Qed.

(** A loop of two to four units, on any count that does not overflow *)
Lemma human_size_from_spec u units last n :
  0 <= n < 2 ^ 1033 -> 1 <= Z.of_nat (length units) <= 3 ->
  let k := (pick (u :: units) last n 0).1 in
  exists t,
    HumanSize.human_size_from (u :: units) last (PInt n)
    = Ok (fmt_tenths false t +:+ " " +:+ (pick (u :: units) last n 0).2) /\
    0 <= t /\
    (n < 2 ^ 53 -> 2 * Z.abs (10 * n - t * 1024 ^ k) <= 1024 ^ k) /\
    (n < 2 ^ 63 -> Z.abs (10 * n - t * 1024 ^ k) < 1024 ^ k) /\
    (n < 1024 ^ (k + 1) -> t <= 10240).
Proof.
  intros Hn Hlen k.
  destruct (Z.lt_ge_cases n (2 ^ 53)) as [Hsmall | Hbig].
  - destruct (human_size_from_nearest (u :: units) last n ltac:(lia)
                ltac:(cbn [length]; lia)) as (t & Ht & Hpos & Hnear & Hmax).
    fold k in Hnear, Hmax.
    pose proof (pick_spec (u :: units) last n 0 ltac:(lia)) as (Hk & _). fold k in Hk.
    assert (HB : 0 < 1024 ^ k) by (apply Z.pow_pos_nonneg; lia).
    exists t. repeat split; auto; lia.
  - assert (H50 : 2 ^ 50 <= n).
    { assert (2 ^ 50 <= 2 ^ 53) by (apply Z.pow_le_mono_r; lia). lia. }
    assert (Hpick : pick (u :: units) last n 0
                    = (0 + Z.of_nat (length (u :: units)), last)).
    { apply pick_big; [lia|]. cbn [length].
      assert (1024 ^ (0 + Z.of_nat (S (length units))) <= 1024 ^ 5)
        by (apply Z.pow_le_mono_r; lia).
      change (1024 ^ 5) with (2 ^ 50) in *. lia. }
    destruct (human_size_from_big u units last n ltac:(lia) ltac:(lia))
      as (t & Ht & Hpos & Hnear).
    unfold k. rewrite Hpick. cbn [fst snd length].
    replace (0 + Z.of_nat (S (length units))) with (1 + Z.of_nat (length units)) by lia.
    exists t. split; [exact Ht|]. split; [exact Hpos|].
    split; [lia|]. split; [intros H63; apply Hnear; lia|].
    intros Hlt.
    assert (1024 ^ (1 + Z.of_nat (length units) + 1) <= 1024 ^ 5)
      by (apply Z.pow_le_mono_r; lia).
    change (1024 ^ 5) with (2 ^ 50) in *. lia.
Qed.

(** C7, as the code has it.  For a byte count [n] below 2^1033,
    [human_size] divides by 1024 from unit to unit until the value is below
    1024 or the units are used up ([k] divisions), and prints a number with
    one decimal followed by the unit.  The number is the one nearest to
    [n / 1024^k] when [n] is below 2^53, and within a tenth of it when [n] is
    below 2^63.  The value is below 1024 in every unit but the last; the
    printed figure is then at most 1024.0. *)
Theorem human_size_nearest_tenth n :
  0 <= n < 2 ^ 1033 ->
  let c := pick ["B"; "KB"; "MB"] "GB" n 0 in
  let r := pick ["B"; "KB"; "MB"; "GB"] "TB" n 0 in
  (exists t,
      CompressPng.human_size n = Ok (fmt_tenths false t +:+ " " +:+ c.2) /\
      CompressGif.human_size n = Ok (fmt_tenths false t +:+ " " +:+ c.2) /\
      0 <= t /\
      (n < 2 ^ 53 -> 2 * Z.abs (10 * n - t * 1024 ^ c.1) <= 1024 ^ c.1) /\
      (n < 2 ^ 63 -> Z.abs (10 * n - t * 1024 ^ c.1) < 1024 ^ c.1) /\
      (n < 1024 ^ (c.1 + 1) -> t <= 10240)) /\
  (exists t,
      ImageInfo.human_size n = Ok (fmt_tenths false t +:+ " " +:+ r.2) /\
      0 <= t /\
      (n < 2 ^ 53 -> 2 * Z.abs (10 * n - t * 1024 ^ r.1) <= 1024 ^ r.1) /\
      (n < 2 ^ 63 -> Z.abs (10 * n - t * 1024 ^ r.1) < 1024 ^ r.1) /\
      (n < 1024 ^ (r.1 + 1) -> t <= 10240)) /\
  ["B"; "KB"; "MB"; "GB"] !! Z.to_nat c.1 = Some c.2 /\
  (c.1 = 0 \/ 1024 ^ c.1 <= n) /\ (n < 1024 ^ (c.1 + 1) \/ c.1 = 3) /\
  ["B"; "KB"; "MB"; "GB"; "TB"] !! Z.to_nat r.1 = Some r.2 /\
  (r.1 = 0 \/ 1024 ^ r.1 <= n) /\ (n < 1024 ^ (r.1 + 1) \/ r.1 = 4).
Proof.
  intros Hn c r.
  destruct (human_size_from_spec "B" ["KB"; "MB"] "GB" n Hn ltac:(cbn; lia))
    as (t & Ht & Hpos & Hnear & Htenth & Hmax).
  destruct (human_size_from_spec "B" ["KB"; "MB"; "GB"] "TB" n Hn ltac:(cbn; lia))
    as (t' & Ht' & Hpos' & Hnear' & Htenth' & Hmax').
  pose proof (pick_spec ["B"; "KB"; "MB"] "GB" n 0 ltac:(lia)) as (Hk & Hu & Hlo & Hhi).
  pose proof (pick_spec ["B"; "KB"; "MB"; "GB"] "TB" n 0 ltac:(lia))
    as (Hk' & Hu' & Hlo' & Hhi').
  fold c in Ht, Hnear, Htenth, Hmax, Hk, Hu, Hlo, Hhi.
  fold r in Ht', Hnear', Htenth', Hmax', Hk', Hu', Hlo', Hhi'.
  rewrite Z.sub_0_r in Hu, Hu'. cbn [length] in Hhi, Hhi'.
  split; [exists t; auto 10|]. split; [exists t'; auto 10|].
  repeat split; auto; lia || (destruct Hhi; [left | right]; lia)
                      || (destruct Hhi'; [left | right]; lia).
Qed.

Lemma human_size_nearest_tenth_witness :
  0 <= 1536 < 2 ^ 1033 /\
  exists t,
    CompressGif.human_size 1536 = Ok (fmt_tenths false t +:+ " KB") /\
    2 * Z.abs (10 * 1536 - t * 1024) <= 1024.
Proof.
  assert (Hn : 0 <= 1536 < 2 ^ 1033) by (split; [lia | reflexivity]).
  split; [exact Hn|].
  destruct (human_size_nearest_tenth 1536 Hn) as ((t & _ & Ht & _ & Hnear & _) & _).
  exists t. split; [exact Ht | apply Hnear; reflexivity].
Defined.

(** C7 as stated fails on 1048575 bytes: the value 1023.999 is below 1024,
    so the unit is KB, which is not the last one, and the figure shown is
    1024.0.  It also fails on 2^1040, whose quotient by 1024 is beyond the
    range of doubles: the first division raises. *)
Lemma shown_magnitude_reaches_1024 :
  CompressPng.human_size 1048575 = Ok "1024.0 KB" /\
  CompressGif.human_size 1048575 = Ok "1024.0 KB" /\
  ImageInfo.human_size 1048575 = Ok "1024.0 KB" /\
  fmt_tenths false 10240 = "1024.0" /\
  ~ (10240 < 10 * 1024) /\
  CompressGif.human_size (2 ^ 1040) = Raise OverflowError.
Proof. repeat split; try (vm_compute; reflexivity). lia. Qed.

(** The two examples of the specification *)
Example human_size_1536 :
  CompressPng.human_size 1536 = Ok "1.5 KB" /\
  CompressGif.human_size 1536 = Ok "1.5 KB" /\
  ImageInfo.human_size 1536 = Ok "1.5 KB".
Proof. repeat split; vm_compute; reflexivity. Qed.

Example human_size_500 :
  CompressPng.human_size 500 = Ok "500.0 B" /\
  CompressGif.human_size 500 = Ok "500.0 B" /\
  ImageInfo.human_size 500 = Ok "500.0 B".
Proof. repeat split; vm_compute; reflexivity. Qed.

(** The last unit has no bound: 5 TiB in the compressors' GB *)
Example human_size_last_unit :
  CompressGif.human_size (5 * 1024 ^ 4) = Ok "5120.0 GB" /\
  ImageInfo.human_size (5 * 1024 ^ 4) = Ok "5.0 TB".
Proof. repeat split; vm_compute; reflexivity. Qed.

End SizeClaims.

(** * Further properties *)

(** ** Strings *)

Module StrFacts.
Import PyStr.

Lemma append_assoc (a b c : string) : (a +:+ b) +:+ c = a +:+ (b +:+ c).
Proof.
  induction a as [|x a IH]; [reflexivity|].
  change (String x ((a +:+ b) +:+ c) = String x (a +:+ (b +:+ c))). now rewrite IH.
Qed.

(** [a + s = b + s] only when [a = b] *)
Lemma append_inj_l (a b s : string) : a +:+ s = b +:+ s -> a = b.
Proof.
  revert b. induction a as [|x a IH]; intros [|y b] Heq.
  - reflexivity.
  - apply (f_equal String.length) in Heq.
    rewrite !append_length in Heq. cbn [String.length] in Heq. lia.
  - apply (f_equal String.length) in Heq.
    rewrite !append_length in Heq. cbn [String.length] in Heq. lia.
  - change (String x (a +:+ s) = String y (b +:+ s)) in Heq.
    injection Heq as -> Heq. f_equal. exact (IH _ Heq).
Qed.

(** Two strings that end differently are different. *)
Lemma append_suffix_inj (a b s t : string) :
  String.length s = String.length t -> a +:+ s = b +:+ t -> s = t.
Proof.
  intros Hlen. revert b. induction a as [|x a IH]; intros [|y b] Heq.
  - exact Heq.
  - apply (f_equal String.length) in Heq.
    rewrite !append_length in Heq. cbn [String.length] in Heq. lia.
  - apply (f_equal String.length) in Heq.
    rewrite !append_length in Heq. cbn [String.length] in Heq. lia.
  - change (String x (a +:+ s) = String y (b +:+ t)) in Heq.
    injection Heq as _ Heq. exact (IH _ Heq).
Qed.

Lemma lower_append (a b : string) : lower (a +:+ b) = lower a +:+ lower b.
Proof.
  induction a as [|x a IH]; [reflexivity|].
  change (String (lower_ascii x) (lower (a +:+ b))
          = String (lower_ascii x) (lower a +:+ lower b)).
  now rewrite IH.
Qed.

Lemma lower_length (s : string) : String.length (lower s) = String.length s.
Proof. induction s as [|c s IH]; [reflexivity|]. cbn [lower String.length]. now rewrite IH. Qed.

Lemma substring_all (s : string) : substring 0 (String.length s) s = s.
Proof. induction s as [|c s IH]; [reflexivity|]. cbn [String.length substring]. now rewrite IH. Qed.

Lemma substring_append_suffix (a s : string) :
  substring (String.length a) (String.length s) (a +:+ s) = s.
Proof.
  induction a as [|x a IH]; [apply substring_all|].
  change (String x a +:+ s) with (String x (a +:+ s)).
  cbn [String.length substring]. exact IH.
Qed.

Lemma suffix_of_append (a s : string) :
  substring (String.length (a +:+ s) - String.length s) (String.length s) (a +:+ s) = s.
Proof.
  rewrite append_length.
  replace (String.length a + String.length s - String.length s)%nat
    with (String.length a) by lia.
  apply substring_append_suffix.
Qed.

(** A name that ends with [suffix] passes [endswith]. *)
Lemma endswith_append (a s : string) : endswith (a +:+ s) s = true.
Proof.
  unfold endswith. rewrite suffix_of_append, String.eqb_refl, append_length.
  rewrite Bool.andb_true_r. apply Nat.leb_le. lia.
Qed.

End StrFacts.

(** ** The files a script lists, the lines it prints *)

Module Listing.
Import PyStr RunDefs.

(** [sorted(f for f in os.listdir(STATIC_DIR) if keep(f))] lists the
    files of the directory that pass the test, and only them. *)
Lemma elem_of_listing (keep : string -> bool) (w : world) (f : string) :
  f ∈ sorted (List.filter keep ((map_to_list (files w)).*1))
  <-> keep f = true /\ is_Some (files w !! f).
Proof.
  unfold sorted. rewrite merge_sort_Permutation.
  rewrite list_elem_of_In, filter_In, <- list_elem_of_In.
  rewrite list_elem_of_fmap. split.
  - intros [([f' b] & -> & Hin) Hk]. apply elem_of_map_to_list in Hin.
    split; [exact Hk|]. cbn. eauto.
  - intros [Hk [b Hb]]. split; [|exact Hk].
    exists (f, b). split; [reflexivity|]. now apply elem_of_map_to_list.
Qed.

Lemma listing_nil (keep : string -> bool) (w : world) :
  (forall f, is_Some (files w !! f) -> keep f = false) ->
  sorted (List.filter keep ((map_to_list (files w)).*1)) = [].
Proof.
  intros Hno.
  destruct (sorted (List.filter keep ((map_to_list (files w)).*1))) as [|f fs] eqn:E;
    [reflexivity|].
  assert (Hin : f ∈ sorted (List.filter keep ((map_to_list (files w)).*1)))
    by (rewrite E; left).
  apply elem_of_listing in Hin as [Hk Hs]. rewrite (Hno f Hs) in Hk. discriminate.
Qed.

Lemma listing_NoDup (keep : string -> bool) (w : world) :
  NoDup (sorted (List.filter keep ((map_to_list (files w)).*1))).
Proof.
  unfold sorted. rewrite merge_sort_Permutation.
  apply NoDup_ListNoDup, List.NoDup_filter, NoDup_ListNoDup, NoDup_fst_map_to_list.
Qed.

Lemma sizes_sum_cons w f fs b :
  files w !! f = Some b -> sizes_sum w (f :: fs) = Z.of_nat (length b) + sizes_sum w fs.
Proof. intros Hb. unfold sizes_sum. cbn [foldr]. now rewrite Hb. Qed.

Lemma sizes_sum_ext w1 w2 fs :
  (forall f, f ∈ fs -> files w1 !! f = files w2 !! f) ->
  sizes_sum w1 fs = sizes_sum w2 fs.
Proof.
  induction fs as [|g fs IH]; intros Heq; [reflexivity|].
  unfold sizes_sum in *. cbn [foldr].
  rewrite (Heq g) by left. rewrite IH by (intros f Hf; apply Heq; now right).
  reflexivity.
Qed.

(** [print] appends one line and touches no file. *)
Lemma print_ok line w u w1 :
  Os.print line w = Ok (u, w1) -> w1 = World (files w) (stdout w ++ [line])%list.
Proof. unfold Os.print. now intros [= _ <-]. Qed.

End Listing.
(** ** The proportional height against the exact quotient *)

Module ResizeMore.
Import PyNum PyStr StatementDefs FloatFacts ResizeClaims.

(** [int(h * (b / w))] against the exact quotient [h * b / w], for a bound
    below the width and a product [h * b] of at most 2^49: the floor of the
    quotient, or one below it when [w] divides [h * b]. *)
Lemma scaled_height_floor b w h :
  0 < b < w -> w < 2 ^ 64 -> 0 <= h -> h * b <= 2 ^ 49 ->
  exists new_h,
    Resize.scaled_height b w h = Ok new_h /\
    0 <= new_h /\
    (new_h = h * b / w \/ (new_h = h * b / w - 1 /\ (h * b) mod w = 0)).
Proof.
  intros Hb Hw Hh Hhb.
  destruct (int_truediv_ratio b w) as (M & E & Hdiv & HM & HE & Hclose); try lia.
  unfold Resize.scaled_height. rewrite Hdiv. cbn [mbind result_bind].
  destruct (Z.eq_dec h 0) as [-> | Hh0].
  { exists 0. split; [reflexivity|]. split; [lia|]. left. reflexivity. }
  assert (Hh53 : 0 < h < 2 ^ 53).
  { split; [lia|]. assert (h <= h * b) by nia.
    assert (2 ^ 49 < 2 ^ 53) by (apply Z.pow_lt_mono_r; lia). lia. }
  destruct (int_mul_float_ratio h M E Hh53 HM HE) as (Pm & Ep & c & Hmul & Hc & HEp & Hprod).
  rewrite Hmul. cbn [mbind result_bind].
  assert (Hi : exists z, int_of_float (S754_finite false Pm Ep) = Ok z)
    by (cbn [int_of_float]; eauto).
  destruct Hi as [z Hi]. exists z. split; [exact Hi|].
  destruct (int_of_float_truncates _ _ Hi) as (Hz0 & Hlo & Hhi).
  split; [exact Hz0|].
  rewrite Z.abs_eq in Hlo, Hhi by exact Hz0.
  pose proof (digits_range h Hh53) as Hr. pose proof (mant_digits h Hh53) as Hmd.
  pose proof (mant_eq h Hh53) as Hme.
  pose proof (digits_lower (mant h)) as Hl1. pose proof (digits_upper (mant h)) as Hu1.
  pose proof (digits_lower M) as Hl2.
  rewrite Hmd in Hl1, Hu1. rewrite HM in Hl2.
  change (2 ^ (53 - 1)) with (2 ^ 52) in *.
  set (d := Zdigits2 h) in *.
  set (G := 2 ^ (53 - d)) in *. set (A := 2 ^ (- E)) in *.
  set (Mh := Zpos (mant h)) in *. set (Mz := Zpos M) in *.
  set (N := Zpos Pm * 2 ^ c) in *.
  set (T := 2 ^ 52) in *.
  assert (HT53 : 2 ^ 53 = 2 * T) by reflexivity.
  assert (HT49 : 8 * 2 ^ 49 = T) by reflexivity.
  assert (HT64 : 2 ^ 64 = 4096 * T) by reflexivity.
  assert (HT : 8 <= T) by (unfold T; lia).
  rewrite HT53 in *. clear HT53. clearbody T.
  assert (HG : 0 < G) by (apply Z.pow_pos_nonneg; lia).
  assert (HA : 0 < A) by (apply Z.pow_pos_nonneg; lia).
  assert (HD : 2 ^ (53 - d - E) = G * A).
  { unfold G, A. rewrite <- Z.pow_add_r by lia. f_equal; lia. }
  apply (floor_of_close N (G * A) w (h * b) ((Mh + 2 * T) * w) z).
  - lia.
  - apply Z.mul_pos_pos; lia.
  - split; [apply Z.mul_nonneg_nonneg; lia|].
    apply (Z.mul_lt_mono_pos_r (h * b)); [apply Z.mul_pos_pos; lia|].
    apply Z.abs_le in Hclose.
    assert (H1 : Mh * ((Mz - 1) * w) <= Mh * (b * A))
      by (apply Z.mul_le_mono_nonneg_l; lia).
    assert (H2 : T * ((T - 1) * w) <= Mh * ((Mz - 1) * w)).
    { apply Z.mul_le_mono_nonneg; [lia | lia | apply Z.mul_nonneg_nonneg; lia |].
      apply Z.mul_le_mono_nonneg_r; lia. }
    assert (H3 : (Mh + 2 * T) * w * (h * b) <= (Mh + 2 * T) * w * 2 ^ 49)
      by (apply Z.mul_le_mono_nonneg_l; [apply Z.mul_nonneg_nonneg; lia | lia]).
    assert (H4 : (Mh + 2 * T) * w * (8 * 2 ^ 49) < (4 * T) * w * (8 * 2 ^ 49)).
    { apply Z.mul_lt_mono_pos_r; [lia|]. apply Z.mul_lt_mono_pos_r; lia. }
    rewrite HT49 in H4.
    replace (G * A * (h * b)) with (Mh * (b * A)) by (rewrite Hme; ring).
    assert (H5 : 4 * T * w * T <= 8 * (T * ((T - 1) * w))).
    { replace (4 * T * w * T) with ((4 * T) * (T * w)) by ring.
      replace (8 * (T * ((T - 1) * w))) with ((8 * (T - 1)) * (T * w)) by ring.
      apply Z.mul_le_mono_nonneg_r; [apply Z.mul_nonneg_nonneg; lia | lia]. }
    assert (H6 : (Mh + 2 * T) * w * 2 ^ 49 * 8 < 8 * (Mh * (b * A))).
    { replace ((Mh + 2 * T) * w * 2 ^ 49 * 8) with ((Mh + 2 * T) * w * (8 * 2 ^ 49)) by ring.
      rewrite HT49. lia. }
    lia.
  - apply Z.abs_le in Hclose. apply Z.abs_le in Hprod. apply Z.abs_le.
    replace (N * w - h * b * (G * A))
      with ((N - Mh * Mz) * w + Mh * (Mz * w - b * A)) by (rewrite Hme; ring).
    assert (Mh * - w <= Mh * (Mz * w - b * A) <= Mh * w)
      by (split; apply Z.mul_le_mono_nonneg_l; lia).
    assert (- (2 * T) * w <= (N - Mh * Mz) * w <= 2 * T * w)
      by (split; apply Z.mul_le_mono_nonneg_r; lia).
    lia.
  - set (U := 2 ^ Z.max 0 (- Ep)) in *. set (V := 2 ^ Z.max 0 Ep) in *.
    assert (HU : 0 < U) by (apply Z.pow_pos_nonneg; lia).
    assert (HVD : V * (G * A) = 2 ^ c * U).
    { rewrite <- HD. unfold V, U. rewrite <- !Z.pow_add_r by lia. f_equal; lia. }
    assert (HN : Zpos Pm * V * (G * A) = N * U).
    { unfold N. rewrite <- Z.mul_assoc, HVD. ring. }
    split.
    + apply (Z.mul_le_mono_pos_r _ _ U HU).
      rewrite <- HN.
      replace (z * (G * A) * U) with (z * U * (G * A)) by ring.
      apply Z.mul_le_mono_nonneg_r; [apply Z.mul_nonneg_nonneg; lia | exact Hlo].
    + apply (Z.mul_lt_mono_pos_r U _ _ HU).
      rewrite <- HN.
      replace ((z + 1) * (G * A) * U) with ((z + 1) * U * (G * A)) by ring.
      apply Z.mul_lt_mono_pos_r; [apply Z.mul_pos_pos; lia | exact Hhi].
Qed.

(** X1.  For a positive bound below the width (widths below 2^64), a
    height that is not negative and a product [height * bound] of at most
    2^49, the height that both compressors compute exists and is the floor
    of the exact quotient [height * bound / width], or one below that floor,
    which can only happen when the division is exact.  It is never negative,
    never above the original height, and it is 0 when
    [height * bound < width]. *)
Theorem resize_height_is_floor (max_width w h : Z) :
  0 < max_width < w -> w < 2 ^ 64 -> 0 <= h -> h * max_width <= 2 ^ 49 ->
  exists new_h,
    Resize.scaled_height max_width w h = Ok new_h /\
    0 <= new_h <= h /\
    (new_h = h * max_width / w \/
     (new_h = h * max_width / w - 1 /\ (h * max_width) mod w = 0)) /\
    (h * max_width < w -> new_h = 0).
Proof.
  intros Hb Hw Hh Hhb.
  destruct (scaled_height_floor max_width w h Hb Hw Hh Hhb) as (z & Hz & Hz0 & Hfl).
  exists z. split; [exact Hz|].
  assert (Hk : 0 <= h * max_width / w <= h).
  { split; [apply Z.div_pos; [apply Z.mul_nonneg_nonneg|]; lia|].
    apply Z.div_le_upper_bound; [lia|].
    rewrite (Z.mul_comm w h). apply Z.mul_le_mono_nonneg_l; lia. }
  split; [lia|]. split; [exact Hfl|].
  intros Hflat. rewrite Z.div_small in Hfl by (split; [apply Z.mul_nonneg_nonneg|]; lia).
  lia.
Qed.

(** 1500x1000 at the bound 1000: the floor of 666.67 *)
Lemma resize_height_is_floor_witness :
  0 < 1000 < 1500 /\ 1500 < 2 ^ 64 /\ 0 <= 1000 /\ 1000 * 1000 <= 2 ^ 49 /\
  exists new_h,
    Resize.scaled_height 1000 1500 1000 = Ok new_h /\
    0 <= new_h <= 1000 /\
    (new_h = 1000 * 1000 / 1500 \/
     (new_h = 1000 * 1000 / 1500 - 1 /\ (1000 * 1000) mod 1500 = 0)) /\
    (1000 * 1000 < 1500 -> new_h = 0).
Proof.
  assert (H1 : 0 < 1000 < 1500) by lia.
  assert (H2 : 1500 < 2 ^ 64) by (vm_compute; reflexivity).
  assert (H3 : 0 <= 1000) by lia.
  assert (H4 : 1000 * 1000 <= 2 ^ 49) by (vm_compute; discriminate).
  do 4 (split; [assumption|]).
  exact (resize_height_is_floor 1000 1500 1000 H1 H2 H3 H4).
Defined.

(** The floor is missed when the quotient is exact and the double of
    [1 / 49] is below it. *)
Example resize_height_below_floor :
  Resize.scaled_height 1 49 49 = Ok 0 /\ 49 * 1 / 49 = 1 /\ (49 * 1) mod 49 = 0.
Proof. repeat split; vm_compute; reflexivity. Qed.

End ResizeMore.

(** ** [human_size]: small and negative counts, and the three copies *)

Module SizeMore.
Import PyNum PyStr StatementDefs FloatFacts StrFacts.

(** [float(n)] for [-2^53 < n < 0]: the double of [-n] with the sign set *)
Lemma float_of_int_neg p :
  Zpos p < 2 ^ 53 ->
  float_of_int (Zneg p)
  = Ok (S754_finite true (mant (Zpos p)) (Zdigits2 (Zpos p) - 53)).
Proof.
  intros Hp. assert (Hn : 0 < Zpos p < 2 ^ 53) by lia.
  pose proof (digits_range _ Hn) as Hr. pose proof (mant_digits _ Hn) as Hmd.
  pose proof (mant_eq _ Hn) as Hme.
  cbn [Zdigits2] in *. set (d := Zpos (digits2_pos p)) in *.
  unfold float_of_int, binary_normalize, binary_round, shl_align.
  fold d.
  replace (fexp prec emax (d + 0)) with (d - 53)
    by (unfold fexp, emin, prec, emax; lia).
  destruct (d - 53 - 0) as [|k|k] eqn:Hk; [| lia |].
  - assert (Hm : mant (Zpos p) = p).
    { apply Pos2Z.inj. rewrite Hme. replace (53 - d) with 0 by lia. cbn. lia. }
    rewrite Hm in *. rewrite bra_exact by (fold d; lia).
    cbn. do 2 f_equal; lia.
  - assert (Hm : mant (Zpos p) = Pos.iter xO p k).
    { apply Pos2Z.inj. rewrite Hme, iter_xO_mul. do 2 f_equal. lia. }
    rewrite <- Hm. rewrite bra_exact by (try exact Hmd; lia).
    cbn. do 2 f_equal; lia.
Qed.

(** The tenths of an integer below 2^53 are ten times the integer. *)
Lemma tenths_of_int n :
  0 < n < 2 ^ 53 -> tenths (mant n) (Zdigits2 n - 53) = 10 * n.
Proof.
  intros Hn. pose proof (tenths_scaled n Hn 0 ltac:(lia)) as Ht.
  replace (Zdigits2 n - 53 - 10 * 0) with (Zdigits2 n - 53) in Ht by lia.
  change (1024 ^ 0) with 1 in Ht. lia.
Qed.

Lemma fmt_tenths_int s n :
  0 <= n -> fmt_tenths s (10 * n) = (if s then "-" else "") +:+ str_of_int n +:+ ".0".
Proof.
  intros Hn. unfold fmt_tenths.
  rewrite (Z.mul_comm 10 n), Z.div_mul, Z.mod_mul by lia. reflexivity.
Qed.

Lemma format_int_1f n :
  - 2 ^ 53 < n < 2 ^ 53 -> format_num_1f (PInt n) = Ok (str_of_int n +:+ ".0").
Proof.
  intros Hn. cbn [format_num_1f]. destruct n as [|p|p].
  - reflexivity.
  - rewrite (float_of_int_scaled (Zpos p)) by lia. cbn [mbind result_bind].
    unfold scaled, format_1f.
    replace (Zdigits2 (Zpos p) - 53 - 10 * 0) with (Zdigits2 (Zpos p) - 53) by lia.
    rewrite tenths_of_int by lia. rewrite fmt_tenths_int by lia. reflexivity.
  - rewrite float_of_int_neg by lia. cbn [mbind result_bind]. unfold format_1f.
    rewrite tenths_of_int by lia. rewrite fmt_tenths_int by lia. reflexivity.
Qed.

Lemma human_size_from_small u units last n :
  - 2 ^ 53 < n < 1024 ->
  HumanSize.human_size_from (u :: units) last (PInt n)
  = Ok (str_of_int n +:+ ".0 " +:+ u).
Proof.
  intros Hn. cbn [HumanSize.human_size_from lt_int].
  replace (n <? 1024) with true by (symmetry; apply Z.ltb_lt; lia).
  rewrite format_int_1f by (assert (1024 < 2 ^ 53) by reflexivity; lia).
  cbn [mbind result_bind]. rewrite append_assoc. reflexivity.
Qed.

(** X2.  A byte count below 1024 is printed as it is, with [.0] and the
    unit [B], by the three copies of [human_size]; this includes every
    negative count above -2^53, whatever its magnitude: the loop tests
    [size_bytes < 1024], which a negative number always passes. *)
Theorem human_size_below_1024 n :
  - 2 ^ 53 < n < 1024 ->
  CompressPng.human_size n = Ok (str_of_int n +:+ ".0 B") /\
  CompressGif.human_size n = Ok (str_of_int n +:+ ".0 B") /\
  ImageInfo.human_size n = Ok (str_of_int n +:+ ".0 B").
Proof.
  intros Hn. repeat split; apply (human_size_from_small "B"); exact Hn.
Qed.

(** A re-encoded PNG that grew by 5 MB: the saving is printed in bytes. *)
Lemma human_size_below_1024_witness :
  - 2 ^ 53 < -5242880 < 1024 /\
  CompressPng.human_size (-5242880) = Ok "-5242880.0 B".
Proof.
  assert (H1 : - 2 ^ 53 < -5242880 < 1024) by (split; vm_compute; reflexivity).
  split; [exact H1|].
  exact (proj1 (human_size_below_1024 (-5242880) H1)).
Defined.

(** X3.  The two compressors share one [human_size]; the reporter's copy
    has one more unit.  Below 1024^4 bytes the three print the same text;
    from there on (and below 2^53) the compressors print gigabytes, 1024.0 GB
    or more, where the reporter prints terabytes. *)
Theorem human_size_copies_agree n :
  CompressGif.human_size n = CompressPng.human_size n /\
  (n < 1024 ^ 4 -> ImageInfo.human_size n = CompressPng.human_size n) /\
  (1024 ^ 4 <= n < 2 ^ 53 ->
   CompressPng.human_size n = Ok (format_1f (scaled n 3) +:+ " GB") /\
   ImageInfo.human_size n = Ok (format_1f (scaled n 4) +:+ " TB") /\
   ImageInfo.human_size n <> CompressPng.human_size n).
Proof.
  split; [reflexivity|]. split.
  - intros Hn. unfold ImageInfo.human_size, CompressPng.human_size.
    destruct (Z.ltb_spec n 1024) as [Hs | Hb].
    + cbn [HumanSize.human_size_from lt_int].
      replace (n <? 1024) with true by (symmetry; apply Z.ltb_lt; lia). reflexivity.
    + assert (H53 : 0 < n < 2 ^ 53).
      { assert (1024 ^ 4 < 2 ^ 53) by reflexivity. lia. }
      rewrite !(human_size_from_int n H53) by (cbn; lia).
      cbn [pick]. change (0 + 1) with 1. change (1 + 1) with 2.
      change (2 + 1) with 3. change (3 + 1) with 4.
      destruct (n <? 1024 ^ 1); [reflexivity|].
      destruct (n <? 1024 ^ 2); [reflexivity|].
      destruct (n <? 1024 ^ 3); [reflexivity|].
      replace (n <? 1024 ^ 4) with true by (symmetry; apply Z.ltb_lt; lia).
      reflexivity.
  - intros Hn.
    assert (H53 : 0 < n < 2 ^ 53) by (assert (0 < 1024 ^ 4) by reflexivity; lia).
    assert (H1 : 1024 ^ 1 <= n) by (assert (1024 ^ 1 <= 1024 ^ 4) by (vm_compute; discriminate); lia).
    assert (H2 : 1024 ^ 2 <= n) by (assert (1024 ^ 2 <= 1024 ^ 4) by (vm_compute; discriminate); lia).
    assert (H3 : 1024 ^ 3 <= n) by (assert (1024 ^ 3 <= 1024 ^ 4) by (vm_compute; discriminate); lia).
    assert (Hp : pick ["B"; "KB"; "MB"] "GB" n 0 = (3, "GB")).
    { cbn [pick]. change (0 + 1) with 1. change (1 + 1) with 2. change (2 + 1) with 3.
      replace (n <? 1024 ^ 1) with false by (symmetry; apply Z.ltb_ge; lia).
      replace (n <? 1024 ^ 2) with false by (symmetry; apply Z.ltb_ge; lia).
      replace (n <? 1024 ^ 3) with false by (symmetry; apply Z.ltb_ge; lia).
      reflexivity. }
    assert (Hi : pick ["B"; "KB"; "MB"; "GB"] "TB" n 0 = (4, "TB")).
    { cbn [pick]. change (0 + 1) with 1. change (1 + 1) with 2. change (2 + 1) with 3.
      change (3 + 1) with 4.
      replace (n <? 1024 ^ 1) with false by (symmetry; apply Z.ltb_ge; lia).
      replace (n <? 1024 ^ 2) with false by (symmetry; apply Z.ltb_ge; lia).
      replace (n <? 1024 ^ 3) with false by (symmetry; apply Z.ltb_ge; lia).
      replace (n <? 1024 ^ 4) with false by (symmetry; apply Z.ltb_ge; lia).
      reflexivity. }
    assert (HP : CompressPng.human_size n = Ok (format_1f (scaled n 3) +:+ " GB")).
    { unfold CompressPng.human_size. rewrite (human_size_from_int n H53) by (cbn; lia).
      rewrite Hp. reflexivity. }
    assert (HI : ImageInfo.human_size n = Ok (format_1f (scaled n 4) +:+ " TB")).
    { unfold ImageInfo.human_size. rewrite (human_size_from_int n H53) by (cbn; lia).
      rewrite Hi. reflexivity. }
    split; [exact HP|]. split; [exact HI|].
    rewrite HP, HI. intros [= Heq].
    apply append_suffix_inj in Heq; [discriminate | reflexivity].
Qed.

Lemma human_size_copies_agree_witness :
  1536 < 1024 ^ 4 /\
  1024 ^ 4 <= 5 * 1024 ^ 4 < 2 ^ 53 /\
  ImageInfo.human_size 1536 = CompressPng.human_size 1536 /\
  ImageInfo.human_size (5 * 1024 ^ 4) <> CompressPng.human_size (5 * 1024 ^ 4).
Proof.
  assert (H1 : 1536 < 1024 ^ 4) by (vm_compute; reflexivity).
  assert (H2 : 1024 ^ 4 <= 5 * 1024 ^ 4 < 2 ^ 53)
    by (split; [vm_compute; discriminate | vm_compute; reflexivity]).
  split; [exact H1|]. split; [exact H2|]. split.
  - exact (proj1 (proj2 (human_size_copies_agree 1536)) H1).
  - exact (proj2 (proj2 (proj2 (proj2 (human_size_copies_agree (5 * 1024 ^ 4))) H2))).
Defined.

End SizeMore.

(** ** [compress_gif.py]: the whole run *)

Module GifMore.
Import PyNum PyStr CompressGif GifFacts RunDefs StrFacts Listing.

(** A temporary path is not the name of a GIF. *)
Lemma tmp_not_target (f : string) : is_target (f +:+ ".tmp") = false.
Proof.
  unfold is_target, endswith. rewrite lower_append.
  change (lower ".tmp") with ".tmp". rewrite append_length.
  change (String.length ".tmp") with 4%nat. change (String.length ".gif") with 4%nat.
  replace (String.length (lower f) + 4 - 4)%nat with (String.length (lower f)) by lia.
  pose proof (substring_append_suffix (lower f) ".tmp") as Hs.
  change (String.length ".tmp") with 4%nat in Hs. rewrite Hs.
  now rewrite Bool.andb_false_r.
Qed.

Section WithTools.
Context `{Pillow} `{Gifsicle}.

(** What a returning call changes: the file, its temporary sibling, and
    nothing else. *)
Lemma compress_gif_frame filepath max_width lossy colors w r w' :
  compress_gif filepath max_width lossy colors w = Ok (r, w') ->
  stdout w' = stdout w /\
  0 <= r.1.1.1.2 <= r.1.1.1.1 /\
  is_Some (files w !! filepath) /\
  is_Some (files w' !! filepath) /\
  files w' !! (filepath +:+ ".tmp") = None /\
  (forall p, p <> filepath -> p <> filepath +:+ ".tmp" -> files w' !! p = files w !! p).
Proof.
  destruct r as [[[[old_size new_size] old_dims] new_dims] err]. intros Hc.
  destruct (compress_gif_inv _ _ _ _ _ _ _ _ _ _ _ Hc)
    as (orig & img & extra & r & w1 & Horig & Hdec & Hos & Hod & Hx & Hrun
        & Hframe & Hstd & Hcases).
  set (tmp := filepath +:+ ".tmp") in *.
  assert (Hne : filepath <> tmp) by (intros E; symmetry in E; exact (tmp_neq _ E)).
  cbn [fst snd].
  assert (Hdel : files w' = delete tmp (files w1) ->
    is_Some (files w' !! filepath) /\ files w' !! tmp = None /\
    (forall p, p <> filepath -> p <> tmp -> files w' !! p = files w !! p)).
  { intros ->. split; [|split].
    - rewrite lookup_delete_ne by (intros E; exact (Hne (eq_sym E))).
      rewrite (Hframe _ Hne), Horig. eauto.
    - apply lookup_delete_eq.
    - intros p _ Hp. rewrite lookup_delete_ne by (intros E; exact (Hp (eq_sym E))).
      now apply Hframe. }
  split; [exact Hstd|].
  destruct Hcases as [(Hrc & Hns & Hnd & Herr & Hf)
                     |(Hrc & Herr & out & Hout & [(Hlt & Hns & Hf & Himg)|(Hge & Hns & Hf & Hnd)])].
  - split; [lia|]. split; [rewrite Horig; eauto|]. now apply Hdel.
  - split; [lia|]. split; [rewrite Horig; eauto|].
    rewrite Hf. split; [rewrite lookup_insert_eq; eauto|]. split.
    + rewrite lookup_insert_ne by assumption. apply lookup_delete_eq.
    + intros p Hp Hpt. rewrite lookup_insert_ne by (intros E; exact (Hp (eq_sym E))).
      rewrite lookup_delete_ne by (intros E; exact (Hpt (eq_sym E))).
      now apply Hframe.
  - split; [lia|]. split; [rewrite Horig; eauto|]. now apply Hdel.
Qed.

(** One iteration of the loop of [main] *)
Lemma gif_loop_cons_inv f fs' max_width lossy colors totals w r w' :
  loop (f :: fs') max_width lossy colors totals w = Ok (r, w') ->
  exists old_sz new_sz old_d new_d err w1 line,
    compress_gif f max_width lossy colors w = Ok ((old_sz, new_sz, old_d, new_d, err), w1) /\
    row f old_sz new_sz old_d new_d err = Ok line /\
    loop fs' max_width lossy colors (totals.1 + old_sz, totals.2 + new_sz)
      (World (files w1) (stdout w1 ++ [line])%list) = Ok (r, w').
Proof.
  cbn [loop]. intros Hl.
  apply io_bind_ok in Hl as ([[[[old_sz new_sz] old_d] new_d] err] & w1 & Hc & Hl).
  apply io_bind_ok in Hl as (line & w2 & Hrow & Hl).
  apply lift_ok in Hrow as (Hrow & ->).
  apply io_bind_ok in Hl as (u & w3 & Hp & Hl).
  apply print_ok in Hp as ->.
  exists old_sz, new_sz, old_d, new_d, err, w1, line. auto.
Qed.

(** What the loop changes: the files it is given and their temporary
    siblings. *)
Lemma gif_loop_frame fs max_width lossy colors totals w r w' :
  loop fs max_width lossy colors totals w = Ok (r, w') ->
  (forall p, (forall f, f ∈ fs -> p <> f /\ p <> f +:+ ".tmp") ->
             files w' !! p = files w !! p) /\
  (forall p, (forall f, f ∈ fs -> p <> f +:+ ".tmp") ->
             is_Some (files w !! p) -> is_Some (files w' !! p)).
Proof.
  revert totals w. induction fs as [|g fs IH]; intros totals w Hl.
  - injection Hl as _ <-. auto.
  - apply gif_loop_cons_inv in Hl
      as (old_sz & new_sz & old_d & new_d & err & w1 & line & Hc & _ & Hl).
    apply compress_gif_frame in Hc as (_ & _ & _ & Hkept & _ & Hframe).
    apply IH in Hl as [IH1 IH2]. cbn [files] in IH1, IH2. split.
    + intros p Hp. rewrite IH1 by (intros f Hf; apply Hp; now right).
      destruct (Hp g ltac:(left)) as [Hg Hgt]. now apply Hframe.
    + intros p Hp Hsome. apply IH2; [intros f Hf; apply Hp; now right|].
      destruct (decide (p = g)) as [-> | Hg]; [exact Hkept|].
      rewrite Hframe; [exact Hsome | exact Hg | apply Hp; left].
Qed.

(** No temporary sibling is left behind by the loop. *)
Lemma gif_loop_no_tmp fs max_width lossy colors totals w r w' :
  loop fs max_width lossy colors totals w = Ok (r, w') ->
  (forall f g, f ∈ fs -> g ∈ fs -> g <> f +:+ ".tmp") ->
  forall f, f ∈ fs -> files w' !! (f +:+ ".tmp") = None.
Proof.
  revert totals w. induction fs as [|g fs IH]; intros totals w Hl Hfs f Hf.
  - inversion Hf.
  - apply gif_loop_cons_inv in Hl
      as (old_sz & new_sz & old_d & new_d & err & w1 & line & Hc & _ & Hl).
    apply compress_gif_frame in Hc as (_ & _ & _ & _ & Htmp & _).
    assert (Hfs' : forall f g, f ∈ fs -> g ∈ fs -> g <> f +:+ ".tmp")
      by (intros f' g' Hf' Hg'; apply Hfs; now right).
    destruct (decide (f ∈ fs)) as [Hin | Hnin].
    + exact (IH _ _ Hl Hfs' f Hin).
    + assert (f = g) as -> by (inversion Hf; [reflexivity | contradiction]).
      apply gif_loop_frame in Hl as [Hframe _]. cbn [files] in Hframe.
      rewrite Hframe; [exact Htmp|].
      intros f' Hf'. split.
      * intros E. apply (Hfs g f'); [left | now right | now symmetry].
      * intros E. apply append_inj_l in E. subst f'. contradiction.
Qed.

(** X4.  The totals of the GIF compressor: each file adds its old size to
    the first and a new size between 0 and the old size to the second, so
    the saving that the summary line prints is never negative; and the
    loop prints one row per file. *)
Theorem gif_savings_never_negative fs max_width lossy colors totals w
    total_old total_new w' :
  loop fs max_width lossy colors totals w = Ok ((total_old, total_new), w') ->
  totals.2 <= total_new /\
  total_new - totals.2 <= total_old - totals.1 /\
  length (stdout w') = (length (stdout w) + length fs)%nat.
Proof.
  revert totals w. induction fs as [|g fs IH]; intros totals w Hl.
  - destruct totals as [t1 t2]. injection Hl as <- <- <-. cbn. lia.
  - apply gif_loop_cons_inv in Hl
      as (old_sz & new_sz & old_d & new_d & err & w1 & line & Hc & _ & Hl).
    apply compress_gif_frame in Hc as (Hstd & Hsz & _). cbn [fst snd] in Hsz.
    apply IH in Hl as (H1 & H2 & H3). cbn [fst snd stdout] in H1, H2, H3.
    rewrite length_app, Hstd in H3. cbn [length] in *. lia.
Qed.

(** What a returning run of [main] did *)
Lemma gif_main_inv max_width lossy colors w w' :
  main max_width lossy colors w = Ok (tt, w') ->
  let fs := sorted (List.filter is_target ((map_to_list (files w)).*1)) in
  (fs = [] /\ w' = World (files w) (stdout w ++ ["No GIF files found."])%list)
  \/
  (fs <> [] /\ exists w1 r w2 line,
      files w1 = files w /\
      loop fs max_width lossy colors (0, 0) w1 = Ok (r, w2) /\
      files w' = files w2 /\
      total_line r.1 r.2 = Ok line /\
      stdout w' = (stdout w2 ++ [repeat_char "-" 100; line])%list).
Proof.
  intros Hm fs. unfold main in Hm.
  apply io_bind_ok in Hm as (names & w0 & Hls & Hm).
  injection Hls as <- <-. cbn zeta in Hm. fold fs in Hm.
  destruct fs as [|f fs'] eqn:Hfs.
  - left. split; [reflexivity|]. now apply print_ok in Hm.
  - right. split; [discriminate|].
    apply io_bind_ok in Hm as (u1 & w1 & Hp1 & Hm). apply print_ok in Hp1 as ->.
    apply io_bind_ok in Hm as (u2 & w2 & Hp2 & Hm). apply print_ok in Hp2 as ->.
    apply io_bind_ok in Hm as (u3 & w3 & Hp3 & Hm). apply print_ok in Hp3 as ->.
    apply io_bind_ok in Hm as ([total_old total_new] & w4 & Hloop & Hm).
    apply io_bind_ok in Hm as (u5 & w5 & Hp5 & Hm). apply print_ok in Hp5 as ->.
    apply io_bind_ok in Hm as (line & w6 & Hline & Hm). apply lift_ok in Hline as (Hline & ->).
    apply print_ok in Hm as ->.
    eexists _, _, w4, line. refine (conj _ (conj Hloop _)); [reflexivity|].
    split; [reflexivity|]. split; [exact Hline|].
    cbn [stdout]. now rewrite <- app_assoc.
Qed.

(** X5.  A run of [compress_gif.py] that completes has changed nothing but
    the GIF files of the directory and their [.tmp] siblings: every other
    file has the content it had.  Every GIF that was there is still there,
    and no [.tmp] sibling of a GIF remains, even one that existed before
    the run. *)
Theorem gif_main_touches_only_gifs max_width lossy colors w w' :
  main max_width lossy colors w = Ok (tt, w') ->
  (forall p, is_target p = false ->
     (forall f, is_target f = true -> is_Some (files w !! f) -> p <> f +:+ ".tmp") ->
     files w' !! p = files w !! p) /\
  (forall f, is_target f = true -> is_Some (files w !! f) ->
     is_Some (files w' !! f) /\ files w' !! (f +:+ ".tmp") = None).
Proof.
  intros Hm. apply gif_main_inv in Hm. cbn zeta in Hm.
  set (fs := sorted (List.filter is_target ((map_to_list (files w)).*1))) in *.
  assert (Hin : forall f, f ∈ fs <-> is_target f = true /\ is_Some (files w !! f))
    by (intros f; apply elem_of_listing).
  destruct Hm as [[Hnil ->] | (Hne & w1 & r & w2 & line & Hw1 & Hloop & -> & _)].
  - cbn [files]. split; [auto|].
    intros f Ht Hs. assert (Hf : f ∈ fs) by (apply Hin; auto).
    rewrite Hnil in Hf. inversion Hf.
  - pose proof (gif_loop_frame _ _ _ _ _ _ _ _ Hloop) as [Hframe Hkeep].
    rewrite Hw1 in Hframe, Hkeep. split.
    + intros p Hp Htmp. apply Hframe. intros f Hf. apply Hin in Hf as [Ht Hs].
      split; [intros ->; congruence | now apply Htmp].
    + intros f Ht Hs. split.
      * apply Hkeep; [|exact Hs]. intros g Hg ->.
        rewrite tmp_not_target in Ht. discriminate.
      * apply (gif_loop_no_tmp _ _ _ _ _ _ _ _ Hloop); [|apply Hin; auto].
        intros f' g Hf' Hg ->. apply Hin in Hg as [Hg _].
        rewrite tmp_not_target in Hg. discriminate.
Qed.

(** The run of the tool on a readable file *)
Lemma tool_run filepath max_width lossy colors w orig img extra rc errtxt out :
  files w !! filepath = Some orig ->
  decode orig = Some img ->
  resize_args (width img, height img) max_width = Ok extra ->
  run_gifsicle (command filepath lossy colors extra) (files w) = Ok (rc, errtxt, out) ->
  forall k : Z -> Z * Z -> CompletedProcess
             -> io (Z * Z * (Z * Z) * (Z * Z) * option string),
  compress_gif filepath max_width lossy colors w
  = (old_size ← Os.getsize filepath;
     old_dims ← get_gif_dims filepath;
     extra ← lift (resize_args old_dims max_width);
     result ← subprocess_run (command filepath lossy colors extra);
     k old_size old_dims result) w ->
  compress_gif filepath max_width lossy colors w
  = k (Z.of_nat (length orig)) (width img, height img) (mkCompleted rc errtxt)
      (set_files w (match out with
                    | Some b => <[filepath +:+ ".tmp" := b]> (files w)
                    | None => files w
                    end)).
Proof.
  intros Horig Hdec Hx Htool k ->.
  pose proof (output_path_command filepath lossy colors _ _ _ Hx) as Hop.
  rewrite (io_bind_step _ _ _ _ _ (getsize_found _ _ _ Horig)).
  rewrite (io_bind_step _ _ _ _ _ (get_gif_dims_decoded _ _ _ _ Horig Hdec)).
  rewrite (io_bind_step (lift (resize_args (width img, height img) max_width))
             _ w extra w) by (unfold lift; now rewrite Hx).
  apply io_bind_step. unfold subprocess_run. rewrite Htool, Hop. reflexivity.
Qed.

(** X6.  When the tool exits with 0 and has written its output, what
    [compress_gif] does depends on the size of that output alone.  A
    strictly smaller output that Pillow can read replaces the original and
    its size and dimensions are reported; an output that is not smaller is
    deleted, the original stays and the old size and dimensions are
    reported; a smaller output that Pillow cannot read makes the call
    raise, the second [get_gif_dims] being unguarded. *)
Theorem tool_success_promotes_smaller_output filepath max_width lossy colors w
    orig img extra errtxt out :
  files w !! filepath = Some orig ->
  decode orig = Some img ->
  resize_args (width img, height img) max_width = Ok extra ->
  run_gifsicle (command filepath lossy colors extra) (files w) = Ok (0, errtxt, Some out) ->
  let tmp := filepath +:+ ".tmp" in
  let size := Z.of_nat (length orig) in
  let dims := (width img, height img) in
  (Z.of_nat (length out) < size ->
   forall img', decode out = Some img' ->
   compress_gif filepath max_width lossy colors w
   = Ok ((size, Z.of_nat (length out), dims, (width img', height img'), None),
         set_files w (<[filepath := out]> (delete tmp (files w)))))
  /\
  (size <= Z.of_nat (length out) ->
   compress_gif filepath max_width lossy colors w
   = Ok ((size, size, dims, dims, None), set_files w (delete tmp (files w))))
  /\
  (Z.of_nat (length out) < size -> decode out = None ->
   compress_gif filepath max_width lossy colors w = Raise UnidentifiedImageError).
Proof.
  intros Horig Hdec Hx Htool tmp size dims.
  assert (Hne : filepath <> tmp) by (intros E; symmetry in E; exact (tmp_neq _ E)).
  pose proof (tool_run _ _ _ _ _ _ _ _ _ _ _ Horig Hdec Hx Htool _ eq_refl) as Hrun.
  cbn [returncode stderr] in Hrun. change (0 =? 0) with true in Hrun.
  cbn [negb] in Hrun. fold tmp in Hrun.
  set (w1 := set_files w (<[tmp := out]> (files w))) in *.
  assert (Hsz : Os.getsize tmp w1 = Ok (Z.of_nat (length out), w1))
    by (apply getsize_found; cbn; apply lookup_insert_eq).
  rewrite (io_bind_step _ _ _ _ _ Hsz) in Hrun.
  assert (Hdel : delete tmp (files w1) = delete tmp (files w))
    by (cbn; apply delete_insert_eq).
  assert (Hmove : Os.move tmp filepath w1
                  = Ok (tt, set_files w (<[filepath := out]> (delete tmp (files w))))).
  { unfold Os.move. replace (files w1 !! tmp) with (Some out)
      by (symmetry; cbn; apply lookup_insert_eq).
    rewrite Hdel. reflexivity. }
  assert (Hrm : Os.remove tmp w1 = Ok (tt, set_files w (delete tmp (files w)))).
  { unfold Os.remove. replace (files w1 !! tmp) with (Some out)
      by (symmetry; cbn; apply lookup_insert_eq).
    rewrite Hdel. reflexivity. }
  fold size in Hrun.
  split; [|split].
  - intros Hlt img' Hdec'. rewrite Hrun.
    replace (Z.of_nat (length out) <? size) with true by (symmetry; now apply Z.ltb_lt).
    rewrite (io_bind_step (_ ← Os.move tmp filepath; mret (Z.of_nat (length out))) _ w1
               (Z.of_nat (length out))
               (set_files w (<[filepath := out]> (delete tmp (files w)))))
      by (rewrite (io_bind_step _ _ _ _ _ Hmove); reflexivity).
    rewrite (io_bind_step (get_gif_dims filepath) _ _ (width img', height img')
               (set_files w (<[filepath := out]> (delete tmp (files w)))))
      by (apply (get_gif_dims_decoded _ _ out); [cbn; apply lookup_insert_eq | exact Hdec']).
    reflexivity.
  - intros Hge. rewrite Hrun.
    replace (Z.of_nat (length out) <? size) with false by (symmetry; now apply Z.ltb_ge).
    rewrite (io_bind_step (_ ← Os.remove tmp; mret size) _ w1 size
               (set_files w (delete tmp (files w))))
      by (rewrite (io_bind_step _ _ _ _ _ Hrm); reflexivity).
    rewrite (io_bind_step (get_gif_dims filepath) _ _ dims
               (set_files w (delete tmp (files w)))).
    + reflexivity.
    + apply (get_gif_dims_decoded _ _ orig); [|exact Hdec].
      cbn. rewrite lookup_delete_ne by (intros E; exact (Hne (eq_sym E))). exact Horig.
  - intros Hlt Hbad. rewrite Hrun.
    replace (Z.of_nat (length out) <? size) with true by (symmetry; now apply Z.ltb_lt).
    rewrite (io_bind_step (_ ← Os.move tmp filepath; mret (Z.of_nat (length out))) _ w1
               (Z.of_nat (length out))
               (set_files w (<[filepath := out]> (delete tmp (files w)))))
      by (rewrite (io_bind_step _ _ _ _ _ Hmove); reflexivity).
    apply io_bind_raise. unfold get_gif_dims. apply io_bind_raise.
    apply (open_unreadable _ _ out); [cbn; apply lookup_insert_eq | exact Hbad].
Qed.

(** X7.  A [.gif] file that Pillow cannot read makes [compress_gif] raise
    before the tool is run, whatever the tool is; nothing guards the call in
    [main], so the loop stops there: no row is printed for the file, the
    files after it are not processed and no total is printed. *)
Theorem unreadable_gif_aborts_compression f fs' max_width lossy colors totals w b :
  files w !! f = Some b -> decode b = None ->
  compress_gif f max_width lossy colors w = Raise UnidentifiedImageError /\
  loop (f :: fs') max_width lossy colors totals w = Raise UnidentifiedImageError.
Proof.
  intros Hb Hdec.
  assert (Hc : compress_gif f max_width lossy colors w = Raise UnidentifiedImageError).
  { unfold compress_gif.
    rewrite (io_bind_step _ _ _ _ _ (getsize_found _ _ _ Hb)).
    apply io_bind_raise. unfold get_gif_dims. apply io_bind_raise.
    exact (open_unreadable _ _ _ Hb Hdec). }
  split; [exact Hc|]. cbn [loop]. now apply io_bind_raise.
Qed.

(** X8.  A failure of the tool is shown in the row of the file only when
    the tool wrote something other than white space on its standard error.
    With an empty or blank standard error the row is the row of a file that
    was left as it was: same sizes, same dimensions and no [ERR] marker. *)
Theorem blank_stderr_failure_is_silent f fs' max_width lossy colors totals w
    orig img extra rc errtxt out line :
  files w !! f = Some orig ->
  decode orig = Some img ->
  resize_args (width img, height img) max_width = Ok extra ->
  run_gifsicle (command f lossy colors extra) (files w) = Ok (rc, errtxt, out) ->
  rc <> 0 ->
  strip errtxt = "" ->
  let size := Z.of_nat (length orig) in
  let dims := (width img, height img) in
  row f size size dims dims None = Ok line ->
  exists w',
    compress_gif f max_width lossy colors w = Ok ((size, size, dims, dims, Some ""), w') /\
    files w' = delete (f +:+ ".tmp") (files w) /\
    loop (f :: fs') max_width lossy colors totals w
    = loop fs' max_width lossy colors (totals.1 + size, totals.2 + size)
        (World (files w') (stdout w ++ [line])%list).
Proof.
  intros Horig Hdec Hx Htool Hrc Hblank size dims Hrow.
  pose proof (tool_run _ _ _ _ _ _ _ _ _ _ _ Horig Hdec Hx Htool _ eq_refl) as Hrun.
  cbn [returncode stderr] in Hrun.
  destruct (rc =? 0) eqn:E; [apply Z.eqb_eq in E; contradiction|]. cbn [negb] in Hrun.
  set (tmp := f +:+ ".tmp") in *.
  set (w1 := set_files w (match out with
                          | Some b => <[tmp := b]> (files w)
                          | None => files w
                          end)) in *.
  destruct (cleanup_total tmp w1) as (w' & Hclean & Hstd & Hfiles).
  assert (Hw' : files w' = delete tmp (files w)).
  { rewrite Hfiles. unfold w1. cbn. destruct out; [apply delete_insert_eq | reflexivity]. }
  fold size dims in Hrun. rewrite Hblank in Hrun.
  assert (Hcall : compress_gif f max_width lossy colors w
                  = Ok ((size, size, dims, dims, Some ""), w')).
  { rewrite Hrun.
    change (Os.exists_ tmp ≫= _) with
      ((present ← Os.exists_ tmp;
        if (present : bool) then Os.remove tmp else mret tt) ≫=
       (fun _ : () => (mret (size, size, dims, dims, Some "")
                       : io (Z * Z * (Z * Z) * (Z * Z) * option string)))).
    rewrite (io_bind_step _ _ _ _ _ Hclean). reflexivity. }
  exists w'. split; [exact Hcall|]. split; [exact Hw'|].
  cbn [loop]. rewrite (io_bind_step _ _ _ _ _ Hcall). cbn beta iota.
  change (row f size size dims dims (Some "")) with (row f size size dims dims None).
  rewrite (io_bind_step (lift (row f size size dims dims None)) _ w' line w')
    by (unfold lift; now rewrite Hrow).
  unfold mbind at 1, io_bind at 1, Os.print at 1. cbn beta iota.
  rewrite Hstd. reflexivity.
Qed.

(** The two sizes that a call returns are sizes of the file, before and
    after. *)
Lemma compress_gif_sizes filepath max_width lossy colors w
    old_size new_size old_dims new_dims err w' :
  compress_gif filepath max_width lossy colors w
    = Ok ((old_size, new_size, old_dims, new_dims, err), w') ->
  exists orig final,
    files w !! filepath = Some orig /\ old_size = Z.of_nat (length orig) /\
    files w' !! filepath = Some final /\ new_size = Z.of_nat (length final).
Proof.
  intros Hc.
  destruct (compress_gif_inv _ _ _ _ _ _ _ _ _ _ _ Hc)
    as (orig & img & extra & r & w1 & Horig & Hdec & Hos & Hod & Hx & Hrun
        & Hframe & Hstd & Hcases).
  set (tmp := filepath +:+ ".tmp") in *.
  assert (Hne : filepath <> tmp) by (intros E; symmetry in E; exact (tmp_neq _ E)).
  assert (Hkept : files w' = delete tmp (files w1) -> files w' !! filepath = Some orig).
  { intros ->. rewrite lookup_delete_ne by (intros E; exact (Hne (eq_sym E))).
    now rewrite (Hframe _ Hne). }
  destruct Hcases as [(Hrc & Hns & Hnd & Herr & Hf)
                     |(Hrc & Herr & out & Hout & [(Hlt & Hns & Hf & Himg)|(Hge & Hns & Hf & Hnd)])].
  - exists orig, orig. rewrite Hns. auto.
  - exists orig, out. rewrite Hf, lookup_insert_eq. auto.
  - exists orig, orig. rewrite Hns. auto.
Qed.

(** The totals of the loop are sums of sizes: of the files as they were,
    and of the files as they are left. *)
Lemma gif_loop_totals fs max_width lossy colors totals w total_old total_new w' :
  loop fs max_width lossy colors totals w = Ok ((total_old, total_new), w') ->
  NoDup fs ->
  (forall f g, f ∈ fs -> g ∈ fs -> g <> f +:+ ".tmp") ->
  total_old = totals.1 + sizes_sum w fs /\
  total_new = totals.2 + sizes_sum w' fs.
Proof.
  revert totals w. induction fs as [|g fs IH]; intros totals w Hl Hnd Hfs.
  - destruct totals as [t1 t2]. injection Hl as <- <- <-.
    unfold sizes_sum. cbn. lia.
  - apply gif_loop_cons_inv in Hl
      as (old_sz & new_sz & old_d & new_d & err & w1 & line & Hc & _ & Hl).
    apply NoDup_cons in Hnd as [Hg Hnd].
    assert (Hfs' : forall f g, f ∈ fs -> g ∈ fs -> g <> f +:+ ".tmp")
      by (intros f' g' Hf' Hg'; apply Hfs; now right).
    pose proof (compress_gif_sizes _ _ _ _ _ _ _ _ _ _ _ Hc)
      as (orig & final & Horig & -> & Hfinal & ->).
    apply compress_gif_frame in Hc as (_ & _ & _ & _ & _ & Hframe).
    pose proof (gif_loop_frame _ _ _ _ _ _ _ _ Hl) as [Hlframe _].
    cbn [files] in Hlframe.
    apply IH in Hl as [Ho Hn]; [|assumption..]. cbn [fst snd] in Ho, Hn.
    assert (Hsame : sizes_sum (World (files w1) (stdout w1 ++ [line])%list) fs
                    = sizes_sum w fs).
    { apply sizes_sum_ext. intros f Hf. cbn [files]. apply Hframe.
      - intros ->. contradiction.
      - apply Hfs; [left | now right]. }
    assert (Hg' : files w' !! g = Some final).
    { rewrite Hlframe; [exact Hfinal|]. intros f Hf. split.
      - intros ->. contradiction.
      - intros E. apply (Hfs f g); [now right | left | exact E]. }
    rewrite (sizes_sum_cons _ _ _ _ Horig), (sizes_sum_cons _ _ _ _ Hg').
    rewrite Hsame in Ho. lia.
Qed.

(** X9.  The total row of [compress_gif.py] is the last line printed; it
    shows the sum of the sizes that the listed GIFs had before the run and
    the sum of the sizes that they have after it. *)
Theorem gif_total_row_is_sum max_width lossy colors w w' :
  main max_width lossy colors w = Ok (tt, w') ->
  let fs := sorted (List.filter is_target ((map_to_list (files w)).*1)) in
  fs <> [] ->
  exists line,
    total_line (sizes_sum w fs) (sizes_sum w' fs) = Ok line /\
    last (stdout w') = Some line.
Proof.
  intros Hm fs Hne. apply gif_main_inv in Hm. cbn zeta in Hm. fold fs in Hm.
  destruct Hm as [[Hnil _] | (_ & w1 & [total_old total_new] & w2 & line
                               & Hw1 & Hloop & Hw' & Hline & Hout)];
    [contradiction|].
  apply gif_loop_totals in Hloop as [Ho Hn].
  - exists line. split.
    + cbn [fst snd] in *. rewrite Ho, Hn in Hline.
      rewrite (sizes_sum_ext w w1) by (intros; now rewrite Hw1).
      rewrite (sizes_sum_ext w' w2) by (intros; now rewrite Hw').
      exact Hline.
    + rewrite Hout.
      change [repeat_char "-" 100; line] with ([repeat_char "-" 100] ++ [line])%list.
      rewrite app_assoc. apply last_snoc.
  - apply listing_NoDup.
  - intros f g Hf Hg ->. apply elem_of_listing in Hg as [Hg _].
    rewrite tmp_not_target in Hg. discriminate.
Qed.

End WithTools.
End GifMore.

(** *** The theorems of the run on concrete directories *)

Module GifMoreWitness.
Import PyNum PyStr CompressGif RunDefs StrFacts Listing GifMore Toy.

Lemma gif_savings_never_negative_witness :
  exists w',
    @loop toy_pillow (scripted 0 "" (Some small)) ["a.gif"; "b.GIF"] 800 80 128 (0, 0) gif_dir
    = Ok ((614, 54), w') /\
    0 <= 54 /\ 54 - 0 <= 614 - 0 /\ length (stdout w') = 2%nat.
Proof.
  assert (Hrun : exists w',
    @loop toy_pillow (scripted 0 "" (Some small)) ["a.gif"; "b.GIF"] 800 80 128 (0, 0) gif_dir
    = Ok ((614, 54), w')) by (vm_compute; eexists; reflexivity).
  destruct Hrun as [w' Hrun]. exists w'. split; [exact Hrun|].
  exact (gif_savings_never_negative (H := toy_pillow)
           (H0 := scripted 0 "" (Some small)) _ _ _ _ _ _ _ _ _ Hrun).
Defined.

Lemma gif_main_touches_only_gifs_witness :
  exists w',
    @main toy_pillow (scripted 0 "" (Some small)) 800 80 128 gif_dir = Ok (tt, w') /\
    files w' !! "notes.txt" = Some [Byte.x68; Byte.x69] /\
    is_Some (files w' !! "a.gif") /\
    files w' !! "a.gif.tmp" = None.
Proof.
  assert (Hrun : exists w',
    @main toy_pillow (scripted 0 "" (Some small)) 800 80 128 gif_dir = Ok (tt, w'))
    by (vm_compute; eexists; reflexivity).
  destruct Hrun as [w' Hrun]. exists w'. split; [exact Hrun|].
  destruct (gif_main_touches_only_gifs (H := toy_pillow)
              (H0 := scripted 0 "" (Some small)) _ _ _ _ _ Hrun) as [Hframe Hgifs].
  split.
  - rewrite (Hframe "notes.txt" eq_refl).
    + vm_compute. reflexivity.
    + intros f _ _ E.
      pose proof (suffix_of_append f ".tmp") as Hs. rewrite <- E in Hs.
      vm_compute in Hs. discriminate.
  - apply (Hgifs "a.gif" eq_refl). vm_compute. eauto.
Defined.

Lemma tool_success_promotes_smaller_output_witness :
  let w := dir1 "a.gif" big in
  let img := mkImage 1600 1000 "P" {[ "duration" := 40 ]}
               (replicate 49 {[ "duration" := 40 ]}) 0 tt in
  let img' := mkImage 800 500 "P" {[ "duration" := 40 ]}
                (replicate 49 {[ "duration" := 40 ]}) 0 tt in
  files w !! "a.gif" = Some big /\
  toy_decode big = Some img /\
  resize_args (1600, 1000) 800 = Ok ["--resize=800x500"] /\
  Z.of_nat (length small) < Z.of_nat (length big) /\
  toy_decode small = Some img' /\
  @compress_gif toy_pillow (scripted 0 "" (Some small)) "a.gif" 800 80 128 w
  = Ok ((307, 27, (1600, 1000), (800, 500), None),
        set_files w (<[ "a.gif" := small ]> (delete "a.gif.tmp" (files w)))).
Proof.
  intros w img img'.
  assert (H1 : files w !! "a.gif" = Some big) by (vm_compute; reflexivity).
  assert (H2 : toy_decode big = Some img) by (vm_compute; reflexivity).
  assert (H3 : resize_args (1600, 1000) 800 = Ok ["--resize=800x500"])
    by (vm_compute; reflexivity).
  assert (H4 : Z.of_nat (length small) < Z.of_nat (length big)) by (vm_compute; reflexivity).
  assert (H5 : toy_decode small = Some img') by (vm_compute; reflexivity).
  do 5 (split; [assumption|]).
  exact (proj1 (tool_success_promotes_smaller_output (H := toy_pillow)
                  (H0 := scripted 0 "" (Some small)) "a.gif" 800 80 128 w
                  big img _ "" small H1 H2 H3 eq_refl) H4 img' H5).
Defined.

Lemma unreadable_gif_aborts_compression_witness :
  let w := World (<[ "a.gif" := [] ]> {[ "b.gif" := big ]}) [] in
  files w !! "a.gif" = Some [] /\
  toy_decode [] = None /\
  @loop toy_pillow (scripted 0 "" (Some small)) ["a.gif"; "b.gif"] 800 80 128 (0, 0) w
  = Raise UnidentifiedImageError.
Proof.
  intros w.
  assert (H1 : files w !! "a.gif" = Some []) by (vm_compute; reflexivity).
  split; [exact H1|]. split; [reflexivity|].
  exact (proj2 (unreadable_gif_aborts_compression (H := toy_pillow)
                  (H0 := scripted 0 "" (Some small)) "a.gif" ["b.gif"] 800 80 128 (0, 0)
                  w [] H1 eq_refl)).
Defined.

Lemma blank_stderr_failure_is_silent_witness :
  let w := dir1 "a.gif" big in
  let img := mkImage 1600 1000 "P" {[ "duration" := 40 ]}
               (replicate 49 {[ "duration" := 40 ]}) 0 tt in
  let blank := String (ascii_of_nat 32) (String (ascii_of_nat 10) EmptyString) in
  files w !! "a.gif" = Some big /\
  toy_decode big = Some img /\
  resize_args (1600, 1000) 800 = Ok ["--resize=800x500"] /\
  1 <> 0 /\
  strip blank = "" /\
  exists line w',
    row "a.gif" 307 307 (1600, 1000) (1600, 1000) None = Ok line /\
    @compress_gif toy_pillow (scripted 1 blank None) "a.gif" 800 80 128 w
    = Ok ((307, 307, (1600, 1000), (1600, 1000), Some ""), w') /\
    @loop toy_pillow (scripted 1 blank None) ["a.gif"] 800 80 128 (0, 0) w
    = Ok ((307, 307), World (files w') [line]).
Proof.
  intros w img blank.
  assert (H1 : files w !! "a.gif" = Some big) by (vm_compute; reflexivity).
  assert (H2 : toy_decode big = Some img) by (vm_compute; reflexivity).
  assert (H3 : resize_args (1600, 1000) 800 = Ok ["--resize=800x500"])
    by (vm_compute; reflexivity).
  assert (H4 : 1 <> 0) by lia.
  assert (H5 : strip blank = "") by (vm_compute; reflexivity).
  do 5 (split; [assumption|]).
  assert (H6 : exists line, row "a.gif" 307 307 (1600, 1000) (1600, 1000) None = Ok line)
    by (vm_compute; eexists; reflexivity).
  destruct H6 as [line H6]. exists line.
  destruct (blank_stderr_failure_is_silent (H := toy_pillow)
              (H0 := scripted 1 blank None) "a.gif" [] 800 80 128 (0, 0) w
              big img _ 1 blank None line H1 H2 H3 eq_refl H4 H5 H6)
    as (w' & Hc & _ & Hl).
  exists w'. split; [exact H6|]. split; [exact Hc|]. exact Hl.
Defined.

Lemma gif_total_row_is_sum_witness :
  exists w',
    @main toy_pillow (scripted 0 "" (Some small)) 800 80 128 gif_dir = Ok (tt, w') /\
    sorted (List.filter is_target ((map_to_list (files gif_dir)).*1)) = ["a.gif"; "b.GIF"] /\
    sizes_sum gif_dir ["a.gif"; "b.GIF"] = 614 /\
    sizes_sum w' ["a.gif"; "b.GIF"] = 54 /\
    last (stdout w')
    = Some (ljust "Total" 45 +:+ " " +:+ rjust "614.0 B" 10 +:+ " " +:+ rjust "54.0 B" 10
            +:+ " " +:+ rjust "560.0 B" 10 +:+ " (91.2% saved)").
Proof.
  assert (Hrun : exists w',
    @main toy_pillow (scripted 0 "" (Some small)) 800 80 128 gif_dir = Ok (tt, w')
    /\ sizes_sum w' ["a.gif"; "b.GIF"] = 54)
    by (vm_compute; eexists; split; reflexivity).
  destruct Hrun as (w' & Hrun & Hafter). exists w'. split; [exact Hrun|].
  assert (Hfs : sorted (List.filter is_target ((map_to_list (files gif_dir)).*1))
                = ["a.gif"; "b.GIF"]) by (vm_compute; reflexivity).
  assert (Hne : sorted (List.filter is_target ((map_to_list (files gif_dir)).*1)) <> [])
    by (rewrite Hfs; discriminate).
  assert (Hbefore : sizes_sum gif_dir ["a.gif"; "b.GIF"] = 614) by (vm_compute; reflexivity).
  destruct (gif_total_row_is_sum (H := toy_pillow) (H0 := scripted 0 "" (Some small))
              _ _ _ _ _ Hrun Hne) as (line & Hline & Hlast).
  rewrite Hfs, Hbefore, Hafter in Hline. vm_compute in Hline. injection Hline as <-.
  do 3 (split; [assumption|]). rewrite Hlast. vm_compute. reflexivity.
Defined.

End GifMoreWitness.

(** ** [compress_png.py]: the whole run *)

Module PngMore.
Import PyNum PyStr CompressPng RunDefs Listing.

Section WithPillow.
Context `{Pillow}.

Lemma save_ok (r : result bytes) path w u w' :
  (b ← lift r; Os.write path b) w = Ok (u, w') ->
  exists b, w' = set_files w (<[path := b]> (files w)).
Proof.
  intros Hs. apply io_bind_ok in Hs as (b & w1 & Hb & Hw).
  apply lift_ok in Hb as (_ & ->). injection Hw as _ <-. eauto.
Qed.

(** What [save_by_ext] does, by the extension of the path *)
Lemma save_by_ext_inv img filepath quality w img2 w' :
  save_by_ext img filepath quality w = Ok (img2, w') ->
  (width img2, height img2) = (width img, height img) /\
  ((is_target filepath = false /\ w' = w)
   \/ (is_target filepath = true /\ exists b, w' = set_files w (<[filepath := b]> (files w)))).
Proof.
  unfold save_by_ext, is_target.
  destruct (String.eqb (lower (splitext filepath).2) ".png") eqn:Epng.
  - intros Hs. apply io_bind_ok in Hs as (u & w1 & Hsave & Hret).
    injection Hret as <- <-. split; [reflexivity|]. right. split; [reflexivity|].
    exact (save_ok _ _ _ _ _ Hsave).
  - cbn [orb].
    destruct (String.eqb (lower (splitext filepath).2) ".jpg"
              || String.eqb (lower (splitext filepath).2) ".jpeg") eqn:Ejpg.
    + intros Hs. apply io_bind_ok in Hs as (u & w1 & Hsave & Hret).
      injection Hret as <- <-. split.
      * unfold jpeg_input. destruct (String.eqb (mode img) "RGBA"); reflexivity.
      * right. split; [reflexivity|].
        exact (save_ok _ _ _ _ _ Hsave).
    + intros [= <- <-]. split; [reflexivity|]. left. auto.
Qed.

(** What a returning call of [compress_image] did *)
Lemma compress_image_inv filepath max_width quality w
    old_size new_size orig_dims new_dims w' :
  compress_image filepath max_width quality w
    = Ok ((old_size, new_size, orig_dims, new_dims), w') ->
  exists orig d img1 final,
    files w !! filepath = Some orig /\ decode orig = Some d /\
    old_size = Z.of_nat (length orig) /\ orig_dims = (width d, height d) /\
    resize_if_wider (PIL.at_frame d 0) max_width = Ok img1 /\
    new_dims = (width img1, height img1) /\
    files w' !! filepath = Some final /\ new_size = Z.of_nat (length final) /\
    stdout w' = stdout w /\
    (forall p, p <> filepath -> files w' !! p = files w !! p) /\
    (is_target filepath = false -> w' = w).
Proof.
  unfold compress_image. intros Hc.
  apply io_bind_ok in Hc as (os & w0 & Hsz & Hc).
  apply getsize_ok in Hsz as (-> & orig & Horig & ->).
  apply io_bind_ok in Hc as (img & w0 & Hopen & Hc).
  apply open_ok in Hopen as (-> & b & d & Hb & Hdec & ->).
  rewrite Horig in Hb. injection Hb as <-.
  change (mkImage (width d) (height d) (mode d) (frame0 d) (more_frames d) 0 (raster d))
    with (PIL.at_frame d 0) in Hc.
  apply io_bind_ok in Hc as (img1 & w0 & Hres & Hc).
  apply lift_ok in Hres as (Hres & ->).
  apply io_bind_ok in Hc as (img2 & w1 & Hsave & Hc).
  apply io_bind_ok in Hc as (ns & w2 & Hns & Hc).
  apply getsize_ok in Hns as (-> & final & Hfinal & ->).
  injection Hc as <- <- <- <- <-.
  apply save_by_ext_inv in Hsave as (Hdims & Hcases).
  injection Hdims as -> ->.
  exists orig, d, img1, final.
  do 8 (split; [assumption || reflexivity|]).
  destruct Hcases as [[Ht ->] | (Ht & b & ->)].
  - auto.
  - split; [reflexivity|]. split; [|congruence].
    intros p Hp. cbn. rewrite lookup_insert_ne by (intros E; exact (Hp (eq_sym E))).
    reflexivity.
Qed.

(** X10.  [compress_image] saves in two branches, [.png] and
    [.jpg]/[.jpeg]; on a readable file with any other extension it writes
    nothing: the directory is left as it was and the new size is the old
    size, while the new dimensions that it returns are those of the image it
    downscaled in memory. *)
Theorem other_extension_is_not_written filepath max_width quality w orig d img1 :
  files w !! filepath = Some orig ->
  decode orig = Some d ->
  is_target filepath = false ->
  resize_if_wider (PIL.at_frame d 0) max_width = Ok img1 ->
  compress_image filepath max_width quality w
  = Ok ((Z.of_nat (length orig), Z.of_nat (length orig),
         (width d, height d), (width img1, height img1)), w).
Proof.
  intros Horig Hdec Ht Hres. unfold compress_image.
  rewrite (io_bind_step _ _ _ _ _ (getsize_found _ _ _ Horig)).
  rewrite (io_bind_step _ _ _ _ _ (open_decoded _ _ _ _ Horig Hdec)).
  cbn beta zeta.
  rewrite (io_bind_step (lift (resize_if_wider _ max_width)) _ w img1 w)
    by (unfold lift; change (mkImage (width d) (height d) (mode d) (frame0 d)
                               (more_frames d) 0 (raster d)) with (PIL.at_frame d 0);
        now rewrite Hres).
  assert (Hsave : save_by_ext img1 filepath quality w = Ok (img1, w)).
  { unfold save_by_ext. unfold is_target in Ht.
    destruct (String.eqb (lower (splitext filepath).2) ".png"); [discriminate|].
    cbn [orb] in Ht. rewrite Ht. reflexivity. }
  rewrite (io_bind_step _ _ _ _ _ Hsave).
  rewrite (io_bind_step _ _ _ _ _ (getsize_found _ _ _ Horig)). reflexivity.
Qed.

(** One iteration of the loop of [main] *)
Lemma png_loop_cons_inv f fs' max_width quality totals w r w' :
  loop (f :: fs') max_width quality totals w = Ok (r, w') ->
  exists old_sz new_sz old_d new_d w1 line,
    compress_image f max_width quality w = Ok ((old_sz, new_sz, old_d, new_d), w1) /\
    row f old_sz new_sz old_d new_d = Ok line /\
    loop fs' max_width quality (totals.1 + old_sz, totals.2 + new_sz)
      (World (files w1) (stdout w1 ++ [line])%list) = Ok (r, w').
Proof.
  cbn [loop]. intros Hl.
  apply io_bind_ok in Hl as ([[[old_sz new_sz] old_d] new_d] & w1 & Hc & Hl).
  apply io_bind_ok in Hl as (line & w2 & Hrow & Hl).
  apply lift_ok in Hrow as (Hrow & ->).
  apply io_bind_ok in Hl as (u & w3 & Hp & Hl).
  apply print_ok in Hp as ->.
  exists old_sz, new_sz, old_d, new_d, w1, line. auto.
Qed.

(** What the loop changes: the content of the files it is given. *)
Lemma png_loop_frame fs max_width quality totals w r w' :
  loop fs max_width quality totals w = Ok (r, w') ->
  (forall p, p ∉ fs -> files w' !! p = files w !! p) /\
  (forall p, is_Some (files w' !! p) <-> is_Some (files w !! p)) /\
  length (stdout w') = (length (stdout w) + length fs)%nat.
Proof.
  revert totals w. induction fs as [|g fs IH]; intros totals w Hl.
  - injection Hl as _ <-. cbn. split; [auto|]. split; [tauto | lia].
  - apply png_loop_cons_inv in Hl
      as (old_sz & new_sz & old_d & new_d & w1 & line & Hc & _ & Hl).
    apply compress_image_inv in Hc
      as (orig & d & img1 & final & Horig & _ & _ & _ & _ & _ & Hfinal & _ & Hstd & Hframe & _).
    apply IH in Hl as (IH1 & IH2 & IH3). cbn [files stdout] in IH1, IH2, IH3.
    split; [|split].
    + intros p Hp. rewrite IH1 by (intros Hin; apply Hp; now right).
      apply Hframe. intros ->. apply Hp. left.
    + intros p. rewrite IH2. destruct (decide (p = g)) as [-> | Hg].
      * rewrite Hfinal, Horig. split; eauto.
      * now rewrite Hframe.
    + rewrite IH3, length_app, Hstd. cbn [length]. lia.
Qed.

(** What a returning run of [main] did *)
Lemma png_main_inv max_width quality w w' :
  main max_width quality w = Ok (tt, w') ->
  let fs := sorted (List.filter is_target ((map_to_list (files w)).*1)) in
  (fs = [] /\ w' = World (files w) (stdout w ++ ["No PNG/JPG files found."])%list)
  \/
  (fs <> [] /\ exists w1 r w2 line,
      files w1 = files w /\
      loop fs max_width quality (0, 0) w1 = Ok (r, w2) /\
      files w' = files w2 /\
      total_line r.1 r.2 = Ok line /\
      stdout w' = (stdout w2 ++ [repeat_char "-" 90; line])%list).
Proof.
  intros Hm fs. unfold main in Hm.
  apply io_bind_ok in Hm as (names & w0 & Hls & Hm).
  injection Hls as <- <-. cbn zeta in Hm. fold fs in Hm.
  destruct fs as [|f fs'] eqn:Hfs.
  - left. split; [reflexivity|]. now apply print_ok in Hm.
  - right. split; [discriminate|].
    apply io_bind_ok in Hm as (u1 & w1 & Hp1 & Hm). apply print_ok in Hp1 as ->.
    apply io_bind_ok in Hm as (u2 & w2 & Hp2 & Hm). apply print_ok in Hp2 as ->.
    apply io_bind_ok in Hm as (u3 & w3 & Hp3 & Hm). apply print_ok in Hp3 as ->.
    apply io_bind_ok in Hm as ([total_old total_new] & w4 & Hloop & Hm).
    apply io_bind_ok in Hm as (u5 & w5 & Hp5 & Hm). apply print_ok in Hp5 as ->.
    apply io_bind_ok in Hm as (line & w6 & Hline & Hm). apply lift_ok in Hline as (Hline & ->).
    apply print_ok in Hm as ->.
    eexists _, _, w4, line. refine (conj _ (conj Hloop _)); [reflexivity|].
    split; [reflexivity|]. split; [exact Hline|].
    cbn [stdout]. now rewrite <- app_assoc.
Qed.

(** X11.  A run of [compress_png.py] that completes has changed nothing
    but the content of the PNG, JPG and JPEG files of the directory: every
    other file has the content it had, and no file was created or
    deleted. *)
Theorem png_main_touches_only_images max_width quality w w' :
  main max_width quality w = Ok (tt, w') ->
  (forall p, is_target p = false -> files w' !! p = files w !! p) /\
  (forall p, is_Some (files w' !! p) <-> is_Some (files w !! p)).
Proof.
  intros Hm. apply png_main_inv in Hm. cbn zeta in Hm.
  set (fs := sorted (List.filter is_target ((map_to_list (files w)).*1))) in *.
  destruct Hm as [[Hnil ->] | (Hne & w1 & r & w2 & line & Hw1 & Hloop & -> & _)].
  - cbn [files]. split; [auto | tauto].
  - apply png_loop_frame in Hloop as (Hframe & Hdom & _).
    rewrite Hw1 in Hframe. split.
    + intros p Hp. apply Hframe. intros Hin.
      apply elem_of_listing in Hin as [Ht _]. congruence.
    + intros p. rewrite Hdom, Hw1. reflexivity.
Qed.

(** X12.  A PNG or JPG file that Pillow cannot read makes
    [compress_image] raise before anything is written; nothing guards the
    call in [main], so the loop stops there: no row is printed for the file,
    the files after it are not processed and no total is printed. *)
Theorem unreadable_image_aborts_compression f fs' max_width quality totals w b :
  files w !! f = Some b -> decode b = None ->
  compress_image f max_width quality w = Raise UnidentifiedImageError /\
  loop (f :: fs') max_width quality totals w = Raise UnidentifiedImageError.
Proof.
  intros Hb Hdec.
  assert (Hc : compress_image f max_width quality w = Raise UnidentifiedImageError).
  { unfold compress_image.
    rewrite (io_bind_step _ _ _ _ _ (getsize_found _ _ _ Hb)).
    apply io_bind_raise. exact (open_unreadable _ _ _ Hb Hdec). }
  split; [exact Hc|]. cbn [loop]. now apply io_bind_raise.
Qed.

(** The totals of the loop are sums of sizes: of the files as they were,
    and of the files as they are left. *)
Lemma png_loop_totals fs max_width quality totals w total_old total_new w' :
  loop fs max_width quality totals w = Ok ((total_old, total_new), w') ->
  NoDup fs ->
  total_old = totals.1 + sizes_sum w fs /\
  total_new = totals.2 + sizes_sum w' fs.
Proof.
  revert totals w. induction fs as [|g fs IH]; intros totals w Hl Hnd.
  - destruct totals as [t1 t2]. injection Hl as <- <- <-.
    unfold sizes_sum. cbn. lia.
  - apply png_loop_cons_inv in Hl
      as (old_sz & new_sz & old_d & new_d & w1 & line & Hc & _ & Hl).
    apply NoDup_cons in Hnd as [Hg Hnd].
    apply compress_image_inv in Hc
      as (orig & d & img1 & final & Horig & _ & -> & _ & _ & _ & Hfinal & -> & _ & Hframe & _).
    pose proof (png_loop_frame _ _ _ _ _ _ _ Hl) as (Hlframe & _).
    cbn [files] in Hlframe.
    apply IH in Hl as [Ho Hn]; [|assumption]. cbn [fst snd] in Ho, Hn.
    assert (Hsame : sizes_sum (World (files w1) (stdout w1 ++ [line])%list) fs
                    = sizes_sum w fs).
    { apply sizes_sum_ext. intros f Hf. cbn [files]. apply Hframe.
      intros ->. contradiction. }
    assert (Hg' : files w' !! g = Some final) by (rewrite Hlframe by assumption; exact Hfinal).
    rewrite (sizes_sum_cons _ _ _ _ Horig), (sizes_sum_cons _ _ _ _ Hg').
    rewrite Hsame in Ho. lia.
Qed.

(** X13.  The total row of [compress_png.py] is the last line printed; it
    shows the sum of the sizes that the listed images had before the run and
    the sum of the sizes that they have after it. *)
Theorem png_total_row_is_sum max_width quality w w' :
  main max_width quality w = Ok (tt, w') ->
  let fs := sorted (List.filter is_target ((map_to_list (files w)).*1)) in
  fs <> [] ->
  exists line,
    total_line (sizes_sum w fs) (sizes_sum w' fs) = Ok line /\
    last (stdout w') = Some line.
Proof.
  intros Hm fs Hne. apply png_main_inv in Hm. cbn zeta in Hm. fold fs in Hm.
  destruct Hm as [[Hnil _] | (_ & w1 & [total_old total_new] & w2 & line
                               & Hw1 & Hloop & Hw' & Hline & Hout)];
    [contradiction|].
  apply png_loop_totals in Hloop as [Ho Hn]; [|apply listing_NoDup].
  exists line. split.
  - cbn [fst snd] in *. rewrite Ho, Hn in Hline.
    rewrite (sizes_sum_ext w w1) by (intros; now rewrite Hw1).
    rewrite (sizes_sum_ext w' w2) by (intros; now rewrite Hw').
    exact Hline.
  - rewrite Hout.
    change [repeat_char "-" 90; line] with ([repeat_char "-" 90] ++ [line])%list.
    rewrite app_assoc. apply last_snoc.
Qed.

End WithPillow.
End PngMore.

Module PngMoreWitness.
Import PyNum PyStr CompressPng RunDefs Listing PngMore Toy.

(** A wide image under a name that is not one of the three extensions *)
Lemma other_extension_is_not_written_witness :
  let orig := toy_file 2400 1000 0 0 0 3 in
  let d := mkImage 2400 1000 "RGB" ∅ [] 0 tt in
  let img1 := mkImage 1200 500 "RGB" ∅ [] 0 tt in
  let w := dir1 "a.webp" orig in
  files w !! "a.webp" = Some orig /\
  toy_decode orig = Some d /\
  is_target "a.webp" = false /\
  @resize_if_wider toy_pillow (@PIL.at_frame toy_pillow d 0) 1200 = Ok img1 /\
  @compress_image toy_pillow "a.webp" 1200 85 w
  = Ok ((10, 10, (2400, 1000), (1200, 500)), w).
Proof.
  intros orig d img1 w.
  assert (H1 : files w !! "a.webp" = Some orig) by (vm_compute; reflexivity).
  assert (H2 : toy_decode orig = Some d) by (vm_compute; reflexivity).
  assert (H3 : is_target "a.webp" = false) by (vm_compute; reflexivity).
  assert (H4 : @resize_if_wider toy_pillow (@PIL.at_frame toy_pillow d 0) 1200 = Ok img1)
    by (vm_compute; reflexivity).
  do 4 (split; [assumption|]).
  exact (other_extension_is_not_written (H := toy_pillow) "a.webp" 1200 85 w orig d img1
           H1 H2 H3 H4).
Defined.

Lemma png_main_touches_only_images_witness :
  exists w',
    @main toy_pillow 1200 85 png_dir = Ok (tt, w') /\
    files w' !! "notes.txt" = Some [Byte.x68; Byte.x69] /\
    is_Some (files w' !! "a.png").
Proof.
  assert (Hrun : exists w', @main toy_pillow 1200 85 png_dir = Ok (tt, w'))
    by (vm_compute; eexists; reflexivity).
  destruct Hrun as [w' Hrun]. exists w'. split; [exact Hrun|].
  destruct (png_main_touches_only_images (H := toy_pillow) _ _ _ _ Hrun) as [Hframe Hdom].
  split.
  - rewrite (Hframe "notes.txt" eq_refl). vm_compute. reflexivity.
  - apply Hdom. vm_compute. eauto.
Defined.

Lemma unreadable_image_aborts_compression_witness :
  let w := World (<[ "a.png" := [] ]> {[ "b.png" := toy_file 640 480 0 0 0 3 ]}) [] in
  files w !! "a.png" = Some [] /\
  toy_decode [] = None /\
  @loop toy_pillow ["a.png"; "b.png"] 1200 85 (0, 0) w = Raise UnidentifiedImageError.
Proof.
  intros w.
  assert (H1 : files w !! "a.png" = Some []) by (vm_compute; reflexivity).
  split; [exact H1|]. split; [reflexivity|].
  exact (proj2 (unreadable_image_aborts_compression (H := toy_pillow)
                  "a.png" ["b.png"] 1200 85 (0, 0) w [] H1 eq_refl)).
Defined.

Lemma png_total_row_is_sum_witness :
  exists w',
    @main toy_pillow 1200 85 png_dir = Ok (tt, w') /\
    sorted (List.filter is_target ((map_to_list (files png_dir)).*1)) = ["a.png"; "b.JPG"] /\
    sizes_sum png_dir ["a.png"; "b.JPG"] = 47 /\
    sizes_sum w' ["a.png"; "b.JPG"] = 99 /\
    last (stdout w')
    = Some (ljust "Total" 35 +:+ " " +:+ rjust "47.0 B" 10 +:+ " " +:+ rjust "99.0 B" 10
            +:+ " " +:+ rjust "-52.0 B" 10 +:+ " (-110.6% saved)").
Proof.
  assert (Hrun : exists w', @main toy_pillow 1200 85 png_dir = Ok (tt, w')
                            /\ sizes_sum w' ["a.png"; "b.JPG"] = 99)
    by (vm_compute; eexists; split; reflexivity).
  destruct Hrun as (w' & Hrun & Hafter). exists w'. split; [exact Hrun|].
  assert (Hfs : sorted (List.filter is_target ((map_to_list (files png_dir)).*1))
                = ["a.png"; "b.JPG"]) by (vm_compute; reflexivity).
  assert (Hne : sorted (List.filter is_target ((map_to_list (files png_dir)).*1)) <> [])
    by (rewrite Hfs; discriminate).
  assert (Hbefore : sizes_sum png_dir ["a.png"; "b.JPG"] = 47) by (vm_compute; reflexivity).
  destruct (png_total_row_is_sum (H := toy_pillow) _ _ _ _ Hrun Hne) as (line & Hline & Hlast).
  rewrite Hfs, Hbefore, Hafter in Hline. vm_compute in Hline. injection Hline as <-.
  do 3 (split; [assumption|]). rewrite Hlast. vm_compute. reflexivity.
Defined.

End PngMoreWitness.

(** ** [image_info.py]: the whole report *)

Module InfoMore.
Import PyNum PyStr ImageInfo InfoClaims RunDefs Listing.

Section WithPillow.
Context `{Pillow}.

Lemma get_gif_info_ok filepath w r w' :
  get_gif_info filepath w = Ok (r, w') -> w' = w.
Proof.
  unfold get_gif_info. intros Hg.
  apply io_bind_ok in Hg as (img & w0 & Hopen & Hg).
  apply open_ok in Hopen as (-> & _).
  destruct (count_frames _ _ _) as [res|]; [|discriminate].
  apply io_bind_ok in Hg as ([img' frames] & w1 & Hres & Hret).
  apply lift_ok in Hres as (_ & ->). now injection Hret as _ <-.
Qed.

(** One iteration of the loop of [main]: a row is printed, nothing else
    changes. *)
Lemma report_loop_cons_inv f fs' total w r w' :
  loop (f :: fs') total w = Ok (r, w') ->
  exists b line,
    files w !! f = Some b /\
    loop fs' (total + Z.of_nat (length b))
      (World (files w) (stdout w ++ [line])%list) = Ok (r, w').
Proof.
  cbn [loop]. intros Hl.
  apply io_bind_ok in Hl as (size & w0 & Hsz & Hl).
  apply getsize_ok in Hsz as (-> & b & Hb & ->).
  destruct (probe_dims_total f w) as [dims Hprobe].
  rewrite (io_bind_step _ _ _ _ _ Hprobe) in Hl.
  apply io_bind_ok in Hl as (extra & w1 & Hextra & Hl).
  assert (w1 = w) as ->.
  { destruct (endswith (lower f) ".gif").
    - apply io_bind_ok in Hextra as ([frames duration] & w2 & Hinfo & Hret).
      apply get_gif_info_ok in Hinfo as ->. now injection Hret as _ <-.
    - now injection Hextra as _ <-. }
  apply io_bind_ok in Hl as (hs & w2 & Hhs & Hl).
  apply lift_ok in Hhs as (_ & ->).
  apply io_bind_ok in Hl as (u & w3 & Hp & Hl).
  apply print_ok in Hp as ->.
  exists b. eexists. split; [exact Hb | exact Hl].
Qed.

Lemma report_loop_run fs total w r w' :
  loop fs total w = Ok (r, w') ->
  files w' = files w /\
  r = total + sizes_sum w fs /\
  exists rows, stdout w' = (stdout w ++ rows)%list /\ length rows = length fs.
Proof.
  revert total w. induction fs as [|f fs IH]; intros total w Hl.
  - injection Hl as <- <-. split; [reflexivity|].
    split; [unfold sizes_sum; cbn [foldr]; lia|].
    exists []. now rewrite app_nil_r.
  - apply report_loop_cons_inv in Hl as (b & line & Hb & Hl).
    apply IH in Hl as (Hf & Hr & rows & Hout & Hlen). cbn [files stdout] in *.
    split; [exact Hf|]. split.
    + rewrite Hr. cbn [sizes_sum foldr]. rewrite Hb. cbn [default].
      unfold sizes_sum, id. cbn [files]. lia.
    + exists (line :: rows). rewrite Hout, <- app_assoc. cbn [length app]. auto.
Qed.

(** X14.  The reporter reads and prints: a run of [image_info.py] that
    completes leaves every file of the directory as it was, and what was
    printed before the run is still the beginning of the output. *)
Theorem report_changes_no_file w w' :
  main w = Ok (tt, w') ->
  files w' = files w /\ exists out, stdout w' = (stdout w ++ out)%list.
Proof.
  intros Hm. unfold main in Hm.
  apply io_bind_ok in Hm as (names & w0 & Hls & Hm).
  injection Hls as <- <-. cbn zeta in Hm.
  destruct (sorted (List.filter is_target ((map_to_list (files w)).*1))) as [|f fs'].
  - apply print_ok in Hm as ->. cbn. eauto.
  - apply io_bind_ok in Hm as (u1 & w1 & Hp1 & Hm). apply print_ok in Hp1 as ->.
    apply io_bind_ok in Hm as (u2 & w2 & Hp2 & Hm). apply print_ok in Hp2 as ->.
    apply io_bind_ok in Hm as (total & w3 & Hloop & Hm).
    apply report_loop_run in Hloop as (Hf & _ & rows & Hout & _). cbn [files stdout] in Hf, Hout.
    apply io_bind_ok in Hm as (u4 & w4 & Hp4 & Hm). apply print_ok in Hp4 as ->.
    apply io_bind_ok in Hm as (hs & w5 & Hhs & Hm). apply lift_ok in Hhs as (_ & ->).
    apply io_bind_ok in Hm as (u6 & w6 & Hp6 & Hm). apply print_ok in Hp6 as ->.
    apply io_bind_ok in Hm as (u7 & w7 & Hp7 & Hm). apply print_ok in Hp7 as ->.
    apply print_ok in Hm as ->. cbn [files stdout].
    split; [exact Hf|]. rewrite Hout.
    eexists. rewrite <- !app_assoc. reflexivity.
Qed.

(** X15.  When the directory holds image files, the report is: the
    header, a rule, one row per listed file, a rule, the total row and the
    two lines of the recommendation; the size of the total row is
    [human_size] of the sum of the sizes of the listed files. *)
Theorem report_total_is_sum_of_sizes w w' :
  main w = Ok (tt, w') ->
  let fs := sorted (List.filter is_target ((map_to_list (files w)).*1)) in
  fs <> [] ->
  exists rows hs,
    length rows = length fs /\
    human_size (sizes_sum w fs) = Ok hs /\
    stdout w'
    = (stdout w
       ++ [ljust "File" 45 +:+ " " +:+ rjust "Size" 10 +:+ " "
             +:+ rjust "Dimensions" 14 +:+ " Extra";
           repeat_char "-" 90]
       ++ rows
       ++ [repeat_char "-" 90;
           ljust "Total" 45 +:+ " " +:+ rjust hs 10;
           "";
           "GitHub recommended: single file < 25MB, repo < 1GB"])%list.
Proof.
  intros Hm fs Hne. unfold main in Hm.
  apply io_bind_ok in Hm as (names & w0 & Hls & Hm).
  injection Hls as <- <-. cbn zeta in Hm. fold fs in Hm.
  destruct fs as [|f fs'] eqn:Hfs; [contradiction|].
  apply io_bind_ok in Hm as (u1 & w1 & Hp1 & Hm). apply print_ok in Hp1 as ->.
  apply io_bind_ok in Hm as (u2 & w2 & Hp2 & Hm). apply print_ok in Hp2 as ->.
  apply io_bind_ok in Hm as (total & w3 & Hloop & Hm).
  apply report_loop_run in Hloop as (Hf & Htot & rows & Hout & Hlen).
  cbn [files stdout] in Hf, Hout.
  apply io_bind_ok in Hm as (u4 & w4 & Hp4 & Hm). apply print_ok in Hp4 as ->.
  apply io_bind_ok in Hm as (hs & w5 & Hhs & Hm). apply lift_ok in Hhs as (Hhs & ->).
  apply io_bind_ok in Hm as (u6 & w6 & Hp6 & Hm). apply print_ok in Hp6 as ->.
  apply io_bind_ok in Hm as (u7 & w7 & Hp7 & Hm). apply print_ok in Hp7 as ->.
  apply print_ok in Hm as ->. cbn [files stdout].
  exists rows, hs. split; [exact Hlen|]. split.
  - rewrite <- Hhs, Htot. reflexivity.
  - rewrite Hout, <- !app_assoc. reflexivity.
Qed.

End WithPillow.
End InfoMore.

Module InfoMoreWitness.
Import PyNum PyStr ImageInfo RunDefs Listing InfoMore Toy.

Lemma report_changes_no_file_witness :
  exists w',
    @main toy_pillow report_dir = Ok (tt, w') /\
    files w' = files report_dir /\
    exists out, stdout w' = ("$ python image_info.py" :: out).
Proof.
  assert (Hrun : exists w', @main toy_pillow report_dir = Ok (tt, w'))
    by (vm_compute; eexists; reflexivity).
  destruct Hrun as [w' Hrun]. exists w'. split; [exact Hrun|].
  exact (report_changes_no_file (H := toy_pillow) _ _ Hrun).
Defined.

Lemma report_total_is_sum_of_sizes_witness :
  exists w' rows,
    @main toy_pillow report_dir = Ok (tt, w') /\
    sorted (List.filter is_target ((map_to_list (files report_dir)).*1)) = ["a.gif"; "b.svg"] /\
    sizes_sum report_dir ["a.gif"; "b.svg"] = 309 /\
    length rows = 2%nat /\
    stdout w'
    = (["$ python image_info.py"]
       ++ [ljust "File" 45 +:+ " " +:+ rjust "Size" 10 +:+ " "
             +:+ rjust "Dimensions" 14 +:+ " Extra";
           repeat_char "-" 90]
       ++ rows
       ++ [repeat_char "-" 90;
           ljust "Total" 45 +:+ " " +:+ rjust "309.0 B" 10;
           "";
           "GitHub recommended: single file < 25MB, repo < 1GB"])%list.
Proof.
  assert (Hrun : exists w', @main toy_pillow report_dir = Ok (tt, w'))
    by (vm_compute; eexists; reflexivity).
  destruct Hrun as [w' Hrun]. exists w'.
  assert (Hfs : sorted (List.filter is_target ((map_to_list (files report_dir)).*1))
                = ["a.gif"; "b.svg"]) by (vm_compute; reflexivity).
  assert (Hne : sorted (List.filter is_target ((map_to_list (files report_dir)).*1)) <> [])
    by (rewrite Hfs; discriminate).
  destruct (report_total_is_sum_of_sizes (H := toy_pillow) _ _ Hrun Hne)
    as (rows & hs & Hlen & Hhs & Hout).
  rewrite Hfs in Hlen, Hhs.
  assert (Hsum : sizes_sum report_dir ["a.gif"; "b.svg"] = 309) by (vm_compute; reflexivity).
  rewrite Hsum in Hhs. vm_compute in Hhs. injection Hhs as <-.
  exists rows. do 4 (split; [assumption|]). exact Hout.
Defined.

End InfoMoreWitness.

(** ** Nothing to do *)

Module MainMore.
Import PyNum PyStr Listing.

Section WithTools.
Context `{Pillow} `{Gifsicle}.

(** X16.  Each script, run on a directory that holds none of the files
    it looks for (an empty directory for one), prints its one-line notice
    and returns, without touching a file. *)
Theorem nothing_found_prints_notice w :
  ((forall f, is_Some (files w !! f) -> CompressPng.is_target f = false) ->
   forall max_width quality,
     CompressPng.main max_width quality w
     = Ok (tt, World (files w) (stdout w ++ ["No PNG/JPG files found."])%list))
  /\
  ((forall f, is_Some (files w !! f) -> CompressGif.is_target f = false) ->
   forall max_width lossy colors,
     CompressGif.main max_width lossy colors w
     = Ok (tt, World (files w) (stdout w ++ ["No GIF files found."])%list))
  /\
  ((forall f, is_Some (files w !! f) -> ImageInfo.is_target f = false) ->
   ImageInfo.main w
   = Ok (tt, World (files w) (stdout w ++ ["No image files found."])%list)).
Proof.
  split; [|split].
  - intros Hno max_width quality. unfold CompressPng.main.
    unfold mbind at 1, io_bind at 1, Os.listdir at 1. cbn beta iota zeta.
    rewrite (listing_nil _ _ Hno). reflexivity.
  - intros Hno max_width lossy colors. unfold CompressGif.main.
    unfold mbind at 1, io_bind at 1, Os.listdir at 1. cbn beta iota zeta.
    rewrite (listing_nil _ _ Hno). reflexivity.
  - intros Hno. unfold ImageInfo.main.
    unfold mbind at 1, io_bind at 1, Os.listdir at 1. cbn beta iota zeta.
    rewrite (listing_nil _ _ Hno). reflexivity.
Qed.

End WithTools.

(** A directory with a text file and a stray temporary file *)
Lemma nothing_found_prints_notice_witness :
  let w := World (<[ "notes.txt" := [Byte.x68; Byte.x69] ]> {[ "a.gif.tmp" := [] ]}) [] in
  (forall f, is_Some (files w !! f) -> CompressGif.is_target f = false) /\
  @CompressGif.main Toy.toy_pillow (Toy.scripted 0 "" None) 800 80 128 w
  = Ok (tt, World (files w) ["No GIF files found."]).
Proof.
  intros w.
  assert (Hno : forall f, is_Some (files w !! f) -> CompressGif.is_target f = false).
  { intros f [b Hb]. unfold w in Hb. cbn [files] in Hb.
    apply lookup_insert_Some in Hb as [[<- _] | [_ Hb]]; [reflexivity|].
    apply lookup_singleton_Some in Hb as [<- _]. reflexivity. }
  split; [exact Hno|].
  exact (proj1 (proj2 (nothing_found_prints_notice (H := Toy.toy_pillow)
                         (H0 := Toy.scripted 0 "" None) w)) Hno 800 80 128).
Defined.

End MainMore.

(** ** File names: the two tests for a GIF *)

Module NameMore.
Import PyNum PyStr StrFacts.

Lemma lower_substring (s : string) (i k : nat) :
  lower (substring i k s) = substring i k (lower s).
Proof.
  revert i k. induction s as [|c s IH]; intros [|i] [|k]; cbn [substring lower];
    try reflexivity.
  - now rewrite IH.
  - apply IH.
  - apply IH.
Qed.

(** [s = s[:i] + s[i:]] *)
Lemma substring_split (s : string) (i : nat) :
  (i <= String.length s)%nat ->
  s = substring 0 i s +:+ substring i (String.length s - i) s.
Proof.
  revert i. induction s as [|c s IH]; intros [|i] Hle; cbn [String.length] in *.
  - reflexivity.
  - lia.
  - change (String c s = String c (substring 0 (String.length s) s)).
    now rewrite substring_all.
  - change (String c s
            = String c (substring 0 i s +:+ substring i (String.length s - i) s)).
    f_equal. apply IH. lia.
Qed.

Lemma rfind_from_app c a b i found :
  rfind_from c (a +:+ b) i found
  = rfind_from c b (i + Z.of_nat (String.length a)) (rfind_from c a i found).
Proof.
  revert i found. induction a as [|x a IH]; intros i found.
  - change ("" +:+ b) with b. cbn [rfind_from String.length]. f_equal. lia.
  - change (String x a +:+ b) with (String x (a +:+ b)).
    cbn [rfind_from String.length]. rewrite IH. f_equal. lia.
Qed.

Lemma rfind_from_bound c s i found :
  found < i -> found <= rfind_from c s i found < i + Z.of_nat (String.length s).
Proof.
  revert i found. induction s as [|x s IH]; intros i found Hlt.
  - cbn [rfind_from String.length]. lia.
  - cbn [rfind_from String.length]. destruct (Ascii.eqb x c).
    + destruct (IH (i + 1) i ltac:(lia)). lia.
    + destruct (IH (i + 1) found ltac:(lia)). lia.
Qed.

(** A character that lowers to a dot is a dot; one that lowers to a
    character other than a dot and a slash is neither. *)
Lemma lower_ascii_dot c : lower_ascii c = "."%char -> c = "."%char.
Proof.
  destruct c as [[] [] [] [] [] [] [] []]; intros Hc; vm_compute in Hc;
    try discriminate Hc; reflexivity.
Qed.

Lemma lower_ascii_not_sep c :
  Ascii.eqb (lower_ascii c) "." = false -> Ascii.eqb (lower_ascii c) "/" = false ->
  Ascii.eqb c "." = false /\ Ascii.eqb c "/" = false.
Proof.
  destruct c as [[] [] [] [] [] [] [] []]; vm_compute; intros H1 H2;
    try discriminate; split; reflexivity.
Qed.

(** The names that end in [.gif], in any case: a stem, a dot and three
    letters that are neither a dot nor a slash *)
Lemma endswith_gif_inv f :
  endswith (lower f) ".gif" = true ->
  exists a c1 c2 c3,
    f = a +:+ String "." (String c1 (String c2 (String c3 ""))) /\
    lower (String "." (String c1 (String c2 (String c3 "")))) = ".gif" /\
    Ascii.eqb c1 "." = false /\ Ascii.eqb c2 "." = false /\ Ascii.eqb c3 "." = false /\
    Ascii.eqb c1 "/" = false /\ Ascii.eqb c2 "/" = false /\ Ascii.eqb c3 "/" = false.
Proof.
  unfold endswith. rewrite lower_length. change (String.length ".gif") with 4%nat.
  intros Hend. apply andb_prop in Hend as [Hlen Heq].
  apply Nat.leb_le in Hlen. apply String.eqb_eq in Heq.
  rewrite <- lower_substring in Heq.
  pose proof (substring_split f (String.length f - 4) ltac:(lia)) as Hsplit.
  replace (String.length f - (String.length f - 4))%nat with 4%nat in Hsplit by lia.
  set (a := substring 0 (String.length f - 4) f) in *.
  set (s := substring (String.length f - 4) 4 f) in *.
  destruct s as [|c0 [|c1 [|c2 [|c3 [|c4 s]]]]]; try discriminate Heq.
  cbn [lower] in Heq. injection Heq as H0 H1 H2 H3.
  apply lower_ascii_dot in H0. subst c0.
  exists a, c1, c2, c3. split; [exact Hsplit|].
  split; [cbn [lower]; now rewrite H1, H2, H3|].
  destruct (lower_ascii_not_sep c1) as [? ?]; [now rewrite H1..|].
  destruct (lower_ascii_not_sep c2) as [? ?]; [now rewrite H2..|].
  destruct (lower_ascii_not_sep c3) as [? ?]; [now rewrite H3..|].
  auto 10.
Qed.

(** The extension of a name that ends in [.gif] is its last four
    characters, unless [splitext] finds no extension at all. *)
Lemma splitext_of_gif f :
  endswith (lower f) ".gif" = true ->
  (splitext f).2 = "" \/ lower (splitext f).2 = ".gif".
Proof.
  intros Hend.
  destruct (endswith_gif_inv f Hend)
    as (a & c1 & c2 & c3 & -> & Hlow & D1 & D2 & D3 & S1 & S2 & S3).
  set (s := String "." (String c1 (String c2 (String c3 "")))) in *.
  assert (Hdot : rfind "." (a +:+ s) = Z.of_nat (String.length a)).
  { unfold rfind. rewrite rfind_from_app. unfold s. cbn [rfind_from].
    rewrite D1, D2, D3. cbn [Ascii.eqb Bool.eqb]. lia. }
  assert (Hsep : rfind "/" (a +:+ s) = rfind_from "/" a 0 (-1)).
  { unfold rfind. rewrite rfind_from_app. unfold s. cbn [rfind_from].
    rewrite S1, S2, S3. reflexivity. }
  unfold splitext. rewrite Hdot, Hsep.
  destruct (_ && _); [|left; reflexivity]. right. cbn [snd].
  unfold slice. rewrite Nat2Z.id, append_length.
  replace (Z.to_nat (Z.of_nat (String.length a + String.length s)
                     - Z.of_nat (String.length a))) with (String.length s) by lia.
  rewrite substring_append_suffix. exact Hlow.
Qed.

Lemma gif_extension_endswith f :
  lower (splitext f).2 = ".gif" -> endswith (lower f) ".gif" = true.
Proof.
  unfold splitext.
  pose proof (rfind_from_bound "/" f 0 (-1) ltac:(lia)) as Hs.
  pose proof (rfind_from_bound "." f 0 (-1) ltac:(lia)) as Hd.
  fold (rfind "/" f) in Hs. fold (rfind "." f) in Hd.
  destruct (_ && _) eqn:Hc; [|discriminate]. cbn [snd].
  apply andb_prop in Hc as [Hlt _]. apply Z.ltb_lt in Hlt.
  unfold slice. intros Hext.
  set (i := Z.to_nat (rfind "." f)) in *.
  replace (Z.to_nat (Z.of_nat (String.length f) - rfind "." f))
    with (String.length f - i)%nat in Hext by lia.
  rewrite (substring_split f i) by lia.
  rewrite lower_append, Hext. apply endswith_append.
Qed.

(** X17.  [image_info.py] tests a name twice: [splitext(f)[1].lower()]
    selects the files of the report and [f.lower().endswith(".gif")] selects
    the rows that get a frame count.  On a listed file the two agree: the
    frame count is computed exactly for the listed files whose extension is
    [.gif] in any case, and these are exactly the listed files that
    [compress_gif.py] processes.  A name that ends in [.gif] is listed by
    the report unless [splitext] gives it no extension. *)
Theorem gif_tests_agree f :
  (ImageInfo.is_target f = true ->
   (endswith (lower f) ".gif" = true <-> lower (splitext f).2 = ".gif")
   /\ (CompressGif.is_target f = true <-> lower (splitext f).2 = ".gif"))
  /\
  (CompressGif.is_target f = true ->
   ImageInfo.is_target f = true \/ (splitext f).2 = "").
Proof.
  assert (Hno : (splitext f).2 = "" -> ImageInfo.is_target f = false).
  { unfold ImageInfo.is_target. intros ->. reflexivity. }
  assert (Hiff : ImageInfo.is_target f = true ->
                 (endswith (lower f) ".gif" = true <-> lower (splitext f).2 = ".gif")).
  { intros Ht. split; [|apply gif_extension_endswith].
    intros Hend. destruct (splitext_of_gif f Hend) as [Hnone | Hgif]; [|exact Hgif].
    rewrite (Hno Hnone) in Ht. discriminate. }
  split.
  - intros Ht. split; [exact (Hiff Ht)|]. exact (Hiff Ht).
  - unfold CompressGif.is_target. intros Hend.
    destruct (splitext_of_gif f Hend) as [Hnone | Hgif]; [right; exact Hnone|].
    left. unfold ImageInfo.is_target. rewrite Hgif. reflexivity.
Qed.

Lemma gif_tests_agree_witness :
  ImageInfo.is_target "Anim.GIF" = true /\
  CompressGif.is_target "Anim.GIF" = true /\
  lower (splitext "Anim.GIF").2 = ".gif".
Proof.
  assert (H1 : ImageInfo.is_target "Anim.GIF" = true) by reflexivity.
  assert (H2 : CompressGif.is_target "Anim.GIF" = true) by reflexivity.
  split; [exact H1|]. split; [exact H2|].
  exact (proj1 (proj2 (proj1 (gif_tests_agree "Anim.GIF") H1)) H2).
Defined.

(** A file named [.gif] is compressed and not reported. *)
Example dot_gif_is_not_listed :
  CompressGif.is_target ".gif" = true /\ ImageInfo.is_target ".gif" = false
  /\ splitext ".gif" = (".gif", "").
Proof. repeat split. Qed.

End NameMore.

(** ** [image_info.py]: the row of a readable file *)

Module RowMore.
Import PyNum PyStr ImageInfo InfoClaims.

Section WithPillow.
Context `{Pillow}.

Lemma probe_dims_readable path w b d :
  files w !! path = Some b -> decode b = Some d ->
  probe_dims path w = Ok (str_of_int (width d) +:+ "x" +:+ str_of_int (height d), w).
Proof.
  intros Hb Hdec. unfold probe_dims, try_except.
  rewrite (io_bind_step _ _ _ _ _ (open_decoded _ _ _ _ Hb Hdec)). reflexivity.
Qed.

Lemma get_gif_info_readable filepath w b d :
  files w !! filepath = Some b -> decode b = Some d ->
  get_gif_info filepath w
  = Ok ((Z.of_nat (PIL.n_frames d),
         default 0 (PIL.info (PIL.at_frame d (PIL.n_frames d - 1)) !! "duration")), w).
Proof.
  intros Hb Hdec. unfold get_gif_info.
  rewrite (io_bind_step _ _ _ _ _ (open_decoded _ _ _ _ Hb Hdec)).
  cbn beta.
  change (mkImage (width d) (height d) (mode d) (frame0 d) (more_frames d) 0 (raster d))
    with (PIL.at_frame d 0).
  change (PIL.n_frames (PIL.at_frame d 0)) with (PIL.n_frames d).
  rewrite count_frames_from by (unfold PIL.n_frames; lia).
  cbn. rewrite Nat.sub_0_r. reflexivity.
Qed.

(** X18.  The row of a file that Pillow can read: the name, the size as
    [human_size] prints it, the dimensions as [WxH], and, when the name ends
    in [.gif] in any case, the number of frames and the duration recorded
    for the last frame (0 when none is recorded); for other names the last
    column is empty.  The size is added to the total and the loop goes on
    with the files that follow, in an unchanged directory. *)
Theorem readable_file_row f fs' total w b d hs :
  files w !! f = Some b -> decode b = Some d ->
  human_size (Z.of_nat (length b)) = Ok hs ->
  let dims := str_of_int (width d) +:+ "x" +:+ str_of_int (height d) in
  let extra :=
    if endswith (lower f) ".gif" then
      "frames=" +:+ str_of_int (Z.of_nat (S (length (more_frames d))))
      +:+ ", duration="
      +:+ str_of_int (default 0 (default (frame0 d) (last (more_frames d)) !! "duration"))
      +:+ "ms/frame"
    else "" in
  loop (f :: fs') total w
  = loop fs' (total + Z.of_nat (length b))
      (World (files w)
         (stdout w ++ [ljust f 45 +:+ " " +:+ rjust hs 10 +:+ " "
                       +:+ rjust dims 14 +:+ " " +:+ extra])%list).
Proof.
  intros Hb Hdec Hhs dims extra. cbn [loop].
  rewrite (io_bind_step _ _ _ _ _ (getsize_found _ _ _ Hb)).
  rewrite (io_bind_step _ _ _ _ _ (probe_dims_readable _ _ _ _ Hb Hdec)).
  fold dims.
  assert (Hlast : PIL.info (PIL.at_frame d (PIL.n_frames d - 1))
                  = default (frame0 d) (last (more_frames d))).
  { unfold PIL.info, PIL.at_frame, PIL.n_frames. cbn [tell more_frames frame0].
    rewrite Nat.sub_1_r. cbn [Nat.pred].
    destruct (more_frames d) as [|x l] eqn:E using rev_ind; [reflexivity|].
    rewrite length_app. cbn [length]. rewrite Nat.add_1_r.
    rewrite last_snoc. cbn [default].
    rewrite lookup_app_r by lia. now rewrite Nat.sub_diag. }
  assert (Hextra :
    (if endswith (lower f) ".gif" then
       '(frames, duration) ← get_gif_info f;
       (mret ("frames=" +:+ str_of_int frames +:+ ", duration="
              +:+ str_of_int duration +:+ "ms/frame") : io string)
     else mret "") w = Ok (extra, w)).
  { unfold extra. destruct (endswith (lower f) ".gif"); [|reflexivity].
    rewrite (io_bind_step _ _ _ _ _ (get_gif_info_readable _ _ _ _ Hb Hdec)).
    cbn beta iota. rewrite Hlast. reflexivity. }
  rewrite (io_bind_step _ _ _ _ _ Hextra).
  rewrite (io_bind_step (lift (human_size (Z.of_nat (length b)))) _ w hs w)
    by (unfold lift; now rewrite Hhs).
  reflexivity.
Qed.

End WithPillow.

Lemma readable_file_row_witness :
  let d := mkImage 1600 1000 "P" {[ "duration" := 40 ]}
             (replicate 49 {[ "duration" := 40 ]}) 0 tt in
  let w := Toy.dir1 "a.gif" Toy.big in
  files w !! "a.gif" = Some Toy.big /\
  Toy.toy_decode Toy.big = Some d /\
  human_size 307 = Ok "307.0 B" /\
  @loop Toy.toy_pillow ["a.gif"] 0 w
  = Ok (307, World (files w)
               [ljust "a.gif" 45 +:+ " " +:+ rjust "307.0 B" 10 +:+ " "
                +:+ rjust "1600x1000" 14 +:+ " frames=50, duration=40ms/frame"]).
Proof.
  intros d w.
  assert (H1 : files w !! "a.gif" = Some Toy.big) by (vm_compute; reflexivity).
  assert (H2 : Toy.toy_decode Toy.big = Some d) by (vm_compute; reflexivity).
  assert (H3 : human_size (Z.of_nat (length Toy.big)) = Ok "307.0 B")
    by (vm_compute; reflexivity).
  split; [exact H1|]. split; [exact H2|]. split; [exact H3|].
  rewrite (readable_file_row (H := Toy.toy_pillow) "a.gif" [] 0 w Toy.big d "307.0 B" H1 H2 H3).
  vm_compute. reflexivity.
Defined.

End RowMore.

(** ** The percentage of the summary line *)

Module PctMore.
Import PyNum PyStr StatementDefs FloatFacts.

(** [a / b] for [0 < a < b] is at most 1.0. *)
Lemma int_truediv_le_one a b :
  0 < a -> a < b -> b < 2 ^ 64 ->
  exists M E,
    int_truediv a b = Ok (S754_finite false M E) /\
    Zpos (digits2_pos M) = 53 /\ -200 <= E < 0 /\ Zpos M <= 2 ^ (- E).
Proof.
  intros Ha Hab Hb.
  destruct (int_truediv_ratio a b Ha Hab Hb) as (M & E & Hdiv & HM & HE & Hclose).
  exists M, E. do 3 (split; [assumption|]).
  set (A := 2 ^ (- E)) in *.
  assert (HA : 0 < A) by (apply Z.pow_pos_nonneg; lia).
  apply Z.abs_le in Hclose.
  destruct (Z.le_gt_cases (Zpos M) A) as [|Hgt]; [assumption|exfalso].
  assert (H1 : (A + 1) * b <= Zpos M * b) by (apply Z.mul_le_mono_nonneg_r; lia).
  assert (H2 : a * A <= (b - 1) * A) by (apply Z.mul_le_mono_nonneg_r; lia).
  lia.
Qed.

(** [a / a] is 1.0. *)
Lemma int_truediv_self a :
  0 < a -> int_truediv a a = Ok (S754_finite false two52 (-52)).
Proof.
  intros Ha. destruct a as [|p|p]; try lia.
  unfold int_truediv. cbn [Z.eqb].
  unfold fdiv, raw_of_int, SFdiv, SFdiv_core_binary. cbn [Zdigits2].
  set (d := Zpos (digits2_pos p)).
  replace (Z.min (fexp prec emax (d + 0 - (d + 0))) (0 - 0)) with (-53)
    by (unfold fexp, emin, prec, emax; lia).
  change (0 - 0 - -53) with 53. cbn iota.
  rewrite Z.shiftl_mul_pow2 by lia. rewrite div_eucl_div_mod.
  rewrite (Z.mul_comm (Zpos p)), Z.div_mul, Z.mod_mul by lia.
  replace (new_location (Zpos p) 0) with loc_Exact
    by (unfold new_location; destruct (Z.even (Zpos p)); reflexivity).
  cbn [xorb]. change (2 ^ 53) with (Zpos two52~0).
  rewrite bra_exact_even by (try reflexivity; lia). reflexivity.
Qed.

(** A double below 1.0, times 100.0, is at most 100.0. *)
Lemma fmul_hundred_le M E :
  Zpos (digits2_pos M) = 53 -> -200 <= E < 0 -> Zpos M < 2 ^ (- E) ->
  exists m1 e1,
    fmul (S754_finite false M E) hundred = S754_finite false m1 e1 /\
    e1 < 0 /\ Zpos m1 <= 100 * 2 ^ (- e1).
Proof.
  intros HM HE Hlt.
  pose proof (digits_lower M) as Hl. pose proof (digits_upper M) as Hu.
  rewrite HM in Hl, Hu. change (2 ^ (53 - 1)) with (2 ^ 52) in Hl.
  assert (HE53 : E <= -53).
  { destruct (Z.le_gt_cases E (-53)) as [|Hgt]; [assumption|].
    assert (2 ^ (- E) <= 2 ^ 52) by (apply Z.pow_le_mono_r; lia). lia. }
  unfold fmul, SFmul, hundred. cbn [xorb].
  set (M100 := 7036874417766400%positive).
  assert (H100 : Zpos M100 = 100 * 2 ^ 46) by reflexivity.
  assert (H100r : 2 ^ 52 <= Zpos M100 < 2 ^ 53) by (split; [vm_compute; discriminate | reflexivity]).
  set (q := (M * M100)%positive).
  assert (Hqq : Zpos q = Zpos M * Zpos M100) by (unfold q; now rewrite Pos2Z.inj_mul).
  assert (Hq : 2 ^ 104 <= Zpos q < 2 ^ 106).
  { rewrite Hqq.
    change (2 ^ 104) with (2 ^ 52 * 2 ^ 52). change (2 ^ 106) with (2 ^ 53 * 2 ^ 53).
    split; [apply Z.mul_le_mono_nonneg; lia | apply Z.mul_lt_mono_nonneg; lia]. }
  pose proof (digits_lower q) as Hlq. pose proof (digits_upper q) as Huq.
  set (dq := Zpos (digits2_pos q)) in *.
  assert (Hdq : 105 <= dq <= 106).
  { split.
    - destruct (Z.le_gt_cases 105 dq) as [|Hlt']; [assumption|].
      assert (2 ^ dq <= 2 ^ 104) by (apply Z.pow_le_mono_r; unfold dq; lia). lia.
    - destruct (Z.le_gt_cases dq 106) as [|Hgt]; [assumption|].
      assert (2 ^ 106 <= 2 ^ (dq - 1)) by (apply Z.pow_le_mono_r; lia). lia. }
  destruct (bra_wide false q (E + -46) loc_Exact) as (m1 & Hm1 & Hhb & Hres).
  { fold dq. lia. }
  { fold dq. lia. }
  fold dq in Hres, Hm1, Hhb. rewrite Hres. clear Hres.
  set (c := dq - 53) in *.
  assert (Hc : 52 <= c <= 53) by (unfold c; lia).
  assert (Hpc : 0 < 2 ^ c) by (apply Z.pow_pos_nonneg; lia).
  set (h := Zpos q / 2 ^ c) in *.
  (* the bound on [h]: below [K = 100 * 2^(46 - E - c)] *)
  set (K := 100 * 2 ^ (46 - E - c)).
  assert (HK : Zpos M100 * 2 ^ (- E) = K * 2 ^ c).
  { unfold K. rewrite H100, <- !Z.mul_assoc, <- !Z.pow_add_r by lia.
    do 2 f_equal. lia. }
  assert (Hh : h < K).
  { unfold h. apply Z.div_lt_upper_bound; [lia|].
    rewrite Hqq, (Z.mul_comm (2 ^ c)), <- HK, (Z.mul_comm (Zpos M)).
    apply Z.mul_lt_mono_pos_l; lia. }
  destruct (Z.ltb_spec m1 (2 ^ 53)) as [Hlt1 | Hge1].
  - replace (E + -46 + c <=? 971) with true by (symmetry; apply Z.leb_le; lia).
    exists (Z.to_pos m1), (E + -46 + c).
    split; [reflexivity|]. split; [lia|].
    rewrite Z2Pos.id by lia.
    replace (- (E + -46 + c)) with (46 - E - c) by lia. fold K. lia.
  - replace (E + -46 + c + 1 <=? 971) with true by (symmetry; apply Z.leb_le; lia).
    exists two52, (E + -46 + c + 1).
    split; [reflexivity|]. split; [lia|].
    assert (HK2 : K = 2 * (100 * 2 ^ (- (E + -46 + c + 1)))).
    { unfold K. rewrite Z.mul_assoc, (Z.mul_comm 2 100), <- Z.mul_assoc.
      f_equal. rewrite <- Z.pow_succ_r by lia. f_equal. lia. }
    change (Zpos two52) with (2 ^ 52). change (2 ^ 53) with (2 * 2 ^ 52) in *. lia.
Qed.

(** The tenths of a double that is at most 100.0 are at most 1000. *)
Lemma tenths_le_1000 m e :
  e < 0 -> Zpos m <= 100 * 2 ^ (- e) -> 0 <= tenths m e <= 1000.
Proof.
  intros He Hle. split; [apply tenths_nonneg|].
  pose proof (tenths_nearest m e) as Ht.
  replace (Z.max 0 e) with 0 in Ht by lia.
  replace (Z.max 0 (- e)) with (- e) in Ht by lia.
  change (2 ^ 0) with 1 in Ht. rewrite Z.mul_1_r in Ht.
  set (B := 2 ^ (- e)) in *.
  assert (HB : 0 < B) by (apply Z.pow_pos_nonneg; lia).
  set (t := tenths m e) in *.
  destruct (Z.le_gt_cases t 1000) as [|Hgt]; [assumption|exfalso].
  assert (1001 * B <= t * B) by (apply Z.mul_le_mono_nonneg_r; lia).
  lia.
Qed.

(** X19.  The percentage of the summary line, when the new total is
    between 0 and the old total (as it always is for the GIF compressor) and
    the old total is positive and below 2^64: the computation succeeds and
    the figure that is printed, with one decimal, is between 0.0 and 100.0. *)
Theorem saved_percentage_in_range total_old total_new :
  0 < total_old < 2 ^ 64 -> 0 <= total_new <= total_old ->
  exists x t,
    Summary.pct total_old (total_old - total_new) = Ok x /\
    format_num_1f x = Ok (fmt_tenths false t) /\
    0 <= t <= 1000.
Proof.
  intros Ho Hn. unfold Summary.pct.
  destruct (total_old =? 0) eqn:E0; [apply Z.eqb_eq in E0; lia|].
  change (float_of_int 100) with (Ok hundred).
  set (saved := total_old - total_new).
  destruct (Z.eq_dec saved 0) as [Hz | Hnz].
  - rewrite Hz. destruct total_old as [|p|p]; try lia.
    exists (PFloat (S754_zero false)), 0. repeat split; lia.
  - destruct (Z.eq_dec saved total_old) as [Hall | Hpart].
    + rewrite Hall, int_truediv_self by lia.
      exists (PFloat hundred), 1000. split; [vm_compute; reflexivity|].
      split; [vm_compute; reflexivity | lia].
    + destruct (int_truediv_le_one saved total_old) as (M & E & Hdiv & HM & HE & Hle);
        try (unfold saved; lia).
      rewrite Hdiv. cbn [mbind result_bind].
      destruct (Z.eq_dec (Zpos M) (2 ^ (- E))) as [Hone | Hless].
      * (* the quotient rounds to 1.0 *)
        pose proof (digits_lower M) as Hl. pose proof (digits_upper M) as Hu.
        rewrite HM in Hl, Hu. change (2 ^ (53 - 1)) with (2 ^ 52) in Hl.
        assert (HE52 : E = -52).
        { destruct (Z.lt_trichotomy (- E) 52) as [Hlt | [Heq | Hgt]]; [| lia |].
          - assert (2 ^ (- E) <= 2 ^ 51) by (apply Z.pow_le_mono_r; lia).
            assert (2 ^ 51 < 2 ^ 52) by reflexivity. lia.
          - assert (2 ^ 53 <= 2 ^ (- E)) by (apply Z.pow_le_mono_r; lia). lia. }
        subst E. assert (M = two52) as -> by (apply Pos2Z.inj; rewrite Hone; reflexivity).
        exists (PFloat hundred), 1000. split; [vm_compute; reflexivity|].
        split; [vm_compute; reflexivity | lia].
      * destruct (fmul_hundred_le M E HM HE ltac:(lia)) as (m1 & e1 & Hmul & He1 & Hm1).
        rewrite Hmul. exists (PFloat (S754_finite false m1 e1)), (tenths m1 e1).
        split; [reflexivity|]. split; [reflexivity|].
        now apply tenths_le_1000.
Qed.

Lemma saved_percentage_in_range_witness :
  0 < 614 < 2 ^ 64 /\ 0 <= 54 <= 614 /\
  exists x t,
    Summary.pct 614 (614 - 54) = Ok x /\
    format_num_1f x = Ok (fmt_tenths false t) /\ 0 <= t <= 1000.
Proof.
  assert (H1 : 0 < 614 < 2 ^ 64) by (split; [lia | vm_compute; reflexivity]).
  assert (H2 : 0 <= 54 <= 614) by lia.
  split; [exact H1|]. split; [exact H2|].
  exact (saved_percentage_in_range 614 54 H1 H2).
Defined.

(** Without the bound on the new total the figure leaves the range: the
    PNG compressor can print a negative percentage. *)
Example png_percentage_out_of_range :
  CompressPng.total_line 47 99
  = Ok (ljust "Total" 35 +:+ " " +:+ rjust "47.0 B" 10 +:+ " " +:+ rjust "99.0 B" 10
        +:+ " " +:+ rjust "-52.0 B" 10 +:+ " (-110.6% saved)").
Proof. vm_compute. reflexivity. Qed.

End PctMore.
